(** * Usage accounting and entitlement core of the Notae backend

    A shallow embedding of the Cloud Functions in [functions/index.js]
    (monthly-reset generation) and of the two lifetime-limit generations
    that carry the device-binding guard, together with the properties the
    specification states about them.

    The handlers are [async] JavaScript functions that talk to Firestore,
    to the secret store, to the clock and to the upstream AI provider.  Each
    [await] is one atomic interaction with the outside world; everything
    between two awaits is pure.  A handler is therefore embedded as a finite
    tree of interactions ([Prog]), which is then given two readings: [exec]
    runs one request from start to finish, [run_schedule] interleaves several
    requests against the same user document, one interaction at a time. *)

From stdpp Require Import gmap strings list fin_maps pretty.
From Stdlib Require Import ZArith.

Open Scope Z_scope.

(** ** JavaScript values as they occur in the documents *)

Inductive Value : Type :=
| VNum (n : Z)          (* a number field *)
| VStr (s : string)     (* a string field *)
| VBool (b : bool)      (* a boolean field *)
| VTime (t : Z).        (* a Firestore Timestamp, in milliseconds *)

#[global] Instance Value_eq_dec : EqDecision Value.
Proof. solve_decision. Defined.

(** A Firestore document, and every plain JS object holding fields: a finite
    map from field names to values; an absent key reads as [undefined]. *)
Abbreviation Doc := (gmap string Value).

(** JS truthiness: [undefined], [0], the empty string and [false] are falsy. *)
Definition truthy (v : option Value) : bool :=
  match v with
  | None => false
  | Some (VNum n) => negb (n =? 0)
  | Some (VStr s) => negb (String.eqb s "")
  | Some (VBool b) => b
  | Some (VTime _) => true
  end.

(** [a || d] where [d] is a literal. *)
Definition js_or (a : option Value) (d : Value) : Value :=
  match a with
  | Some x => if truthy a then x else d
  | None => d
  end.

(** [a === b] and [a !== b]. *)
Definition strict_eq (a b : option Value) : bool := bool_decide (a = b).
Definition strict_ne (a b : option Value) : bool := negb (strict_eq a b).

(** ToNumber, for the values the counters hold; [None] stands for NaN.
    Only numbers are ever stored in a counter field; any other value is
    treated as NaN here. *)
Definition to_number (v : Value) : option Z :=
  match v with
  | VNum n => Some n
  | _ => None
  end.

(** [a >= b]: false as soon as one side is NaN. *)
Definition js_ge (a b : Value) : bool :=
  match to_number a, to_number b with
  | Some x, Some y => bool_decide (y ≤ x)
  | _, _ => false
  end.

(** [a - b] on numbers, NaN when an operand is. *)
Definition js_sub (a b : option Z) : option Z :=
  match a, b with
  | Some x, Some y => Some (x - y)
  | _, _ => None
  end.

(** [Math.max(0, a - b)] on numbers, NaN when an operand is. *)
Definition js_max0_sub (a b : option Z) : option Z :=
  match a, b with
  | Some x, Some y => Some (Z.max 0 (x - y))
  | _, _ => None
  end.

(** A value inside a template literal. *)
Definition js_to_string (v : option Value) : string :=
  match v with
  | None => "undefined"
  | Some (VNum n) => pretty n
  | Some (VStr s) => s
  | Some (VBool b) => if b then "true" else "false"
  | Some (VTime _) => "[object Object]"
  end.

(** [hay.includes(needle)]. *)
Fixpoint includes (needle hay : string) : bool :=
  String.prefix needle hay ||
  match hay with
  | EmptyString => false
  | String _ rest => includes needle rest
  end.

(** ** Firestore writes *)

(** What a field of a [set] or [update] payload may hold. *)
Inductive FieldOp : Type :=
| FSet (v : Value)            (* a plain value *)
| FIncrement (n : Z)          (* FieldValue.increment(n) *)
| FServerTimestamp.           (* FieldValue.serverTimestamp() *)

Abbreviation Patch := (gmap string FieldOp).

(** The effect of one payload field on the stored field.  An increment of a
    field that is absent or not a number stores the operand. *)
Definition apply_op (now : Z) (op : option FieldOp) (old : option Value)
  : option Value :=
  match op with
  | None => old
  | Some (FSet v) => Some v
  | Some (FIncrement n) =>
      Some (VNum (match old with Some (VNum m) => m + n | _ => n end))
  | Some FServerTimestamp => Some (VTime now)
  end.

(** All fields of a payload are applied in one atomic write. *)
Definition apply_patch (now : Z) (p : Patch) (d : Doc) : Doc :=
  merge (apply_op now) p d.

(** ** The world a request runs against *)

(** The shared, durable state: the caller's [users/{uid}] document, the
    [usage_logs] collection, and what was written with [console.warn]. *)
Record World : Type := mkWorld {
  userDoc : option Doc;
  usageLogs : list Doc;
  warnings : list string;
}.

(** The body of a successful provider answer, as far as the handlers read
    it. *)
Record ApiResult : Type := mkApiResult {
  content : list (string * string);    (* blocks: type, text *)
  stop_reason : string;
  input_tokens : Z;
  output_tokens : Z;
}.

(** An upstream HTTP response. [json] is [None] when the body does not
    parse. *)
Record Response : Type := mkResponse {
  ok : bool;
  status : Z;
  statusText : string;
  text : string;
  json : option ApiResult;
}.

(** The claims of a verified App Store receipt, as far as the handler reads
    them. Either field may be missing from the payload. *)
Record ReceiptPayload : Type := mkReceiptPayload {
  expiresDate : option Z;    (* payload.expiresDate: milliseconds since the epoch *)
  productId : option string; (* payload.productId *)
}.

(** What the Firestore client library says when it refuses a value before
    any request is sent. The texts are the library's, not the handlers'. *)
Record Library : Type := mkLibrary {
  timestampError : option Z → string;
    (* Timestamp.fromDate on a date that is invalid ([None]) or outside the
       years 1 to 9999 *)
  undefinedError : string → string;
    (* a document with an undefined field, by the name of the field *)
}.

(** What is outside the document store, as one request sees it. *)
Record Env : Type := mkEnv {
  monthKey : string;                      (* getMonthKey(): UTC YYYY-MM *)
  now : Z;                                (* server clock, milliseconds *)
  secret : string;                        (* the API key; empty when unset *)
  upstream : string → string + Response;  (* per model: network error or response *)
  logFault : option string;               (* usage_logs.add rejects with this *)
  verifier : string → string + ReceiptPayload;
                                          (* per token: failure or verified claims *)
}.

(** The interactions. Every one may reject, as any awaited promise may. *)
Inductive Eff : Type → Type :=
| UserGet : Eff (option Doc)              (* (await userRef.get()).data() *)
| UserSet (p : Patch) : Eff unit          (* await userRef.set(p) *)
| UserUpdate (p : Patch) : Eff unit       (* await userRef.update(p) *)
| LogAdd (p : Patch) : Eff unit           (* await db.collection('usage_logs').add(p) *)
| GetMonthKey : Eff string                (* getMonthKey() *)
| GetNow : Eff Z                          (* new Date() *)
| SecretValue : Eff string                (* apiKey.value() *)
| Fetch (model : string) : Eff Response   (* await fetch(..) / axios.post(..) *)
| ConsoleWarn (msg : string) : Eff unit   (* console.warn(msg, ..) *)
| VerifyReceipt (jws : string) : Eff ReceiptPayload.
    (* key selection and jwtVerify: the signature verifier *)

(** One interaction against the world. [update] rejects on a document that
    does not exist; log writes reject when the environment says so; a fetch
    rejects on a network error, a verification on any failure to validate
    the token. *)
Definition handle (env : Env) {X : Type} (e : Eff X) (w : World)
  : (string + X) * World :=
  match e in Eff X return (string + X) * World with
  | UserGet => (inr (userDoc w), w)
  | UserSet p =>
      (inr (), mkWorld (Some (apply_patch (now env) p ∅)) (usageLogs w) (warnings w))
  | UserUpdate p =>
      match userDoc w with
      | Some d =>
          (inr (), mkWorld (Some (apply_patch (now env) p d)) (usageLogs w) (warnings w))
      | None => (inl "NOT_FOUND: no document to update", w)
      end
  | LogAdd p =>
      match logFault env with
      | Some msg => (inl msg, w)
      | None =>
          (inr (), mkWorld (userDoc w) (usageLogs w ++ [apply_patch (now env) p ∅]) (warnings w))
      end
  | GetMonthKey => (inr (monthKey env), w)
  | GetNow => (inr (now env), w)
  | SecretValue => (inr (secret env), w)
  | Fetch model => (upstream env model, w)
  | ConsoleWarn msg =>
      (inr (), mkWorld (userDoc w) (usageLogs w) (warnings w ++ [msg]))
  | VerifyReceipt jws => (verifier env jws, w)
  end.

(** ** Exceptions *)

Inductive ErrorCode : Type :=
| unauthenticated | invalid_argument | resource_exhausted
| failed_precondition | internal.

#[global] Instance ErrorCode_eq_dec : EqDecision ErrorCode.
Proof. solve_decision. Defined.

Record HttpsError : Type := mkHttpsError {
  code : ErrorCode;
  message : string;
  details : Doc;       (* empty when the third argument is omitted *)
}.

(** What can be thrown: an [HttpsError], or any other [Error] with its
    message. *)
Inductive Exn : Type :=
| EHttps (e : HttpsError)
| EError (msg : string).

(** ** Programs *)

Inductive Prog (A : Type) : Type :=
| Ret (a : A)
| Throw (e : Exn)
| Vis {X : Type} (e : Eff X) (k : string + X → Prog A).

Arguments Ret {A} a.
Arguments Throw {A} e.
Arguments Vis {A X} e k.

Fixpoint bind {A B : Type} (p : Prog A) (f : A → Prog B) : Prog B :=
  match p with
  | Ret a => f a
  | Throw e => Throw e
  | Vis e k => Vis e (λ r, bind (k r) f)
  end.

(** [try { p } catch (error) { h error }] *)
Fixpoint try_catch {A : Type} (p : Prog A) (h : Exn → Prog A) : Prog A :=
  match p with
  | Ret a => Ret a
  | Throw e => h e
  | Vis e k => Vis e (λ r, try_catch (k r) h)
  end.

(** An awaited interaction: a rejection is thrown as a plain [Error]. *)
Definition perform {X : Type} (e : Eff X) : Prog X :=
  Vis e (λ r, match r with
              | inl msg => Throw (EError msg)
              | inr x => Ret x
              end).

Declare Scope prog_scope.
Delimit Scope prog_scope with prog.
Notation "'let*' x := p 'in' q" := (bind p (λ x, q))
  (at level 10, x pattern, p at level 100, q at level 200) : prog_scope.
Notation "'run' p 'in' q" := (bind p (λ _, q))
  (at level 10, p at level 100, q at level 200) : prog_scope.
Open Scope prog_scope.

(** One request, run from start to finish with nothing in between. *)
Fixpoint exec {A : Type} (env : Env) (p : Prog A) (w : World)
  : (Exn + A) * World :=
  match p with
  | Ret a => (inr a, w)
  | Throw e => (inl e, w)
  | Vis e k => let '(r, w') := handle env e w in exec env (k r) w'
  end.

(** The payloads of the document writes a request attempts, in order. *)
Definition write_of {X : Type} (e : Eff X) : list Patch :=
  match e with
  | UserSet p | UserUpdate p => [p]
  | _ => []
  end.

Fixpoint writes {A : Type} (env : Env) (p : Prog A) (w : World) : list Patch :=
  match p with
  | Vis e k => let '(r, w') := handle env e w in write_of e ++ writes env (k r) w'
  | _ => []
  end.

(** Several requests in flight. A thread is a request with its environment;
    a step performs the thread's next interaction. *)
Record Thread (A : Type) : Type := mkThread {
  thEnv : Env;
  thProg : Prog A;
}.
Arguments mkThread {A} thEnv thProg.
Arguments thEnv {A} t.
Arguments thProg {A} t.

Definition step_thread {A : Type} (t : Thread A) (w : World) : Thread A * World :=
  match thProg t with
  | Vis e k =>
      let '(r, w') := handle (thEnv t) e w in (mkThread (thEnv t) (k r), w')
  | _ => (t, w)
  end.

(** [run_schedule sched (ts, w)]: for each index of [sched] in turn, the
    thread at that index takes one step. *)
Fixpoint run_schedule {A : Type} (sched : list nat) (ts : list (Thread A))
  (w : World) : list (Thread A) * World :=
  match sched with
  | [] => (ts, w)
  | i :: rest =>
      match ts !! i with
      | Some t =>
          let '(t', w') := step_thread t w in
          run_schedule rest (<[i := t']> ts) w'
      | None => run_schedule rest ts w
      end
  end.

(** The outcome of a finished thread. *)
Definition outcome {A : Type} (t : Thread A) : option (Exn + A) :=
  match thProg t with
  | Ret a => Some (inr a)
  | Throw e => Some (inl e)
  | Vis _ _ => None
  end.

(** ** Idioms shared by the handlers *)

(** [{ ...(c ? o : {}) }] as the last entry of an object literal. *)
Definition spread_if {V : Type} (c : bool) (o : gmap string V) : gmap string V :=
  if c then o else ∅.

(** A property [k: v] whose value may be [undefined]; an undefined property
    is not serialised. *)
Definition prop {V : Type} (k : string) (f : Value → V) (v : option Value)
  : gmap string V :=
  match v with
  | Some x => {[ k := f x ]}
  | None => ∅
  end.

(** [s || d] on an optional string. *)
Definition str_or (s : option string) (d : string) : string :=
  match s with
  | Some x => if String.eqb x "" then d else x
  | None => d
  end.

Definition https (c : ErrorCode) (msg : string) : Exn :=
  EHttps (mkHttpsError c msg ∅).

(** [catch (error)] of the callables: an [HttpsError] passes, anything else
    is wrapped as [internal]. *)
Definition wrapInternal {A : Type} (error : Exn) : Prog A :=
  match error with
  | EHttps _ => Throw error
  | EError msg => Throw (https internal msg)
  end.

(** [result.content.filter(b => b.type === 'text').map(b => b.text).join('\n\n')] *)
Definition textContent (result : ApiResult) : string :=
  String.concat (String (Ascii.ascii_of_nat 10) (String (Ascii.ascii_of_nat 10) EmptyString))
    (map snd (filter (λ b, fst b = "text"%string) (content result))).

(** The text of the warning of the device check. *)
Definition deviceMismatchWarning : string :=
  "⚠️ Device ID mismatch - updating to new device".

(** The device check of the lifetime-limit generation, the same text in
    [callClaudeProxy], [callClaudeVision] and [callWhisperProxy]:
    [if (userData.deviceID && userData.deviceID !== deviceID)
       { console.warn(.., { stored: userData.deviceID.substring(0, 8), .. });
         await userRef.update({ deviceID: deviceID }); }]
    The argument of the warning reads the first characters of the stored
    identifier; on a stored value that is not a string this is a
    [TypeError], thrown before anything is written. *)
Definition deviceGuard (userData : Doc) (deviceID : string) : Prog unit :=
  if truthy (userData !! "deviceID") &&
     strict_ne (userData !! "deviceID") (Some (VStr deviceID))
  then
    match userData !! "deviceID" with
    | Some (VStr _) =>
        run perform (ConsoleWarn deviceMismatchWarning) in
        perform (UserUpdate {[ "deviceID" := FSet (VStr deviceID) ]})
    | _ => Throw (EError "userData.deviceID.substring is not a function")
    end
  else Ret ().

(** [s.toLowerCase()], on ASCII. *)
Definition lower_char (c : Ascii.ascii) : Ascii.ascii :=
  let n := Ascii.nat_of_ascii c in
  if (65 <=? n)%nat && (n <=? 90)%nat then Ascii.ascii_of_nat (n + 32) else c.

Fixpoint toLowerCase (s : string) : string :=
  match s with
  | EmptyString => EmptyString
  | String c rest => String (lower_char c) (toLowerCase rest)
  end.

(** [s.trim()]. A string is held as its UTF-8 bytes. The white space and
    line terminators of ECMAScript are: in one byte, 9 to 13 and 32; in two,
    U+00A0; in three, U+1680, U+2000 to U+200A, U+2028, U+2029, U+202F,
    U+205F, U+3000 and U+FEFF. *)
Definition is_space (c : Ascii.ascii) : bool :=
  let n := Ascii.nat_of_ascii c in
  ((9 <=? n)%nat && (n <=? 13)%nat) || (n =? 32)%nat.

Definition is_space2 (c1 c2 : Ascii.ascii) : bool :=
  (Ascii.nat_of_ascii c1 =? 194)%nat && (Ascii.nat_of_ascii c2 =? 160)%nat.

Definition is_space3 (c1 c2 c3 : Ascii.ascii) : bool :=
  let a := Ascii.nat_of_ascii c1 in
  let b := Ascii.nat_of_ascii c2 in
  let c := Ascii.nat_of_ascii c3 in
  ((a =? 225) && (b =? 154) && (c =? 128))%nat ||
  ((a =? 226) && (b =? 128) &&
     (((128 <=? c) && (c <=? 138)) || (c =? 168) || (c =? 169) || (c =? 175)))%nat ||
  ((a =? 226) && (b =? 129) && (c =? 159))%nat ||
  ((a =? 227) && (b =? 128) && (c =? 128))%nat ||
  ((a =? 239) && (b =? 187) && (c =? 191))%nat.

Fixpoint trimStart (s : string) : string :=
  match s with
  | EmptyString => EmptyString
  | String c1 r1 =>
      if is_space c1 then trimStart r1
      else
        match r1 with
        | EmptyString => s
        | String c2 r2 =>
            if is_space2 c1 c2 then trimStart r2
            else
              match r2 with
              | EmptyString => s
              | String c3 r3 => if is_space3 c1 c2 c3 then trimStart r3 else s
              end
        end
  end.

(** The same on the reversed string, where the bytes of a character come
    last byte first. *)
Fixpoint trimStartReversed (s : string) : string :=
  match s with
  | EmptyString => EmptyString
  | String c1 r1 =>
      if is_space c1 then trimStartReversed r1
      else
        match r1 with
        | EmptyString => s
        | String c2 r2 =>
            if is_space2 c2 c1 then trimStartReversed r2
            else
              match r2 with
              | EmptyString => s
              | String c3 r3 => if is_space3 c3 c2 c1 then trimStartReversed r3 else s
              end
        end
  end.

Definition trim (s : string) : string :=
  String.rev (trimStartReversed (String.rev (trimStart s))).


(** ** [functions/index.js]: monthly reset, photo scans and voice actions *)

Module Index.

Definition FREE_VOICE_LIMIT : Z := 7.
Definition FREE_PHOTO_LIMIT : Z := 3.

Definition getMonthKey : Prog string := perform GetMonthKey.

Definition ensureMonthlyVoiceReset (userData : Doc) : Prog Doc :=
  let* monthKey := getMonthKey in
  let tier := js_or (userData !! "subscriptionTier") (VStr "free") in
  let needsLimitFix :=
    strict_ne (Some tier) (Some (VStr "pro")) &&
    strict_ne (Some (js_or (userData !! "voiceActionsLimit") (VNum FREE_VOICE_LIMIT)))
              (Some (VNum FREE_VOICE_LIMIT)) in
  let needsReset :=
    strict_ne (Some tier) (Some (VStr "pro")) &&
    strict_ne (userData !! "voiceActionsDayKey") (Some (VStr monthKey)) in
  if needsReset || needsLimitFix then
    let used :=
      if needsReset then VNum 0 else js_or (userData !! "voiceActionsUsed") (VNum 0) in
    run perform (UserUpdate
          (spread_if needsLimitFix {[ "voiceActionsLimit" := FSet (VNum FREE_VOICE_LIMIT) ]}
           ∪ {[ "voiceActionsUsed" := FSet used;
                "voiceActionsDayKey" := FSet (VStr monthKey) ]})) in
    let userData := <[ "voiceActionsUsed" := used ]> userData in
    let userData := <[ "voiceActionsDayKey" := VStr monthKey ]> userData in
    let userData :=
      if needsLimitFix
      then <[ "voiceActionsLimit" := VNum FREE_VOICE_LIMIT ]> userData
      else userData in
    Ret userData
  else Ret userData.

Definition ensureMonthlyPhotoReset (userData : Doc) : Prog Doc :=
  let* monthKey := getMonthKey in
  let tier := js_or (userData !! "subscriptionTier") (VStr "free") in
  let needsLimitFix :=
    strict_ne (Some tier) (Some (VStr "pro")) &&
    strict_ne (Some (js_or (userData !! "photoScansLimit") (VNum FREE_PHOTO_LIMIT)))
              (Some (VNum FREE_PHOTO_LIMIT)) in
  let needsReset :=
    strict_ne (Some tier) (Some (VStr "pro")) &&
    strict_ne (userData !! "photoScansDayKey") (Some (VStr monthKey)) in
  if needsReset || needsLimitFix then
    let used :=
      if needsReset then VNum 0 else js_or (userData !! "photoScansUsed") (VNum 0) in
    run perform (UserUpdate
          (spread_if needsLimitFix {[ "photoScansLimit" := FSet (VNum FREE_PHOTO_LIMIT) ]}
           ∪ {[ "photoScansUsed" := FSet used;
                "photoScansDayKey" := FSet (VStr monthKey) ]})) in
    let userData := <[ "photoScansUsed" := used ]> userData in
    let userData := <[ "photoScansDayKey" := VStr monthKey ]> userData in
    let userData :=
      if needsLimitFix
      then <[ "photoScansLimit" := VNum FREE_PHOTO_LIMIT ]> userData
      else userData in
    Ret userData
  else Ret userData.

(** The remaining photo allowance as [getUserUsage] reports it, from a
    record the rollover has already normalised. *)
Definition remainingPhotoScans (userData : Doc) : option Z :=
  let photoScansLimit :=
    if strict_eq (userData !! "subscriptionTier") (Some (VStr "pro"))
    then VNum 999999
    else js_or (userData !! "photoScansLimit") (VNum FREE_PHOTO_LIMIT) in
  let photoScansUsed := js_or (userData !! "photoScansUsed") (VNum 0) in
  js_max0_sub (to_number photoScansLimit) (to_number photoScansUsed).

(** The request, as the callable receives it: the caller's identity and
    the fields of [request.data]. *)
Record VisionRequest : Type := mkVisionRequest {
  auth : option string;          (* request.auth.uid *)
  imageBase64 : option string;
  imageType : option string;
  prompt : option string;
  photoType : option string;
  deviceID : option string;
}.

Record VisionResult : Type := mkVisionResult {
  markdown : string;
  usage : Z * Z;                 (* input and output tokens *)
  resPhotoType : string;
  remainingScans : option Z;
}.

Definition modelFallbacks : list string :=
  [ "claude-sonnet-4-5-20250929"; "claude-sonnet-4-20250514";
    "claude-haiku-4-5-20251001"; "claude-3-5-haiku-20241022";
    "claude-3-haiku-20240307" ]%string.

(** How one turn of the fallback loop ends. *)
Inductive LoopExit : Type :=
| Break (result : ApiResult) (modelUsed : string)
| Continue (lastErrorText : option string).

(** The body of [for (const model of modelFallbacks)]: one attempt. *)
Definition tryModel (model : string) (lastErrorText : option string) : Prog LoopExit :=
  try_catch
    (let* response := perform (Fetch model) in
     if negb (ok response) then
       let errorText := text response in
       if (status response =? 404) || includes "not_found" errorText
       then Ret (Continue (Some errorText))
       else Throw (https internal ("Claude API error: " +:+ statusText response))
     else
       match json response with
       | Some result => Ret (Break result model)
       | None => Throw (EError "invalid json response body")
       end)
    (λ error,
       match error with
       | EHttps _ => Throw error
       | EError msg =>
           if String.eqb model (List.last modelFallbacks "")
           then Throw (https internal msg)
           else Ret (Continue (Some msg))
       end).

(** The loop: the first model that answers wins. *)
Fixpoint tryModels (models : list string) (lastErrorText : option string)
  : Prog (option (ApiResult * string) * option string) :=
  match models with
  | [] => Ret (None, lastErrorText)
  | model :: rest =>
      let* r := tryModel model lastErrorText in
      match r with
      | Break result modelUsed => Ret (Some (result, modelUsed), lastErrorText)
      | Continue l => tryModels rest l
      end
  end.

Definition defaultUserData (k1 k2 : string) : Doc :=
  {[ "photoScansUsed" := VNum 0;
     "photoScansLimit" := VNum FREE_PHOTO_LIMIT;
     "photoScansDayKey" := VStr k1;
     "voiceActionsUsed" := VNum 0;
     "voiceActionsLimit" := VNum FREE_VOICE_LIMIT;
     "voiceActionsDayKey" := VStr k2;
     "subscriptionTier" := VStr "free" ]}.

(** [callClaudeVision], inside [try { .. }], in the order of the source:
    load or create the record (lines 123-151), normalise the period (153),
    check the limit (155-177), call the provider (179-264), record the usage
    and answer (266-322). The prompt template chosen by
    [getPhotoScanPrompt] and the image only travel to the provider, whose
    answer is the environment's; they are not part of the model. *)

Definition loadUserData (deviceID : string) : Prog Doc :=
  let* userDoc := perform UserGet in
  run (match userDoc with
       | Some _ => Ret ()
       | None =>
           let* monthKey := getMonthKey in
           perform (UserSet
             {[ "deviceID" := FSet (VStr deviceID);
                "photoScansUsed" := FSet (VNum 0);
                "photoScansLimit" := FSet (VNum FREE_PHOTO_LIMIT);
                "photoScansDayKey" := FSet (VStr monthKey);
                "voiceActionsUsed" := FSet (VNum 0);
                "voiceActionsLimit" := FSet (VNum FREE_VOICE_LIMIT);
                "voiceActionsDayKey" := FSet (VStr monthKey);
                "subscriptionTier" := FSet (VStr "free");
                "createdAt" := FServerTimestamp ]})
       end) in
  match userDoc with
  | Some d => Ret d
  | None =>
      let* k1 := getMonthKey in
      let* k2 := getMonthKey in
      Ret (defaultUserData k1 k2)
  end.

Definition photoScansLimitOf (userData : Doc) : Value :=
  if strict_eq (userData !! "subscriptionTier") (Some (VStr "pro"))
  then VNum 999999
  else js_or (userData !! "photoScansLimit") (VNum 3).

Definition photoScansUsedOf (userData : Doc) : Value :=
  js_or (userData !! "photoScansUsed") (VNum 0).

(** Check limit *)
Definition checkPhotoLimit (userData : Doc) : Prog unit :=
  let photoScansLimit := photoScansLimitOf userData in
  let photoScansUsed := photoScansUsedOf userData in
  if js_ge photoScansUsed photoScansLimit &&
     strict_eq (userData !! "subscriptionTier") (Some (VStr "free"))
  then
    Throw (EHttps (mkHttpsError resource_exhausted
      ("PHOTO_SCANS_LIMIT_REACHED:" +:+ js_to_string (Some photoScansLimit) +:+ ":"
         +:+ js_to_string (userData !! "subscriptionTier"))
      (prop "tier" id (userData !! "subscriptionTier")
       ∪ {[ "limit" := photoScansLimit; "used" := photoScansUsed ]})))
  else Ret ().

(** The API key, then the fallback loop, then [if (!result) throw]. *)
Definition callProvider : Prog (ApiResult * string) :=
  let* apiKey := perform SecretValue in
  if String.eqb apiKey "" then Throw (https failed_precondition "API key not configured")
  else
  let* loop := tryModels modelFallbacks None in
  let lastErrorText := snd loop in
  match fst loop with
  | None =>
      Throw (https internal
        ("Claude API error: " +:+ default "Unknown error"
           (lastErrorText ≫= λ t, if String.eqb t "" then None else Some t)))
  | Some answer => Ret answer
  end.

(** The increments of a served photo scan (lines 289-296). *)
Definition usageUpdate (totalTokens : Z) : Patch :=
  {[ "photoScansUsed" := FIncrement 1;
     "lifetimeAPIRequests" := FIncrement 1;
     "monthlyTokens" := FIncrement totalTokens;
     "lastRequestAt" := FServerTimestamp ]}.

(** The usage-log entry (lines 299-313); the size, cost and duration fields
    are floating-point measurements and are left out. *)
Definition usageLogEntry (userId deviceID photoType : string) (userData : Doc)
  (result : ApiResult) (modelUsed : string) : Patch :=
  prop "subscriptionTier" FSet (userData !! "subscriptionTier")
  ∪ {[ "userId" := FSet (VStr userId);
       "deviceID" := FSet (VStr deviceID);
       "timestamp" := FServerTimestamp;
       "service" := FSet (VStr "claude-vision");
       "model" := FSet (VStr modelUsed);
       "photoType" := FSet (VStr photoType);
       "inputTokens" := FSet (VNum (input_tokens result));
       "outputTokens" := FSet (VNum (output_tokens result));
       "totalTokens" := FSet (VNum (input_tokens result + output_tokens result)) ]}.

(** The answer (lines 317-322). *)
Definition visionAnswer (photoType : string) (userData : Doc) (result : ApiResult)
  : VisionResult :=
  {| markdown := textContent result;
     usage := (input_tokens result, output_tokens result);
     resPhotoType := photoType;
     remainingScans :=
       js_max0_sub (to_number (photoScansLimitOf userData))
                   (Z.succ <$> to_number (photoScansUsedOf userData)) |}.

(** Update usage, write the usage log, answer. *)
Definition recordUsage (userId deviceID photoType : string) (userData : Doc)
  (result : ApiResult) (modelUsed : string) : Prog VisionResult :=
  run perform (UserUpdate (usageUpdate (input_tokens result + output_tokens result))) in
  run perform (LogAdd (usageLogEntry userId deviceID photoType userData result modelUsed)) in
  Ret (visionAnswer photoType userData result).

Definition visionBody (userId : string) (request : VisionRequest) : Prog VisionResult :=
  let deviceID := str_or (deviceID request) "unknown" in
  let* userData := loadUserData deviceID in
  let* userData := ensureMonthlyPhotoReset userData in
  run checkPhotoLimit userData in
  let photoType := str_or (photoType request) "note" in
  let* answer := callProvider in
  recordUsage userId deviceID photoType userData (fst answer) (snd answer).

Definition validTypes : list string :=
  [ "image/jpeg"; "image/png"; "image/webp"; "image/gif" ]%string.

(** [(imageBase64.length * 0.75) / 1024 / 1024 > 5]; every operation is exact
    on the doubles involved, so the test is the integer one. *)
Definition tooLarge (imageBase64 : string) : bool :=
  bool_decide (5 * 4 * 1024 * 1024 < 3 * Z.of_nat (String.length imageBase64)).

(** [estimatedSizeMB.toFixed(1)] and [estimatedSizeMB.toFixed(2)]: the
    estimate is exactly 3 * length / 2^22, and [toFixed] rounds the exact
    value to the nearest tenth or hundredth, the larger one on a tie. *)
Definition sizeFixed1 (imageBase64 : string) : string :=
  let n := (30 * Z.of_nat (String.length imageBase64) + 2097152) / 4194304 in
  pretty (n / 10) +:+ "." +:+ pretty (n mod 10).

Definition sizeFixed2 (imageBase64 : string) : string :=
  let n := (300 * Z.of_nat (String.length imageBase64) + 2097152) / 4194304 in
  pretty (n / 100) +:+ "." +:+ pretty (n / 10 mod 10) +:+ pretty (n mod 10).

Definition callClaudeVision (request : VisionRequest) : Prog VisionResult :=
  match auth request with
  | None => Throw (https unauthenticated "User must be authenticated")
  | Some userId =>
      let imageBase64 := str_or (imageBase64 request) "" in
      if String.eqb imageBase64 ""
      then Throw (https invalid_argument "imageBase64 is required")
      else
      let mediaType := str_or (imageType request) "image/jpeg" in
      if negb (bool_decide (mediaType ∈ validTypes))
      then Throw (https invalid_argument ("Invalid image type: " +:+ mediaType))
      else if tooLarge imageBase64
      then Throw (https invalid_argument
                    ("Image too large: " +:+ sizeFixed1 imageBase64
                       +:+ "MB (max 5MB). Please resize on device."))
      else try_catch (visionBody userId request) wrapInternal
  end.

(** [callWhisperProxy]. *)

Record WhisperRequest : Type := mkWhisperRequest {
  wAuth : option string;         (* request.auth.uid *)
  audioData : option string;
  audioBytes : Z;                (* Buffer.from(audioData, 'base64').length *)
  language : option string;
  wDeviceID : option string;
}.

Record WhisperResult : Type := mkWhisperResult {
  transcript : string;
  remainingTranscriptions : option Z;
  remainingRequests : option Z;
}.

Definition whisperModel : string := "whisper-1".

(** Inside [try { .. }]: load or create the record, normalise the period,
    then call the provider, record the usage and answer. After the rollover
    the limit and the counter are read into constants for the answer; there
    is no check of one against the other. [axios.post] rejects on a status
    outside 2xx with [error.response] set, and the handler's [catch] turns
    that into the [internal] error thrown here. *)

Definition loadVoiceData (deviceID : string) : Prog Doc :=
  let* userDoc := perform UserGet in
  run (match userDoc with
       | Some _ => Ret ()
       | None =>
           let* monthKey := getMonthKey in
           perform (UserSet
             {[ "deviceID" := FSet (VStr deviceID);
                "voiceActionsUsed" := FSet (VNum 0);
                "voiceActionsLimit" := FSet (VNum FREE_VOICE_LIMIT);
                "voiceActionsDayKey" := FSet (VStr monthKey);
                "photoScansUsed" := FSet (VNum 0);
                "photoScansLimit" := FSet (VNum FREE_PHOTO_LIMIT);
                "photoScansDayKey" := FSet (VStr monthKey);
                "subscriptionTier" := FSet (VStr "free");
                "createdAt" := FServerTimestamp ]})
       end) in
  match userDoc with
  | Some d => Ret d
  | None =>
      let* k := getMonthKey in
      Ret ({[ "voiceActionsUsed" := VNum 0;
              "voiceActionsLimit" := VNum FREE_VOICE_LIMIT;
              "voiceActionsDayKey" := VStr k;
              "subscriptionTier" := VStr "free" ]} : Doc)
  end.

Definition serveVoice (userId deviceID : string) (userData : Doc) : Prog WhisperResult :=
  let voiceActionsLimit :=
    if strict_eq (userData !! "subscriptionTier") (Some (VStr "pro"))
    then VNum 999999
    else js_or (userData !! "voiceActionsLimit") (VNum FREE_VOICE_LIMIT) in
  let voiceActionsUsed := js_or (userData !! "voiceActionsUsed") (VNum 0) in
  let* apiKey := perform SecretValue in
  if String.eqb apiKey "" then Throw (https failed_precondition "API key not configured")
  else
  let* response := perform (Fetch whisperModel) in
  if negb (ok response)
  then Throw (https internal ("Whisper API error: " +:+ pretty (status response)))
  else
  run perform (UserUpdate
        {[ "voiceActionsUsed" := FIncrement 1;
           "lifetimeAPIRequests" := FIncrement 1;
           "lastRequestAt" := FServerTimestamp ]}) in
  run perform (LogAdd
        (prop "subscriptionTier" FSet (userData !! "subscriptionTier")
         ∪ {[ "userId" := FSet (VStr userId);
              "deviceID" := FSet (VStr deviceID);
              "timestamp" := FServerTimestamp;
              "service" := FSet (VStr "whisper");
              "textLength" := FSet (VNum (Z.of_nat (String.length (text response)))) ]})) in
  Ret {| transcript := text response;
         remainingTranscriptions :=
           js_max0_sub (to_number voiceActionsLimit)
                       (Z.succ <$> to_number voiceActionsUsed);
         remainingRequests :=
           js_max0_sub (to_number voiceActionsLimit)
                       (Z.succ <$> to_number voiceActionsUsed) |}.

Definition whisperBody (userId : string) (request : WhisperRequest) : Prog WhisperResult :=
  let deviceID := str_or (wDeviceID request) "unknown" in
  let* userData := loadVoiceData deviceID in
  let* userData := ensureMonthlyVoiceReset userData in
  serveVoice userId deviceID userData.

Definition callWhisperProxy (request : WhisperRequest) : Prog WhisperResult :=
  match wAuth request with
  | None => Throw (https unauthenticated "User must be authenticated")
  | Some userId =>
      if String.eqb (str_or (audioData request) "") ""
      then Throw (https invalid_argument "audioData is required")
      else if bool_decide (25 * 1024 * 1024 < audioBytes request)
      then Throw (https invalid_argument "Audio file too large (max 25MB)")
      else try_catch (whisperBody userId request) wrapInternal
  end.

Record VerifyRequest : Type := mkVerifyRequest {
  vAuth : option string;         (* request.auth.uid *)
  jwsToken : option string;
}.

Record VerifyResult : Type := mkVerifyResult {
  success : bool;
  isActive : bool;
  expiresAt : Z;
  resTier : string;
}.

(** [new Date(value)]: the time value, or Invalid Date ([None]) when the
    value is missing or beyond 8.64e15 milliseconds either way. *)
Definition newDate (value : option Z) : option Z :=
  value ≫= λ t,
    if bool_decide (-8640000000000000 ≤ t ≤ 8640000000000000) then Some t else None.

(** [Timestamp.fromDate(date)] accepts a date whose seconds, rounded down,
    lie within the years 1 to 9999. *)
Definition storable (t : Z) : bool :=
  bool_decide (-62135596800 ≤ t / 1000 ≤ 253402300799).

(** [verifySubscription]. Decoding the token, choosing the public key and
    [jwtVerify] are the signature verifier's; what follows them is here. The
    payload of [update] is built before [update] is called:
    [Timestamp.fromDate] throws on a date it cannot hold, and [update]
    itself refuses an undefined [productId]; in both cases nothing is
    sent. *)
Definition verifySubscription (lib : Library) (request : VerifyRequest)
  : Prog VerifyResult :=
  match vAuth request with
  | None => Throw (https unauthenticated "User must be authenticated")
  | Some userId =>
      let jwsToken := str_or (jwsToken request) "" in
      if String.eqb jwsToken ""
      then Throw (https invalid_argument "jwsToken is required")
      else
      try_catch
        (let* payload := perform (VerifyReceipt jwsToken) in
         let expiresDate := newDate (expiresDate payload) in
         let* today := perform GetNow in
         let isActive :=
           match expiresDate with
           | Some t => bool_decide (today < t)
           | None => false
           end in
         match expiresDate with
         | None => Throw (EError (timestampError lib None))
         | Some t =>
             if negb (storable t) then Throw (EError (timestampError lib (Some t)))
             else
             match productId payload with
             | None => Throw (EError (undefinedError lib "subscriptionProductId"))
             | Some product =>
                 run perform (UserUpdate
                       {[ "subscriptionTier" :=
                            FSet (VStr (if isActive then "pro" else "free"));
                          "subscriptionExpiresAt" := FSet (VTime t);
                          "subscriptionProductId" := FSet (VStr product);
                          "subscriptionVerifiedAt" := FServerTimestamp ]}) in
                 Ret {| success := true;
                        isActive := isActive;
                        expiresAt := t;
                        resTier := if isActive then "pro" else "free" |}
             end
         end)
        (λ err,
           match err with
           | EHttps e => Throw (https internal (message e))
           | EError msg => Throw (https internal msg)
           end)
  end.

End Index.

(** ** The lifetime-limit generation: photo scans with the device guard *)

Module Part002.

Record VisionRequest : Type := mkVisionRequest {
  auth : option string;
  imageBase64 : option string;
  imageType : option string;
  photoType : option string;
  deviceID : option string;
  customPrompt : option string;
  prompt : option string;
}.

Record VisionResult : Type := mkVisionResult {
  markdown : string;
  resPhotoType : string;
  remainingScans : option Z;
}.

Definition allowedTypes : list string :=
  [ "image/jpeg"; "image/png"; "image/webp"; "image/gif" ]%string.

Definition visionModel : string := "claude-3-5-sonnet-20241022".

(** [callClaudeVision], inside [try { .. }], in the order of the source:
    load or create the record, read tier, limit and counter into constants,
    check the device, then check the limit, call the provider, record the
    usage and answer. *)

Definition loadUserData (deviceID : string) : Prog Doc :=
  let* userDoc := perform UserGet in
  run (match userDoc with
       | Some _ => Ret ()
       | None =>
           perform (UserSet
             {[ "deviceID" := FSet (VStr deviceID);
                "photoScansUsed" := FSet (VNum 0);
                "photoScansLimit" := FSet (VNum 3);
                "lifetimeAPIRequests" := FSet (VNum 0);
                "monthlyTokens" := FSet (VNum 0);
                "subscriptionTier" := FSet (VStr "free");
                "createdAt" := FServerTimestamp ]})
       end) in
  Ret (default {[ "photoScansUsed" := VNum 0;
                  "photoScansLimit" := VNum 3;
                  "subscriptionTier" := VStr "free";
                  "monthlyTokens" := VNum 0 ]} userDoc).

Definition usageUpdate (totalTokens : Z) : Patch :=
  {[ "photoScansUsed" := FIncrement 1;
     "lifetimeAPIRequests" := FIncrement 1;
     "monthlyTokens" := FIncrement totalTokens;
     "lastRequestAt" := FServerTimestamp ]}.

Definition usageLogEntry (userId deviceID photoType : string) (subscriptionTier : Value)
  (inputTokens outputTokens : Z) : Patch :=
  {[ "userId" := FSet (VStr userId);
     "deviceID" := FSet (VStr deviceID);
     "timestamp" := FServerTimestamp;
     "service" := FSet (VStr "claude-vision");
     "model" := FSet (VStr visionModel);
     "photoType" := FSet (VStr photoType);
     "inputTokens" := FSet (VNum inputTokens);
     "outputTokens" := FSet (VNum outputTokens);
     "totalTokens" := FSet (VNum (inputTokens + outputTokens));
     "subscriptionTier" := FSet subscriptionTier ]}.

(** From the limit check on; the record is only seen through the three
    constants read from it before the device check. *)
Definition afterGuard (userId photoType deviceID : string)
  (subscriptionTier photoScansLimit photoScansUsed : Value) : Prog VisionResult :=
  if js_ge photoScansUsed photoScansLimit &&
     strict_eq (Some subscriptionTier) (Some (VStr "free"))
  then
    let msg := "PHOTO_SCANS_LIMIT_REACHED:" +:+ js_to_string (Some photoScansLimit)
                 +:+ ":" +:+ js_to_string (Some subscriptionTier) in
    Throw (EHttps (mkHttpsError resource_exhausted msg
      {[ "limit" := photoScansLimit;
         "tier" := subscriptionTier;
         "message" := VStr msg ]}))
  else
  let* apiKey := perform SecretValue in
  if String.eqb apiKey "" then Throw (https failed_precondition "API key not configured")
  else
  let* response := perform (Fetch visionModel) in
  if negb (ok response)
  then Throw (https internal ("Claude Vision API error: " +:+ statusText response))
  else
  match json response with
  | None => Throw (EError "invalid json response body")
  | Some result =>
      let textBlock := head (filter (λ b, fst b = "text"%string) (content result)) in
      let extractedText := default "" (trim ∘ snd <$> textBlock) in
      if String.eqb extractedText ""
      then Throw (https internal "Claude Vision returned empty response")
      else
      let inputTokens := input_tokens result in
      let outputTokens := output_tokens result in
      let totalTokens := inputTokens + outputTokens in
      run perform (UserUpdate (usageUpdate totalTokens)) in
      run perform (LogAdd (usageLogEntry userId deviceID photoType subscriptionTier
                             inputTokens outputTokens)) in
      Ret {| markdown := extractedText;
             resPhotoType := photoType;
             remainingScans :=
               js_max0_sub (to_number photoScansLimit)
                           (Z.succ <$> to_number photoScansUsed) |}
  end.

Definition visionBody (userId imageBase64 photoType deviceID : string)
  : Prog VisionResult :=
  let* userData := loadUserData deviceID in
  let subscriptionTier := js_or (userData !! "subscriptionTier") (VStr "free") in
  let photoScansLimit :=
    if strict_eq (Some subscriptionTier) (Some (VStr "pro"))
    then VNum 999999
    else js_or (userData !! "photoScansLimit") (VNum 3) in
  let photoScansUsed := js_or (userData !! "photoScansUsed") (VNum 0) in
  run deviceGuard userData deviceID in
  afterGuard userId photoType deviceID subscriptionTier photoScansLimit photoScansUsed.

Definition callClaudeVision (request : VisionRequest) : Prog VisionResult :=
  match auth request with
  | None => Throw (https unauthenticated "User must be authenticated")
  | Some userId =>
      let imageBase64 := str_or (imageBase64 request) "" in
      let imageType := str_or (imageType request) "" in
      let photoType := str_or (photoType request) "" in
      let deviceID := str_or (deviceID request) "" in
      if String.eqb imageBase64 "" || String.eqb imageType "" ||
         String.eqb photoType "" || String.eqb deviceID ""
      then Throw (https invalid_argument
                    "imageBase64, imageType, photoType, deviceID are required")
      else
      let normalizedImageType :=
        let t := toLowerCase imageType in
        if String.eqb t "image/jpg" then "image/jpeg"%string else t in
      if negb (bool_decide (normalizedImageType ∈ allowedTypes))
      then Throw (https invalid_argument
                    ("Unsupported image type: " +:+ normalizedImageType))
      else if Index.tooLarge imageBase64
      then Throw (https invalid_argument
                    ("Image too large: " +:+ Index.sizeFixed2 imageBase64
                       +:+ "MB (max 5MB)"))
      else try_catch (visionBody userId imageBase64 photoType deviceID) wrapInternal
  end.

End Part002.

(** ** The lifetime-limit generation: chat with the device guard *)

Module Part004.

Record ProxyRequest : Type := mkProxyRequest {
  auth : option string;
  deviceID : option string;
  hasTools : bool;               (* !!tools; messages, tools and system are
                                    passed through to the provider *)
}.

Record ProxyResult : Type := mkProxyResult {
  resContent : list (string * string);
  stopReason : string;
  usage : Z * Z;
  remainingRequests : option Z;
}.

Definition proxyModel : string := "claude-3-5-haiku-20241022".

(** [callClaudeProxy], inside [try { .. }]: load or create the record,
    check the device, then check the lifetime limit, call the provider,
    record the statistics and answer. *)

Definition loadUserData (deviceID : string) : Prog Doc :=
  let* userDoc := perform UserGet in
  run (match userDoc with
       | Some _ => Ret ()
       | None =>
           perform (UserSet
             {[ "deviceID" := FSet (VStr deviceID);
                "lifetimeRequests" := FSet (VNum 0);
                "lifetimeLimit" := FSet (VNum 3);
                "monthlyTokens" := FSet (VNum 0);
                "subscriptionTier" := FSet (VStr "free");
                "createdAt" := FServerTimestamp ]})
       end) in
  Ret (default {[ "lifetimeRequests" := VNum 0;
                  "lifetimeLimit" := VNum 3;
                  "subscriptionTier" := VStr "free";
                  "monthlyTokens" := VNum 0 ]} userDoc).

Definition usageUpdate (totalTokens : Z) : Patch :=
  {[ "lifetimeAPIRequests" := FIncrement 1;
     "monthlyTokens" := FIncrement totalTokens;
     "lastRequestAt" := FServerTimestamp ]}.

Definition usageLogEntry (userId deviceID : string) (hasTools : bool) (userData : Doc)
  (result : ApiResult) : Patch :=
  prop "subscriptionTier" FSet (userData !! "subscriptionTier")
  ∪ {[ "userId" := FSet (VStr userId);
       "deviceID" := FSet (VStr deviceID);
       "timestamp" := FServerTimestamp;
       "service" := FSet (VStr "claude");
       "model" := FSet (VStr proxyModel);
       "inputTokens" := FSet (VNum (input_tokens result));
       "outputTokens" := FSet (VNum (output_tokens result));
       "totalTokens" := FSet (VNum (input_tokens result + output_tokens result));
       "hasTools" := FSet (VBool hasTools);
       "stopReason" := FSet (VStr (stop_reason result)) ]}.

(** From the limit check on. *)
Definition afterGuard (userId deviceID : string) (hasTools : bool) (userData : Doc)
  : Prog ProxyResult :=
  let lifetimeLimit :=
    if strict_eq (userData !! "subscriptionTier") (Some (VStr "pro"))
    then VNum 999999
    else js_or (userData !! "lifetimeLimit") (VNum 3) in
  if js_ge (js_or (userData !! "lifetimeRequests") (VNum 0)) lifetimeLimit &&
     strict_eq (userData !! "subscriptionTier") (Some (VStr "free"))
  then
    let msg := "LIFETIME_LIMIT_REACHED:" +:+ js_to_string (Some lifetimeLimit)
                 +:+ ":" +:+ js_to_string (userData !! "subscriptionTier") in
    Throw (EHttps (mkHttpsError resource_exhausted msg
      (prop "tier" id (userData !! "subscriptionTier")
       ∪ {[ "limit" := lifetimeLimit; "message" := VStr msg ]})))
  else
  let* apiKey := perform SecretValue in
  if String.eqb apiKey "" then Throw (https failed_precondition "API key not configured")
  else
  let* response := perform (Fetch proxyModel) in
  if negb (ok response)
  then Throw (https internal ("Claude API error: " +:+ statusText response))
  else
  match json response with
  | None => Throw (EError "invalid json response body")
  | Some result =>
      run perform (UserUpdate
            (usageUpdate (input_tokens result + output_tokens result))) in
      run perform (LogAdd (usageLogEntry userId deviceID hasTools userData result)) in
      let voiceActionsLimit :=
        if strict_eq (userData !! "subscriptionTier") (Some (VStr "pro"))
        then VNum 999999
        else js_or (userData !! "voiceActionsLimit") (VNum 3) in
      let voiceActionsUsed := js_or (userData !! "voiceActionsUsed") (VNum 0) in
      Ret {| resContent := content result;
             stopReason := stop_reason result;
             usage := (input_tokens result, output_tokens result);
             remainingRequests :=
               js_sub (to_number voiceActionsLimit) (to_number voiceActionsUsed) |}
  end.

Definition proxyBody (userId : string) (request : ProxyRequest) : Prog ProxyResult :=
  let deviceID := str_or (deviceID request) "unknown" in
  let* userData := loadUserData deviceID in
  run deviceGuard userData deviceID in
  afterGuard userId deviceID (hasTools request) userData.

Definition callClaudeProxy (request : ProxyRequest) : Prog ProxyResult :=
  match auth request with
  | None => Throw (https unauthenticated "User must be authenticated")
  | Some userId => try_catch (proxyBody userId request) wrapInternal
  end.

End Part004.


(** ** Requests one after the other *)

(** A handler serving a list of requests, each run to its end before the next
    one starts: the answers in order, and the world left behind. *)
Fixpoint run_sequentially {Req A : Type} (env : Env) (handler : Req → Prog A)
  (requests : list Req) (w : World) : list (Exn + A) * World :=
  match requests with
  | [] => ([], w)
  | request :: rest =>
      let '(r, w1) := exec env (handler request) w in
      let '(rs, w2) := run_sequentially env handler rest w1 in
      (r :: rs, w2)
  end.

(** ** [functions/index.js]: the usage summary *)

Module IndexSummary.

Record UsageRequest : Type := mkUsageRequest {
  auth : option string;          (* request.auth.uid *)
  deviceID : option string;      (* request.data?.deviceID *)
}.

(** The object [getUserUsage] returns (lines 660-677). *)
Record UsageSummary : Type := mkUsageSummary {
  voiceActionsUsed : Value;
  voiceActionsLimit : Value;
  remainingVoiceActions : option Z;
  photoScansUsed : Value;
  photoScansLimit : Value;
  remainingPhotoScans : option Z;
  subscriptionTier : Value;
  lifetimeAPIRequests : Value;
  monthlyTokens : Value;
  lastRequestAt : option Value;
  resDeviceID : option Value;    (* deviceID: userData.deviceID *)
}.

(** Lines 621-649: read the record, create it when there is none. The local
    object of a fresh record has seven of the eleven stored fields. *)
Definition loadUserData (deviceID : string) : Prog Doc :=
  let* userDoc := perform UserGet in
  match userDoc with
  | Some userData => Ret userData
  | None =>
      let* monthKey := Index.getMonthKey in
      run perform (UserSet
            {[ "deviceID" := FSet (VStr deviceID);
               "voiceActionsUsed" := FSet (VNum 0);
               "voiceActionsLimit" := FSet (VNum Index.FREE_VOICE_LIMIT);
               "voiceActionsDayKey" := FSet (VStr monthKey);
               "photoScansUsed" := FSet (VNum 0);
               "photoScansLimit" := FSet (VNum Index.FREE_PHOTO_LIMIT);
               "photoScansDayKey" := FSet (VStr monthKey);
               "lifetimeAPIRequests" := FSet (VNum 0);
               "monthlyTokens" := FSet (VNum 0);
               "subscriptionTier" := FSet (VStr "free");
               "createdAt" := FServerTimestamp ]}) in
      Ret ({[ "voiceActionsUsed" := VNum 0;
              "voiceActionsLimit" := VNum Index.FREE_VOICE_LIMIT;
              "voiceActionsDayKey" := VStr monthKey;
              "photoScansUsed" := VNum 0;
              "photoScansLimit" := VNum Index.FREE_PHOTO_LIMIT;
              "photoScansDayKey" := VStr monthKey;
              "subscriptionTier" := VStr "free" ]} : Doc)
  end.

(** Lines 654-677. *)
Definition summary (userData : Doc) : UsageSummary :=
  let voiceActionsLimit :=
    if strict_eq (userData !! "subscriptionTier") (Some (VStr "pro"))
    then VNum 999999
    else js_or (userData !! "voiceActionsLimit") (VNum Index.FREE_VOICE_LIMIT) in
  let photoScansLimit :=
    if strict_eq (userData !! "subscriptionTier") (Some (VStr "pro"))
    then VNum 999999
    else js_or (userData !! "photoScansLimit") (VNum Index.FREE_PHOTO_LIMIT) in
  let voiceActionsUsed := js_or (userData !! "voiceActionsUsed") (VNum 0) in
  let photoScansUsed := js_or (userData !! "photoScansUsed") (VNum 0) in
  {| voiceActionsUsed := voiceActionsUsed;
     voiceActionsLimit := voiceActionsLimit;
     remainingVoiceActions :=
       js_max0_sub (to_number voiceActionsLimit) (to_number voiceActionsUsed);
     photoScansUsed := photoScansUsed;
     photoScansLimit := photoScansLimit;
     remainingPhotoScans :=
       js_max0_sub (to_number photoScansLimit) (to_number photoScansUsed);
     subscriptionTier := js_or (userData !! "subscriptionTier") (VStr "free");
     lifetimeAPIRequests := js_or (userData !! "lifetimeAPIRequests") (VNum 0);
     monthlyTokens := js_or (userData !! "monthlyTokens") (VNum 0);
     lastRequestAt := userData !! "lastRequestAt";
     resDeviceID := userData !! "deviceID" |}.

(** [getUserUsage]: there is no [try] around the body, a rejected await
    leaves the handler as the plain [Error] it is. *)
Definition getUserUsage (request : UsageRequest) : Prog UsageSummary :=
  match auth request with
  | None => Throw (https unauthenticated "User must be authenticated")
  | Some userId =>
      let deviceID := str_or (deviceID request) "unknown" in
      let* userData := loadUserData deviceID in
      let* userData := Index.ensureMonthlyVoiceReset userData in
      let* userData := Index.ensureMonthlyPhotoReset userData in
      Ret (summary userData)
  end.

End IndexSummary.

(** ** The lifetime-limit generation: voice transcription and the summary *)

Module LifetimeVoice.

Record WhisperRequest : Type := mkWhisperRequest {
  auth : option string;          (* request.auth.uid *)
  audioData : option string;
  audioBytes : Z;                (* Buffer.from(audioData, 'base64').length *)
  language : option string;
  deviceID : option string;
}.

Record WhisperResult : Type := mkWhisperResult {
  resText : string;              (* text: result.text *)
  remainingRequests : option Z;
}.

Definition whisperModel : string := "whisper-1".

(** [audioSizeMB.toFixed(1)] for [audioSizeMB = bytes / 1024 / 1024]: the
    division is exact, and [toFixed] rounds the exact value to the nearest
    tenth, the larger one on a tie. *)
Definition toFixed1_MB (bytes : Z) : string :=
  let n := (20 * bytes + 1024 * 1024) / (2 * 1024 * 1024) in
  pretty (n / 10) +:+ "." +:+ pretty (n mod 10).

Definition loadUserData (deviceID : string) : Prog Doc :=
  let* userDoc := perform UserGet in
  run (match userDoc with
       | Some _ => Ret ()
       | None =>
           perform (UserSet
             {[ "deviceID" := FSet (VStr deviceID);
                "voiceActionsUsed" := FSet (VNum 0);
                "voiceActionsLimit" := FSet (VNum 3);
                "lifetimeAPIRequests" := FSet (VNum 0);
                "subscriptionTier" := FSet (VStr "free");
                "createdAt" := FServerTimestamp ]})
       end) in
  Ret (default {[ "voiceActionsUsed" := VNum 0;
                  "voiceActionsLimit" := VNum 3;
                  "lifetimeAPIRequests" := VNum 0;
                  "subscriptionTier" := VStr "free" ]} userDoc).

Definition voiceActionsLimitOf (userData : Doc) : Value :=
  if strict_eq (userData !! "subscriptionTier") (Some (VStr "pro"))
  then VNum 999999
  else js_or (userData !! "voiceActionsLimit") (VNum 3).

Definition voiceActionsUsedOf (userData : Doc) : Value :=
  js_or (userData !! "voiceActionsUsed") (VNum 0).

Definition usageUpdate : Patch :=
  {[ "voiceActionsUsed" := FIncrement 1;
     "lifetimeAPIRequests" := FIncrement 1;
     "lastRequestAt" := FServerTimestamp ]}.

(** The usage-log entry (lines 416-429); the size in megabytes, the
    estimated duration, the cost and the measured duration are
    floating-point measurements and are left out. *)
Definition usageLogEntry (userId deviceID language : string) (audioBytes : Z)
  (userData : Doc) (response : Response) : Patch :=
  prop "subscriptionTier" FSet (userData !! "subscriptionTier")
  ∪ {[ "userId" := FSet (VStr userId);
       "deviceID" := FSet (VStr deviceID);
       "timestamp" := FServerTimestamp;
       "service" := FSet (VStr "whisper");
       "audioSize" := FSet (VNum audioBytes);
       "language" := FSet (VStr language);
       "textLength" := FSet (VNum (Z.of_nat (String.length (text response)))) ]}.

Section Body.

(** [JSON.stringify(error.response.data)], as a function of the body the
    provider sent with its error status. *)
Variable stringify : string → string.

(** From the limit check on (lines 333-437). [axios.post] rejects on a
    status outside 2xx with [error.response] set, and the handler's [catch]
    turns that into the [internal] error thrown here. *)
Definition afterGuard (userId deviceID language : string) (audioBytes : Z)
  (userData : Doc) : Prog WhisperResult :=
  let voiceActionsLimit := voiceActionsLimitOf userData in
  let voiceActionsUsed := voiceActionsUsedOf userData in
  if js_ge voiceActionsUsed voiceActionsLimit &&
     strict_eq (userData !! "subscriptionTier") (Some (VStr "free"))
  then
    let msg := "VOICE_ACTIONS_LIMIT_REACHED:" +:+ js_to_string (Some voiceActionsLimit)
                 +:+ ":" +:+ js_to_string (userData !! "subscriptionTier") in
    Throw (EHttps (mkHttpsError resource_exhausted msg
      (prop "tier" id (userData !! "subscriptionTier")
       ∪ {[ "limit" := voiceActionsLimit; "message" := VStr msg ]})))
  else
  let* apiKey := perform SecretValue in
  if String.eqb apiKey "" then Throw (https failed_precondition "API key not configured")
  else
  let* response := perform (Fetch whisperModel) in
  if negb (ok response)
  then Throw (https internal
         ("Whisper API error: " +:+ pretty (status response) +:+ " - "
            +:+ stringify (text response)))
  else
  run perform (UserUpdate usageUpdate) in
  run perform (LogAdd (usageLogEntry userId deviceID language audioBytes userData response)) in
  Ret {| resText := text response;
         remainingRequests :=
           js_sub (to_number voiceActionsLimit)
                  (Z.succ <$> to_number voiceActionsUsed) |}.

Definition whisperBody (userId : string) (request : WhisperRequest) : Prog WhisperResult :=
  let deviceID := str_or (deviceID request) "unknown" in
  let* userData := loadUserData deviceID in
  run deviceGuard userData deviceID in
  afterGuard userId deviceID (str_or (language request) "auto") (audioBytes request) userData.

Definition callWhisperProxy (request : WhisperRequest) : Prog WhisperResult :=
  match auth request with
  | None => Throw (https unauthenticated "User must be authenticated")
  | Some userId =>
      if String.eqb (str_or (audioData request) "") ""
      then Throw (https invalid_argument "audioData is required")
      else if bool_decide (25 * 1024 * 1024 < audioBytes request)
      then Throw (https invalid_argument
             ("Audio file too large: " +:+ toFixed1_MB (audioBytes request)
                +:+ "MB (max 25MB)"))
      else try_catch (whisperBody userId request) wrapInternal
  end.

End Body.

End LifetimeVoice.

Module LifetimeSummary.

Record UsageRequest : Type := mkUsageRequest {
  auth : option string;
  deviceID : option string;
}.

(** The object the lifetime-limit [getUserUsage] returns, with the aliases
    it keeps for older clients. *)
Record UsageSummary : Type := mkUsageSummary {
  voiceActionsUsed : Value;
  voiceActionsLimit : Value;
  remainingVoiceActions : option Z;
  dailyRequests : Value;
  dailyLimit : Value;
  remainingDaily : option Z;
  lifetimeAPIRequests : Value;
  monthlyTokens : Value;
  monthlyLimit : Z;
  remainingMonthly : option Z;
  subscriptionTier : Value;
  lastRequestAt : option Value;
  resDeviceID : option Value;
}.

Definition loadUserData (deviceID : string) : Prog Doc :=
  let* userDoc := perform UserGet in
  match userDoc with
  | Some userData => Ret userData
  | None =>
      run perform (UserSet
            {[ "deviceID" := FSet (VStr deviceID);
               "voiceActionsUsed" := FSet (VNum 0);
               "voiceActionsLimit" := FSet (VNum 3);
               "lifetimeAPIRequests" := FSet (VNum 0);
               "monthlyTokens" := FSet (VNum 0);
               "subscriptionTier" := FSet (VStr "free");
               "createdAt" := FServerTimestamp ]}) in
      Ret ({[ "voiceActionsUsed" := VNum 0;
              "voiceActionsLimit" := VNum 3;
              "lifetimeAPIRequests" := VNum 0;
              "monthlyTokens" := VNum 0;
              "subscriptionTier" := VStr "free" ]} : Doc)
  end.

Definition summary (userData : Doc) : UsageSummary :=
  let voiceActionsLimit :=
    if strict_eq (userData !! "subscriptionTier") (Some (VStr "pro"))
    then VNum 999999
    else js_or (userData !! "voiceActionsLimit") (VNum 3) in
  let monthlyLimit :=
    if strict_eq (userData !! "subscriptionTier") (Some (VStr "pro"))
    then 10000000 else 100000 in
  let voiceActionsUsed := js_or (userData !! "voiceActionsUsed") (VNum 0) in
  let remaining := js_max0_sub (to_number voiceActionsLimit) (to_number voiceActionsUsed) in
  {| voiceActionsUsed := voiceActionsUsed;
     voiceActionsLimit := voiceActionsLimit;
     remainingVoiceActions := remaining;
     dailyRequests := voiceActionsUsed;
     dailyLimit := voiceActionsLimit;
     remainingDaily := remaining;
     lifetimeAPIRequests := js_or (userData !! "lifetimeAPIRequests") (VNum 0);
     monthlyTokens := js_or (userData !! "monthlyTokens") (VNum 0);
     monthlyLimit := monthlyLimit;
     remainingMonthly :=
       js_max0_sub (Some monthlyLimit)
                   (to_number (js_or (userData !! "monthlyTokens") (VNum 0)));
     subscriptionTier := js_or (userData !! "subscriptionTier") (VStr "free");
     lastRequestAt := userData !! "lastRequestAt";
     resDeviceID := userData !! "deviceID" |}.

Definition getUserUsage (request : UsageRequest) : Prog UsageSummary :=
  match auth request with
  | None => Throw (https unauthenticated "User must be authenticated")
  | Some userId =>
      let deviceID := str_or (deviceID request) "unknown" in
      let* userData := loadUserData deviceID in
      Ret (summary userData)
  end.

End LifetimeSummary.

(** ** Requests one after the other, each in its own environment *)

(** As [run_sequentially], with the month, the clock, the provider and the
    log as they are when each request arrives. *)
Fixpoint run_in_turn {Req A : Type} (handler : Req → Prog A)
  (requests : list (Env * Req)) (w : World) : list (Exn + A) * World :=
  match requests with
  | [] => ([], w)
  | (env, request) :: rest =>
      let '(r, w1) := exec env (handler request) w in
      let '(rs, w2) := run_in_turn handler rest w1 in
      (r :: rs, w2)
  end.

(** ** What a request asks of the provider *)

(** The models a request sends to the provider, in order. *)
Definition fetch_of {X : Type} (e : Eff X) : list string :=
  match e with
  | Fetch model => [model]
  | _ => []
  end.

Fixpoint fetched {A : Type} (env : Env) (p : Prog A) (w : World) : list string :=
  match p with
  | Vis e k => let '(r, w') := handle env e w in fetch_of e ++ fetched env (k r) w'
  | _ => []
  end.

(** ** What a request can ever do *)

(** Every interaction the program can come to satisfies [allowed], whatever
    answers it receives among those [possible]. *)
Fixpoint respects {A : Type} (allowed : ∀ X, Eff X → Prop)
  (possible : ∀ X, Eff X → string + X → Prop) (p : Prog A) : Prop :=
  match p with
  | Vis e k => allowed _ e ∧ ∀ r, possible _ e r → respects allowed possible (k r)
  | _ => True
  end.
(** * Vocabulary of the properties *)

(** The request gets past the checks made before the record is loaded:
    the caller is authenticated as [userId], an image is present, its type is
    on the allow-list and it is not too large. *)
Definition accepted (request : Index.VisionRequest) (userId : string) : Prop :=
  Index.auth request = Some userId ∧
  str_or (Index.imageBase64 request) "" ≠ ""%string ∧
  str_or (Index.imageType request) "image/jpeg" ∈ Index.validTypes ∧
  Index.tooLarge (str_or (Index.imageBase64 request) "") = false.

(** What the fallback loop over the models comes to in an environment: an
    exception, or the loop's final [result], [modelUsed] and
    [lastErrorText]. The loop only talks to the provider, so the world it is
    run in does not matter. *)
Definition loopOutcome (env : Env)
  : Exn + (option (ApiResult * string) * option string) :=
  fst (exec env (Index.tryModels Index.modelFallbacks None) (mkWorld None [] [])).

(** The provider call succeeds, with this result from this model. *)
Definition providerAnswers (env : Env) (result : ApiResult) (modelUsed : string) : Prop :=
  ∃ lastErrorText, loopOutcome env = inr (Some (result, modelUsed), lastErrorText).

(** The provider call fails: the loop throws, or ends without a result. *)
Definition providerFails (env : Env) : Prop :=
  (∃ e, loopOutcome env = inl e) ∨ (∃ lastErrorText, loopOutcome env = inr (None, lastErrorText)).

(** The stored value of a field, [None] when there is no document. *)
Definition stored (w : World) (field : string) : option Value :=
  userDoc w ≫= λ d, d !! field.

(** [callClaudeVision] from the limit check on, for the record as the
    rollover returned it. *)
Definition afterReset (userId : string) (request : Index.VisionRequest)
  (userData : Doc) : Prog Index.VisionResult :=
  run Index.checkPhotoLimit userData in
  let* answer := Index.callProvider in
  Index.recordUsage userId (str_or (Index.deviceID request) "unknown")
    (str_or (Index.photoType request) "note") userData (fst answer) (snd answer).

(** The limit check lets the request through. *)
Definition passesLimit (userData : Doc) : Prop :=
  js_ge (Index.photoScansUsedOf userData) (Index.photoScansLimitOf userData) &&
  strict_eq (userData !! "subscriptionTier") (Some (VStr "free")) = false.


(** The lifetime-limit [callClaudeVision] gets past its argument checks, for
    this caller, image, template and device. *)
Definition acceptedLifetimeVision (request : Part002.VisionRequest)
  (userId imageBase64 photoType deviceID : string) : Prop :=
  Part002.auth request = Some userId ∧
  str_or (Part002.imageBase64 request) "" = imageBase64 ∧ imageBase64 ≠ ""%string ∧
  str_or (Part002.imageType request) "" ≠ ""%string ∧
  str_or (Part002.photoType request) "" = photoType ∧ photoType ≠ ""%string ∧
  str_or (Part002.deviceID request) "" = deviceID ∧ deviceID ≠ ""%string ∧
  (let t := toLowerCase (str_or (Part002.imageType request) "") in
   if String.eqb t "image/jpg" then "image/jpeg"%string else t) ∈ Part002.allowedTypes ∧
  Index.tooLarge imageBase64 = false.

(** The lifetime photo limit lets the record through (lines 351-355 and 374
    of the lifetime-limit [callClaudeVision]). *)
Definition lifetimePhotoAllows (userData : Doc) : Prop :=
  let subscriptionTier := js_or (userData !! "subscriptionTier") (VStr "free") in
  let photoScansLimit :=
    if strict_eq (Some subscriptionTier) (Some (VStr "pro"))
    then VNum 999999
    else js_or (userData !! "photoScansLimit") (VNum 3) in
  let photoScansUsed := js_or (userData !! "photoScansUsed") (VNum 0) in
  js_ge photoScansUsed photoScansLimit &&
  strict_eq (Some subscriptionTier) (Some (VStr "free")) = false.




(** How a request ended: served, or refused for quota. *)
Definition isServed {A : Type} (r : Exn + A) : bool :=
  match r with
  | inr _ => true
  | inl _ => false
  end.

Definition isQuotaRejected {A : Type} (r : Exn + A) : bool :=
  match r with
  | inl (EHttps e) => bool_decide (code e = resource_exhausted)
  | _ => false
  end.

(** A free record on which the photo rollover has nothing left to do. *)
Definition normalisedFree (env : Env) (d : Doc) : Prop :=
  d !! "subscriptionTier" = Some (VStr "free") ∧
  d !! "photoScansDayKey" = Some (VStr (monthKey env)) ∧
  js_or (d !! "photoScansLimit") (VNum 3) = VNum 3.

(** A thread has finished, and was served. *)
Definition finishedServed {A : Type} (t : Thread A) : bool :=
  match outcome t with
  | Some r => isServed r
  | None => false
  end.

(** An exception is a quota rejection. *)
Definition quotaExn (e : Exn) : bool :=
  match e with
  | EHttps h => bool_decide (code h = resource_exhausted)
  | EError _ => false
  end.


(** ** Vocabulary of the fallback loop *)

(** The loop passes over this model and goes on to the next: the provider
    answers with a failure status that is 404 or whose body mentions
    [not_found]; or, for a model that is not the last of the list, the call
    fails or its body does not parse. *)
Definition passedOver (env : Env) (model : string) : bool :=
  match upstream env model with
  | inl _ => negb (String.eqb model (List.last Index.modelFallbacks ""))
  | inr response =>
      if ok response
      then match json response with
           | Some _ => false
           | None => negb (String.eqb model (List.last Index.modelFallbacks ""))
           end
      else (status response =? 404) || includes "not_found" (text response)
  end.

(** The provider answers this model with a result. *)
Definition modelAnswers (env : Env) (model : string) (result : ApiResult) : Prop :=
  ∃ response,
    upstream env model = inr response ∧ ok response = true ∧ json response = Some result.

(** The provider refuses this model with a failure that is not a missing
    model. *)
Definition modelRefuses (env : Env) (model : string) (response : Response) : Prop :=
  upstream env model = inr response ∧ ok response = false ∧
  status response ≠ 404 ∧ includes "not_found" (text response) = false.

(** ** Vocabulary of the rollover *)

(** A record on which the photo rollover has nothing left to do in this
    period: it is [pro], or it carries the current period and a limit that
    reads as the default. *)
Definition photoSettled (env : Env) (d : Doc) : Prop :=
  d !! "subscriptionTier" = Some (VStr "pro") ∨
  (d !! "photoScansDayKey" = Some (VStr (monthKey env)) ∧
   js_or (d !! "photoScansLimit") (VNum Index.FREE_PHOTO_LIMIT) = VNum Index.FREE_PHOTO_LIMIT).

Definition voiceSettled (env : Env) (d : Doc) : Prop :=
  d !! "subscriptionTier" = Some (VStr "pro") ∨
  (d !! "voiceActionsDayKey" = Some (VStr (monthKey env)) ∧
   js_or (d !! "voiceActionsLimit") (VNum Index.FREE_VOICE_LIMIT) = VNum Index.FREE_VOICE_LIMIT).

(** The fields each rollover may write. *)
Definition photoFields : list string :=
  [ "photoScansUsed"; "photoScansDayKey"; "photoScansLimit" ]%string.

Definition voiceFields : list string :=
  [ "voiceActionsUsed"; "voiceActionsDayKey"; "voiceActionsLimit" ]%string.

(** ** Requests in flight together *)

(** A call of one of the three usage callables of [functions/index.js];
    its answer is dropped, what is looked at is the record it leaves. *)
Inductive Call : Type :=
| PhotoCall (request : Index.VisionRequest)
| VoiceCall (request : Index.WhisperRequest)
| UsageCall (request : IndexSummary.UsageRequest).

Definition serve (c : Call) : Prog unit :=
  match c with
  | PhotoCall request => run Index.callClaudeVision request in Ret ()
  | VoiceCall request => run Index.callWhisperProxy request in Ret ()
  | UsageCall request => run IndexSummary.getUserUsage request in Ret ()
  end.

(** The counters and stamps the usage callables maintain. *)
Definition usageFields : list string :=
  photoFields ++ voiceFields ++ [ "lifetimeAPIRequests"; "monthlyTokens"; "lastRequestAt" ]%string.

(** An interaction that leaves every field outside [fields] of an existing
    record alone: it is not a [set], and if it is an [update], its payload
    names fields of [fields] only. *)
Definition sparing (fields : list string) (X : Type) (e : Eff X) : Prop :=
  match e with
  | UserSet _ => False
  | UserUpdate p => ∀ k : string, k ∉ fields → p !! k = None
  | _ => True
  end.

(** What a read of the record answers while the record exists. *)
Definition recordExists (X : Type) (e : Eff X) : string + X → Prop :=
  match e in Eff X return string + X → Prop with
  | UserGet => λ r, ∃ d, r = inr (Some d)
  | _ => λ _, True
  end.

(** The record exists, and outside [fields] it is as [d0] is. *)
Definition keeps (fields : list string) (d0 : Doc) (w : World) : Prop :=
  ∃ d, userDoc w = Some d ∧ ∀ k : string, k ∉ fields → d !! k = d0 !! k.

(** ** Vocabulary of the lifetime-limit generation *)


(** The stored device, when there is one, is a string: the device check
    reads its first characters for the warning. *)
Definition deviceIsText (d : Doc) : Prop :=
  ∀ v, d !! "deviceID" = Some v → ∃ s, v = VStr s.

(** A counter or a limit as the handlers write it: a number, or not there
    yet. The comparisons and sums of the handlers are modelled on
    numbers. *)
Definition isCount (v : option Value) : Prop :=
  v = None ∨ ∃ n, v = Some (VNum n).

(** The photo counter and the photo limit of a record are numbers; so are
    the chat counter and the chat limit. *)
Definition photoCounts (d : Doc) : Prop :=
  isCount (d !! "photoScansUsed") ∧ isCount (d !! "photoScansLimit").



(** A free record of the lifetime-limit generation whose photo limit reads
    as [L] and whose photo counter is the number [u]. *)
Definition lifetimePhotoState (L u : Z) (d : Doc) : Prop :=
  d !! "subscriptionTier" = Some (VStr "free") ∧
  js_or (d !! "photoScansLimit") (VNum 3) = VNum L ∧
  d !! "photoScansUsed" = Some (VNum u).

(** The text the lifetime-limit [callClaudeVision] extracts from an answer:
    the first text block, trimmed. *)
Definition extractedText (result : ApiResult) : string :=
  default ""%string
    (trim ∘ snd <$> head (filter (λ b, fst b = "text"%string) (content result))).

(** The lifetime-limit [callWhisperProxy] gets past its argument checks. *)
Definition acceptedLifetimeVoice (request : LifetimeVoice.WhisperRequest) (userId : string)
  : Prop :=
  LifetimeVoice.auth request = Some userId ∧
  str_or (LifetimeVoice.audioData request) "" ≠ ""%string ∧
  LifetimeVoice.audioBytes request ≤ 25 * 1024 * 1024.

(** The voice limit check of the lifetime-limit generation refuses the
    record (line 333). *)
Definition voiceGateRefuses (userData : Doc) : bool :=
  js_ge (LifetimeVoice.voiceActionsUsedOf userData)
        (LifetimeVoice.voiceActionsLimitOf userData) &&
  strict_eq (userData !! "subscriptionTier") (Some (VStr "free")).
(** * Sample records and environments

    Concrete inputs on which the properties below are exercised. *)

Definition sample_result : ApiResult :=
  mkApiResult [("text", "# Shopping list")%string] "end_turn" 120 45.

Definition ok_response : Response :=
  mkResponse true 200 "OK" "" (Some sample_result).

Definition error_response : Response :=
  mkResponse false 500 "Internal Server Error" "overloaded" None.

Definition sample_payload (expires : Z) : ReceiptPayload :=
  mkReceiptPayload (Some expires) (Some "notae.pro.monthly").

(** Stand-ins for the texts of the client library. *)
Definition sample_library : Library :=
  mkLibrary
    (λ date,
       match date with
       | None => "Value for argument seconds is not a valid integer."
       | Some _ => "Value for argument seconds must be within [-62135596800, 253402300799] inclusive."
       end)
    (λ field, "Cannot use undefined as a Firestore value (found in field " +:+ field +:+ ").").

(** June 2025; the provider answers; the log accepts; receipts expire at
    [expires]. *)
Definition answering_env (expires : Z) : Env :=
  mkEnv "2025-06" 1000 "sk-key" (λ _, inr ok_response) None
        (λ _, inr (sample_payload expires)).

(** As [answering_env], with receipts that carry no expiry. *)
Definition undated_receipt_env : Env :=
  mkEnv "2025-06" 1000 "sk-key" (λ _, inr ok_response) None
        (λ _, inr (mkReceiptPayload None (Some "notae.pro.monthly"))).

(** The provider answers every model with a 500. *)
Definition failing_env : Env :=
  mkEnv "2025-06" 1000 "sk-key" (λ _, inr error_response) None (λ _, inl "no key").

(** The provider answers, the usage-log write is rejected. *)
Definition log_fault_env : Env :=
  mkEnv "2025-06" 1000 "sk-key" (λ _, inr ok_response)
        (Some "usage_logs unavailable") (λ _, inl "no key").

Definition quiet_env : Env :=
  mkEnv "2025-06" 1000 "sk-key" (λ _, inl "unreachable") None (λ _, inl "no key").

(** A free record in the period [key], with [used] photo scans out of 3. *)
Definition free_record (key : string) (used : Z) : Doc :=
  {[ "deviceID" := VStr "device-A";
     "subscriptionTier" := VStr "free";
     "photoScansUsed" := VNum used;
     "photoScansLimit" := VNum 3;
     "photoScansDayKey" := VStr key;
     "lifetimeAPIRequests" := VNum 11;
     "monthlyTokens" := VNum 900 ]}.

Definition world_of (d : Doc) : World := mkWorld (Some d) [] [].

Definition pro_stale_doc : Doc :=
  {[ "subscriptionTier" := VStr "pro";
     "voiceActionsUsed" := VNum 9; "voiceActionsLimit" := VNum 5;
     "voiceActionsDayKey" := VStr "2024-01";
     "photoScansUsed" := VNum 4; "photoScansLimit" := VNum 10;
     "photoScansDayKey" := VStr "2024-01" ]}.

(** A free record of the current period whose voice limit is [limit]. *)
Definition voice_record (limit : Z) : Doc :=
  {[ "subscriptionTier" := VStr "free";
     "voiceActionsUsed" := VNum 2;
     "voiceActionsLimit" := VNum limit;
     "voiceActionsDayKey" := VStr "2025-06" ]}.

Definition photo_request : Index.VisionRequest :=
  Index.mkVisionRequest (Some "user-1") (Some "aGVsbG8=") (Some "image/png")
    None (Some "note") (Some "device-A").

Definition lifetime_photo_request : Part002.VisionRequest :=
  Part002.mkVisionRequest (Some "user-1") (Some "aGVsbG8=") (Some "image/JPG")
    (Some "receipt") (Some "device-B") None None.

Definition chat_request : Part004.ProxyRequest :=
  Part004.mkProxyRequest (Some "user-1") (Some "device-B") false.

Definition verify_request : Index.VerifyRequest :=
  Index.mkVerifyRequest (Some "user-1") (Some "eyJhbGciOiJFUzI1NiJ9.e30.c2ln").

(** Two requests in flight against the same record, each taking one step in
    turn. *)
Definition racing_threads : list (Thread Index.VisionResult) :=
  [ mkThread (answering_env 0) (Index.callClaudeVision photo_request);
    mkThread (answering_env 0) (Index.callClaudeVision photo_request) ].

Definition race_schedule : list nat :=
  [0; 1; 0; 1; 0; 1; 0; 1; 0; 1; 0; 1]%nat.

(** A [pro] record whose photo counter is far above its stored limit. *)
Definition pro_record : Doc :=
  {[ "deviceID" := VStr "device-A";
     "subscriptionTier" := VStr "pro";
     "photoScansUsed" := VNum 12;
     "photoScansLimit" := VNum 3;
     "photoScansDayKey" := VStr "2025-06" ]}.

(** A free record that has used 9 voice actions of 7 in the current period. *)
Definition voice_over_limit : Doc :=
  {[ "subscriptionTier" := VStr "free";
     "voiceActionsUsed" := VNum 9;
     "voiceActionsLimit" := VNum 7;
     "voiceActionsDayKey" := VStr "2025-06" ]}.

Definition voice_request : Index.WhisperRequest :=
  Index.mkWhisperRequest (Some "user-1") (Some "AAAA") 3 None (Some "device-A").


(** The provider no longer knows a model. *)
Definition missing_response : Response :=
  mkResponse false 404 "Not Found" "model: not_found_error" None.

(** The newest model cannot be reached, the next one is retired, the third
    answers. *)
Definition fallback_env : Env :=
  mkEnv "2025-06" 1000 "sk-key"
        (λ model,
           if String.eqb model "claude-sonnet-4-5-20250929" then inl "socket hang up"
           else if String.eqb model "claude-sonnet-4-20250514" then inr missing_response
           else inr ok_response)
        None (λ _, inl "no key").

(** The newest model is retired, every other one is overloaded. *)
Definition refusing_env : Env :=
  mkEnv "2025-06" 1000 "sk-key"
        (λ model,
           if String.eqb model "claude-sonnet-4-5-20250929" then inr missing_response
           else inr error_response)
        None (λ _, inl "no key").

(** Every model of the list is retired. *)
Definition retired_env : Env :=
  mkEnv "2025-06" 1000 "sk-key" (λ _, inr missing_response) None (λ _, inl "no key").

Definition usage_request : IndexSummary.UsageRequest :=
  IndexSummary.mkUsageRequest (Some "user-1") (Some "device-A").

(** A world in which the caller has no record yet. *)
Definition no_record : World := mkWorld None [] [].


(** Three requests of three kinds in flight together, in three different
    environments, and an order in which they take their steps. *)
Definition mixed_pool : list (Env * Call) :=
  [ (answering_env 0, PhotoCall photo_request);
    (failing_env, VoiceCall voice_request);
    (quiet_env, UsageCall usage_request) ].

Definition mixed_schedule : list nat :=
  [0; 1; 2; 1; 0; 2; 0; 1; 0; 0; 2; 1; 1; 2; 0; 0; 1; 0]%nat.

(** A record of the lifetime-limit generation: 1 chat request counted out of
    3, 2 photo scans out of 3, 3 voice actions out of 3. *)
Definition lifetime_record : Doc :=
  {[ "deviceID" := VStr "device-A";
     "subscriptionTier" := VStr "free";
     "lifetimeRequests" := VNum 1;
     "lifetimeLimit" := VNum 3;
     "photoScansUsed" := VNum 2;
     "photoScansLimit" := VNum 3;
     "voiceActionsUsed" := VNum 3;
     "voiceActionsLimit" := VNum 3;
     "lifetimeAPIRequests" := VNum 40;
     "monthlyTokens" := VNum 5000 ]}.

(** A month later; the provider answers. *)
Definition next_month_env : Env :=
  mkEnv "2025-07" 2000 "sk-key" (λ _, inr ok_response) None (λ _, inl "no key").

(** A string from its UTF-8 bytes. *)
Definition utf8 (bytes : list nat) : string :=
  String.string_of_list_ascii (List.map Ascii.ascii_of_nat bytes).

(** The provider answers with blank text only: a no-break space (U+00A0), a
    line separator (U+2028), a byte order mark (U+FEFF) and a space. *)
Definition blank_result : ApiResult :=
  mkApiResult [("text"%string, utf8 [194; 160; 226; 128; 168; 239; 187; 191; 32]%nat)]
    "end_turn" 100 1.

Definition blank_env : Env :=
  mkEnv "2025-06" 1000 "sk-key"
        (λ _, inr (mkResponse true 200 "OK" "" (Some blank_result)))
        None (λ _, inl "no key").

(** A record of the lifetime-limit generation whose photo allowance is
    spent. *)
Definition spent_record : Doc :=
  {[ "deviceID" := VStr "device-A";
     "subscriptionTier" := VStr "free";
     "photoScansUsed" := VNum 3;
     "photoScansLimit" := VNum 3;
     "voiceActionsUsed" := VNum 3;
     "voiceActionsLimit" := VNum 3;
     "lifetimeAPIRequests" := VNum 6 ]}.

Definition lifetime_voice_request : LifetimeVoice.WhisperRequest :=
  LifetimeVoice.mkWhisperRequest (Some "user-1") (Some "AAAA") 3 None (Some "device-A").



(** * Properties *)

(** ** The interpreters *)

Lemma lookup_apply_patch (t : Z) (p : Patch) (d : Doc) (k : string) :
  apply_patch t p d !! k = apply_op t (p !! k) (d !! k).
Proof.
  unfold apply_patch. rewrite lookup_merge.
  destruct (p !! k), (d !! k); reflexivity.
Qed.

Lemma exec_bind {A B : Type} (env : Env) (p : Prog A) (f : A → Prog B) (w : World) :
  exec env (bind p f) w =
  match exec env p w with
  | (inl e, w') => (inl e, w')
  | (inr a, w') => exec env (f a) w'
  end.
Proof.
  revert w. induction p as [a | e | X e k IH]; intros w; simpl; try reflexivity.
  destruct (handle env e w) as [r w']. apply IH.
Qed.

Lemma exec_try_catch {A : Type} (env : Env) (p : Prog A) (h : Exn → Prog A) (w : World) :
  exec env (try_catch p h) w =
  match exec env p w with
  | (inl e, w') => exec env (h e) w'
  | (inr a, w') => (inr a, w')
  end.
Proof.
  revert w. induction p as [a | e | X e k IH]; intros w; simpl; try reflexivity.
  destruct (handle env e w) as [r w']. apply IH.
Qed.

Lemma writes_bind {A B : Type} (env : Env) (p : Prog A) (f : A → Prog B) (w : World) :
  writes env (bind p f) w =
  writes env p w ++
  match exec env p w with
  | (inl _, _) => []
  | (inr a, w') => writes env (f a) w'
  end.
Proof.
  revert w. induction p as [a | e | X e k IH]; intros w; simpl; try reflexivity.
  destruct (handle env e w) as [r w']. rewrite IH, app_assoc. reflexivity.
Qed.

Lemma exec_getMonthKey (env : Env) (w : World) :
  exec env Index.getMonthKey w = (inr (monthKey env), w).
Proof. reflexivity. Qed.

Lemma exec_update (env : Env) (p : Patch) (w : World) (d : Doc) :
  userDoc w = Some d →
  exec env (perform (UserUpdate p)) w =
  (inr (), mkWorld (Some (apply_patch (now env) p d)) (usageLogs w) (warnings w)).
Proof. intros Hd. simpl. rewrite Hd. reflexivity. Qed.

(** ** The two readings agree *)

(** A thread that takes all its steps with nothing in between ends as [exec]
    says: [exec] is the schedule in which a request is not interrupted. *)
Lemma thread_alone_is_exec {A : Type} (env : Env) (p : Prog A) :
  ∀ (ts : list (Thread A)) (i : nat) (w : World),
    ts !! i = Some (mkThread env p) →
    ∃ (n : nat) (t' : Thread A),
      run_schedule (replicate n i) ts w = (<[i := t']> ts, snd (exec env p w)) ∧
      outcome t' = Some (fst (exec env p w)).
Proof.
  induction p as [a | e | X e k IH]; intros ts i w Hi.
  - exists 0%nat, (mkThread env (Ret a)). split; [|reflexivity].
    simpl. rewrite list_insert_id by done. reflexivity.
  - exists 0%nat, (mkThread env (Throw e)). split; [|reflexivity].
    simpl. rewrite list_insert_id by done. reflexivity.
  - cbn [exec]. destruct (handle env e w) as [r w1] eqn:Hh.
    destruct (IH r (<[i := mkThread env (k r)]> ts) i w1) as (n & t' & Hrun & Hout).
    { apply list_lookup_insert_eq. eapply lookup_lt_Some, Hi. }
    exists (S n), t'. split; [|exact Hout].
    cbn [replicate run_schedule]. rewrite Hi.
    unfold step_thread. cbn [thProg thEnv]. rewrite Hh.
    rewrite Hrun, list_insert_insert_eq. reflexivity.
Qed.

(** ** Period normalisation *)

Lemma strict_ne_same (a : option Value) : strict_ne a a = false.
Proof. unfold strict_ne, strict_eq. rewrite bool_decide_eq_true_2; done. Qed.

Lemma strict_ne_true (a b : option Value) : a ≠ b → strict_ne a b = true.
Proof. intros H. unfold strict_ne, strict_eq. rewrite bool_decide_eq_false_2; done. Qed.

Lemma strict_eq_true (a b : option Value) : a = b → strict_eq a b = true.
Proof. intros H. unfold strict_eq. rewrite bool_decide_eq_true_2; done. Qed.

Lemma strict_eq_false (a b : option Value) : a ≠ b → strict_eq a b = false.
Proof. intros H. unfold strict_eq. rewrite bool_decide_eq_false_2; done. Qed.

(** The tier the rollover helpers compute is [pro] exactly for a record whose
    tier field is [pro]. *)
Lemma tier_or_free_pro (d : Doc) :
  js_or (d !! "subscriptionTier") (VStr "free") = VStr "pro" ↔
  d !! "subscriptionTier" = Some (VStr "pro").
Proof.
  unfold js_or. split.
  - destruct (d !! "subscriptionTier") as [v|] eqn:E; [|discriminate].
    destruct (truthy (Some v)); [congruence | discriminate].
  - intros ->. reflexivity.
Qed.

Lemma ensure_pro_is_identity (env : Env) (w : World) (d : Doc) :
  d !! "subscriptionTier" = Some (VStr "pro") →
  exec env (Index.ensureMonthlyVoiceReset d) w = (inr d, w) ∧
  writes env (Index.ensureMonthlyVoiceReset d) w = [] ∧
  exec env (Index.ensureMonthlyPhotoReset d) w = (inr d, w) ∧
  writes env (Index.ensureMonthlyPhotoReset d) w = [].
Proof.
  intros Ht.
  unfold Index.ensureMonthlyVoiceReset, Index.ensureMonthlyPhotoReset.
  rewrite !exec_bind, !writes_bind, !exec_getMonthKey. cbv beta iota.
  rewrite Ht. simpl. done.
Qed.

(** C10. For a record whose tier is [pro], neither monthly-reset helper
    attempts a write: the stored document, hence its used counter, limit and
    period key, and the returned data are what they were, whatever the stored
    period key.  A reset or a limit migration therefore needs a tier other
    than [pro]. *)
Theorem pro_record_is_never_normalised (env : Env) (w : World) (d : Doc) :
  d !! "subscriptionTier" = Some (VStr "pro") →
  (exec env (Index.ensureMonthlyVoiceReset d) w = (inr d, w) ∧
   writes env (Index.ensureMonthlyVoiceReset d) w = []) ∧
  (exec env (Index.ensureMonthlyPhotoReset d) w = (inr d, w) ∧
   writes env (Index.ensureMonthlyPhotoReset d) w = []).
Proof.
  intros Ht. destruct (ensure_pro_is_identity env w d Ht) as (H1 & H2 & H3 & H4).
  auto.
Qed.

Lemma pro_record_is_never_normalised_witness :
  (exec quiet_env (Index.ensureMonthlyVoiceReset pro_stale_doc)
       (mkWorld (Some pro_stale_doc) [] []) =
    (inr pro_stale_doc, mkWorld (Some pro_stale_doc) [] []) ∧
  writes quiet_env (Index.ensureMonthlyVoiceReset pro_stale_doc)
       (mkWorld (Some pro_stale_doc) [] []) = []) ∧
  (exec quiet_env (Index.ensureMonthlyPhotoReset pro_stale_doc)
       (mkWorld (Some pro_stale_doc) [] []) =
    (inr pro_stale_doc, mkWorld (Some pro_stale_doc) [] []) ∧
  writes quiet_env (Index.ensureMonthlyPhotoReset pro_stale_doc)
       (mkWorld (Some pro_stale_doc) [] []) = []).
Proof.
  apply (pro_record_is_never_normalised quiet_env
           (mkWorld (Some pro_stale_doc) [] []) pro_stale_doc).
  reflexivity.
Defined.
(** ** Limit migration *)

(** C6, as amended. For a record that is not [pro] and whose stored voice
    limit is a truthy value (so not 0) other than the current default, the
    period normalisation writes the default as the stored limit, also when
    the stored period key is already the current one; in that case the
    period key stays and the counter is rewritten with the value it reads as
    ([userData.voiceActionsUsed || 0]). *)
Theorem truthy_limit_is_migrated (env : Env) (w : World) (d : Doc) (v : Value) :
  userDoc w = Some d →
  d !! "subscriptionTier" ≠ Some (VStr "pro") →
  d !! "voiceActionsLimit" = Some v →
  truthy (Some v) = true →
  v ≠ VNum Index.FREE_VOICE_LIMIT →
  ∃ userData' d',
    exec env (Index.ensureMonthlyVoiceReset d) w =
      (inr userData', mkWorld (Some d') (usageLogs w) (warnings w)) ∧
    d' !! "voiceActionsLimit" = Some (VNum Index.FREE_VOICE_LIMIT) ∧
    userData' !! "voiceActionsLimit" = Some (VNum Index.FREE_VOICE_LIMIT) ∧
    (d !! "voiceActionsDayKey" = Some (VStr (monthKey env)) →
     d' !! "voiceActionsDayKey" = Some (VStr (monthKey env)) ∧
     d' !! "voiceActionsUsed" = Some (js_or (d !! "voiceActionsUsed") (VNum 0))).
Proof.
  intros Hw Ht Hl Hv Hne.
  unfold Index.ensureMonthlyVoiceReset.
  rewrite exec_bind, exec_getMonthKey. cbv beta iota.
  assert (Hpro : strict_ne (Some (js_or (d !! "subscriptionTier") (VStr "free")))
                   (Some (VStr "pro")) = true).
  { apply strict_ne_true. intros [= E]. apply Ht, tier_or_free_pro, E. }
  assert (Hfix : strict_ne (Some (js_or (d !! "voiceActionsLimit") (VNum Index.FREE_VOICE_LIMIT)))
                   (Some (VNum Index.FREE_VOICE_LIMIT)) = true).
  { apply strict_ne_true. rewrite Hl. unfold js_or. rewrite Hv. congruence. }
  rewrite Hpro, Hfix. rewrite orb_true_r. cbv beta iota.
  rewrite exec_bind, (exec_update _ _ _ _ Hw). cbv beta iota. simpl exec.
  eexists _, _. split; [reflexivity|].
  split; [|split].
  - rewrite lookup_apply_patch. reflexivity.
  - simpl. simplify_map_eq. done.
  - intros Hk. rewrite !lookup_apply_patch. rewrite Hk, strict_ne_same. simpl.
    split; reflexivity.
Qed.

Lemma truthy_limit_is_migrated_witness :
  ∃ userData' d',
    exec quiet_env (Index.ensureMonthlyVoiceReset (voice_record 5))
         (world_of (voice_record 5)) =
      (inr userData', mkWorld (Some d') (usageLogs (world_of (voice_record 5)))
                        (warnings (world_of (voice_record 5)))) ∧
    d' !! "voiceActionsLimit" = Some (VNum Index.FREE_VOICE_LIMIT) ∧
    userData' !! "voiceActionsLimit" = Some (VNum Index.FREE_VOICE_LIMIT) ∧
    d' !! "voiceActionsDayKey" = Some (VStr (monthKey quiet_env)) ∧
    d' !! "voiceActionsUsed" =
      Some (js_or (voice_record 5 !! "voiceActionsUsed") (VNum 0)).
Proof.
  destruct (truthy_limit_is_migrated quiet_env (world_of (voice_record 5))
              (voice_record 5) (VNum 5)) as (userData' & d' & Hex & Hl & Hl' & Hkeep).
  - reflexivity.
  - vm_compute. discriminate.
  - reflexivity.
  - reflexivity.
  - vm_compute. discriminate.
  - exists userData', d'. split; [exact Hex|]. split; [exact Hl|]. split; [exact Hl'|].
    apply Hkeep. reflexivity.
Defined.

(** A stored limit of 0 differs from the default 7 and is left as it is:
    [0 || FREE_VOICE_LIMIT] is the default, so no migration is found to be
    needed, and with the period current nothing is written. *)
Lemma zero_limit_is_not_migrated :
  voice_record 0 !! "subscriptionTier" ≠ Some (VStr "pro") ∧
  voice_record 0 !! "voiceActionsLimit" = Some (VNum 0) ∧
  VNum 0 ≠ VNum Index.FREE_VOICE_LIMIT ∧
  voice_record 0 !! "voiceActionsDayKey" = Some (VStr (monthKey quiet_env)) ∧
  exec quiet_env (Index.ensureMonthlyVoiceReset (voice_record 0))
       (world_of (voice_record 0)) =
    (inr (voice_record 0), world_of (voice_record 0)) ∧
  writes quiet_env (Index.ensureMonthlyVoiceReset (voice_record 0))
       (world_of (voice_record 0)) = [] ∧
  stored (snd (exec quiet_env (Index.ensureMonthlyVoiceReset (voice_record 0))
                 (world_of (voice_record 0)))) "voiceActionsLimit"
    ≠ Some (VNum Index.FREE_VOICE_LIMIT).
Proof.
  repeat split; try reflexivity; try discriminate.
Qed.

(** The photo limit is migrated in the same way. *)
Lemma truthy_photo_limit_is_migrated (env : Env) (w : World) (d : Doc) (v : Value) :
  userDoc w = Some d →
  d !! "subscriptionTier" ≠ Some (VStr "pro") →
  d !! "photoScansLimit" = Some v →
  truthy (Some v) = true →
  v ≠ VNum Index.FREE_PHOTO_LIMIT →
  ∃ userData' d',
    exec env (Index.ensureMonthlyPhotoReset d) w =
      (inr userData', mkWorld (Some d') (usageLogs w) (warnings w)) ∧
    d' !! "photoScansLimit" = Some (VNum Index.FREE_PHOTO_LIMIT) ∧
    userData' !! "photoScansLimit" = Some (VNum Index.FREE_PHOTO_LIMIT).
Proof.
  intros Hw Ht Hl Hv Hne.
  unfold Index.ensureMonthlyPhotoReset.
  rewrite exec_bind, exec_getMonthKey. cbv beta iota.
  assert (Hpro : strict_ne (Some (js_or (d !! "subscriptionTier") (VStr "free")))
                   (Some (VStr "pro")) = true).
  { apply strict_ne_true. intros [= E]. apply Ht, tier_or_free_pro, E. }
  assert (Hfix : strict_ne (Some (js_or (d !! "photoScansLimit") (VNum Index.FREE_PHOTO_LIMIT)))
                   (Some (VNum Index.FREE_PHOTO_LIMIT)) = true).
  { apply strict_ne_true. rewrite Hl. unfold js_or. rewrite Hv. congruence. }
  rewrite Hpro, Hfix. rewrite orb_true_r. cbv beta iota.
  rewrite exec_bind, (exec_update _ _ _ _ Hw). cbv beta iota. simpl exec.
  eexists _, _. split; [reflexivity|]. split.
  - rewrite lookup_apply_patch. reflexivity.
  - simpl. simplify_map_eq. done.
Qed.

(** ** The photo-scan handler, stage by stage *)

Lemma exec_tryModel_world (env : Env) (model : string) (l : option string) (w w0 : World) :
  exec env (Index.tryModel model l) w = (fst (exec env (Index.tryModel model l) w0), w).
Proof.
  unfold Index.tryModel. rewrite !exec_try_catch, !exec_bind. simpl.
  destruct (upstream env model) as [msg | response]; simpl.
  - destruct (String.eqb model _); reflexivity.
  - destruct (negb (ok response)).
    + destruct (_ || _); reflexivity.
    + destruct (json response); simpl; [reflexivity|].
      destruct (String.eqb model _); reflexivity.
Qed.

Lemma exec_tryModels_world (env : Env) (models : list string) (l : option string)
  (w w0 : World) :
  exec env (Index.tryModels models l) w = (fst (exec env (Index.tryModels models l) w0), w).
Proof.
  revert l. induction models as [| model rest IH]; intros l; [reflexivity|].
  cbn [Index.tryModels]. rewrite !exec_bind.
  rewrite (exec_tryModel_world env model l w w0).
  rewrite (exec_tryModel_world env model l w0 w0).
  destruct (fst (exec env (Index.tryModel model l) w0)) as [e | [result m | l']]; simpl;
    [reflexivity | reflexivity | apply IH].
Qed.

Lemma exec_tryModels (env : Env) (w : World) :
  exec env (Index.tryModels Index.modelFallbacks None) w = (loopOutcome env, w).
Proof. apply exec_tryModels_world. Qed.

Lemma tryModel_throws_internal (env : Env) (model : string) (l : option string)
  (w : World) (e : Exn) :
  fst (exec env (Index.tryModel model l) w) = inl e → ∃ msg, e = https internal msg.
Proof.
  unfold Index.tryModel. rewrite !exec_try_catch, !exec_bind. simpl.
  destruct (upstream env model) as [msg | response]; simpl.
  - destruct (String.eqb model _); simpl; [|discriminate].
    intros [= <-]. eauto.
  - destruct (negb (ok response)).
    + destruct (_ || _); simpl; [discriminate|]. intros [= <-]. eauto.
    + destruct (json response); simpl; [discriminate|].
      destruct (String.eqb model _); simpl; [|discriminate]. intros [= <-]. eauto.
Qed.

Lemma tryModels_throws_internal (env : Env) (models : list string) (l : option string)
  (w : World) (e : Exn) :
  fst (exec env (Index.tryModels models l) w) = inl e → ∃ msg, e = https internal msg.
Proof.
  revert l. induction models as [| model rest IH]; intros l; [discriminate|].
  cbn [Index.tryModels]. rewrite exec_bind.
  rewrite (exec_tryModel_world env model l w w).
  destruct (fst (exec env (Index.tryModel model l) w)) as [e' | [result m | l']] eqn:E; simpl.
  - intros [= <-]. eapply tryModel_throws_internal, E.
  - discriminate.
  - apply IH.
Qed.

Lemma exec_secret (env : Env) (w : World) :
  exec env (perform SecretValue) w = (inr (secret env), w).
Proof. reflexivity. Qed.

Lemma exec_callProvider_no_key (env : Env) (w : World) :
  secret env = ""%string →
  exec env Index.callProvider w =
  (inl (https failed_precondition "API key not configured"), w).
Proof. intros Hk. unfold Index.callProvider. rewrite exec_bind. simpl. rewrite Hk. reflexivity. Qed.

Lemma exec_callProvider_answers (env : Env) (w : World) (result : ApiResult) (m : string) :
  secret env ≠ ""%string → providerAnswers env result m →
  exec env Index.callProvider w = (inr (result, m), w).
Proof.
  intros Hk [l Hl]. unfold Index.callProvider. rewrite exec_bind, exec_secret.
  cbv beta iota. apply String.eqb_neq in Hk. rewrite Hk.
  rewrite exec_bind, exec_tryModels, Hl. reflexivity.
Qed.

Lemma exec_callProvider_fails (env : Env) (w : World) :
  secret env ≠ ""%string → providerFails env →
  ∃ msg, exec env Index.callProvider w = (inl (https internal msg), w).
Proof.
  intros Hk Hf. unfold Index.callProvider. rewrite exec_bind, exec_secret.
  cbv beta iota. apply String.eqb_neq in Hk. rewrite Hk.
  rewrite exec_bind, exec_tryModels.
  destruct Hf as [[e He] | [l Hl]].
  - rewrite He. destruct (tryModels_throws_internal env Index.modelFallbacks None
      (mkWorld None [] []) e He) as [msg ->]. eauto.
  - rewrite Hl. simpl. eauto.
Qed.

Lemma exec_loadUserData (env : Env) (w : World) (d : Doc) (deviceID : string) :
  userDoc w = Some d → exec env (Index.loadUserData deviceID) w = (inr d, w).
Proof. intros Hd. unfold Index.loadUserData. rewrite exec_bind. simpl. rewrite Hd. reflexivity. Qed.

Lemma callClaudeVision_accepted (request : Index.VisionRequest) (userId : string) :
  accepted request userId →
  Index.callClaudeVision request = try_catch (Index.visionBody userId request) wrapInternal.
Proof.
  intros (Ha & Hi & Ht & Hs). unfold Index.callClaudeVision. rewrite Ha.
  apply String.eqb_neq in Hi. rewrite Hi.
  rewrite (bool_decide_eq_true_2 _ Ht). simpl. rewrite Hs. reflexivity.
Qed.
(** ** The rollover on a record that is not [pro] *)

Lemma photo_patch_applied (t : Z) (b : bool) (used : Value) (mk : string) (d : Doc) :
  apply_patch t
    (spread_if b {[ "photoScansLimit" := FSet (VNum Index.FREE_PHOTO_LIMIT) ]}
     ∪ {[ "photoScansUsed" := FSet used; "photoScansDayKey" := FSet (VStr mk) ]}) d =
  (if b then <[ "photoScansLimit" := VNum Index.FREE_PHOTO_LIMIT ]>
           (<[ "photoScansDayKey" := VStr mk ]> (<[ "photoScansUsed" := used ]> d))
   else <[ "photoScansDayKey" := VStr mk ]> (<[ "photoScansUsed" := used ]> d)).
Proof.
  apply map_eq. intros k. rewrite lookup_apply_patch.
  destruct (decide (k = "photoScansLimit"%string)) as [-> | Hl];
    [destruct b; simplify_map_eq; done |].
  destruct (decide (k = "photoScansDayKey"%string)) as [-> | Hk];
    [destruct b; simplify_map_eq; done |].
  destruct (decide (k = "photoScansUsed"%string)) as [-> | Hu];
    [destruct b; simplify_map_eq; done |].
  destruct b; simpl; rewrite ?lookup_union; simplify_map_eq; done.
Qed.

Lemma js_or_idem (a : option Value) (n : Z) :
  js_or (Some (js_or a (VNum n))) (VNum n) = js_or a (VNum n).
Proof.
  unfold js_or. destruct a as [v|].
  - destruct (truthy (Some v)) eqn:E.
    + rewrite E. reflexivity.
    + destruct (truthy (Some (VNum n))); reflexivity.
  - destruct (truthy (Some (VNum n))); reflexivity.
Qed.

(** What the photo rollover does to a record that is not [pro]: the stored
    document and the returned data coincide, carry the current period and the
    default limit, and differ from the input on those three fields only. *)
Lemma exec_ensurePhoto_nonpro (env : Env) (w : World) (d : Doc) :
  userDoc w = Some d →
  d !! "subscriptionTier" ≠ Some (VStr "pro") →
  ∃ d',
    exec env (Index.ensureMonthlyPhotoReset d) w =
      (inr d', mkWorld (Some d') (usageLogs w) (warnings w)) ∧
    d' !! "photoScansDayKey" = Some (VStr (monthKey env)) ∧
    js_or (d' !! "photoScansLimit") (VNum 3) = VNum 3 ∧
    (∀ k : string, k ≠ "photoScansUsed"%string → k ≠ "photoScansDayKey"%string →
         k ≠ "photoScansLimit"%string → d' !! k = d !! k) ∧
    Index.photoScansUsedOf d' =
      (if strict_ne (d !! "photoScansDayKey") (Some (VStr (monthKey env)))
       then VNum 0 else Index.photoScansUsedOf d) ∧
    (d !! "photoScansDayKey" = Some (VStr (monthKey env)) →
     truthy (d !! "photoScansUsed") = true →
     d' !! "photoScansUsed" = d !! "photoScansUsed") ∧
    (d !! "photoScansDayKey" ≠ Some (VStr (monthKey env)) →
     d' !! "photoScansUsed" = Some (VNum 0)).
Proof.
  intros Hw Ht.
  unfold Index.ensureMonthlyPhotoReset.
  rewrite exec_bind, exec_getMonthKey. cbv beta iota.
  assert (Hpro : strict_ne (Some (js_or (d !! "subscriptionTier") (VStr "free")))
                   (Some (VStr "pro")) = true).
  { apply strict_ne_true. intros [= E]. apply Ht, tier_or_free_pro, E. }
  rewrite Hpro. cbn [andb].
  remember (strict_ne (Some (js_or (d !! "photoScansLimit") (VNum Index.FREE_PHOTO_LIMIT)))
                 (Some (VNum Index.FREE_PHOTO_LIMIT))) as fix_ eqn:Efix.
  remember (strict_ne (d !! "photoScansDayKey") (Some (VStr (monthKey env))))
    as stale eqn:Estale.
  assert (Hfix : fix_ = false → js_or (d !! "photoScansLimit") (VNum 3) = VNum 3).
  { rewrite Efix. unfold strict_ne, strict_eq. intros H. apply negb_false_iff in H.
    apply bool_decide_eq_true in H. injection H as H. exact H. }
  assert (Hstale : stale = false → d !! "photoScansDayKey" = Some (VStr (monthKey env))).
  { rewrite Estale. unfold strict_ne, strict_eq. intros H. apply negb_false_iff in H.
    apply bool_decide_eq_true in H. exact H. }
  assert (Hcur : d !! "photoScansDayKey" = Some (VStr (monthKey env)) → stale = false).
  { intros Hk. rewrite Estale, Hk. apply strict_ne_same. }
  assert (Hold : d !! "photoScansDayKey" ≠ Some (VStr (monthKey env)) → stale = true).
  { intros Hk. rewrite Estale. apply strict_ne_true, Hk. }
  clear Efix Estale.
  destruct (stale || fix_) eqn:Hor.
  - rewrite exec_bind, (exec_update _ _ _ _ Hw). cbv beta iota. cbn [exec usageLogs warnings].
    rewrite photo_patch_applied.
    assert (Hused : stale = false → truthy (d !! "photoScansUsed") = true →
              Some (js_or (d !! "photoScansUsed") (VNum 0)) = d !! "photoScansUsed").
    { intros _ Hu. unfold js_or. destruct (d !! "photoScansUsed"); [|done].
      rewrite Hu. done. }
    destruct fix_ eqn:Ef; (eexists; split; [reflexivity|]).
    all: split; [simplify_map_eq; done|].
    all: split; [simplify_map_eq; auto|].
    all: split; [intros k H1 H2 H3; simplify_map_eq; done|].
    all: split;
      [ unfold Index.photoScansUsedOf; simplify_map_eq;
        destruct stale; [done | apply js_or_idem]
      | split;
        [ intros Hk Hu; pose proof (Hcur Hk) as Hs; simplify_map_eq; auto
        | intros Hk; rewrite (Hold Hk); simplify_map_eq; done ] ].
  - apply orb_false_iff in Hor as [Hs Hf]. rewrite Hs. simpl.
    assert (mkWorld (Some d) (usageLogs w) (warnings w) = w) as Hweq
      by (destruct w; simpl in *; congruence).
    exists d. rewrite Hweq.
    repeat split; auto. intros Hk. specialize (Hstale Hs). done.
Qed.
(** On a normalised free record the rollover does nothing. *)
Lemma ensurePhoto_normalised (env : Env) (w : World) (d : Doc) :
  normalisedFree env d →
  exec env (Index.ensureMonthlyPhotoReset d) w = (inr d, w).
Proof.
  intros (Ht & Hk & Hl). unfold Index.ensureMonthlyPhotoReset.
  rewrite exec_bind, exec_getMonthKey. cbv beta iota.
  rewrite Hk, strict_ne_same.
  change (VNum Index.FREE_PHOTO_LIMIT) with (VNum 3). rewrite Hl, strict_ne_same.
  rewrite !andb_false_r. reflexivity.
Qed.

(** ** A spent allowance *)

Lemma exec_checkPhotoLimit (env : Env) (w : World) (userData : Doc) :
  exec env (Index.checkPhotoLimit userData) w =
  (fst (exec env (Index.checkPhotoLimit userData) w), w).
Proof. unfold Index.checkPhotoLimit. destruct (_ && _); reflexivity. Qed.

Lemma js_or_truthy (a : option Value) (v : Value) :
  js_or a (VNum 0) = v → truthy (Some v) = true → a = Some v ∧ truthy a = true.
Proof.
  unfold js_or. destruct a as [x|].
  - destruct (truthy (Some x)) eqn:E.
    + intros -> _. done.
    + intros <-. discriminate.
  - intros <-. discriminate.
Qed.

(** C3. A free record whose remaining photo allowance, once the period is
    normalised, is 0: an accepted request is refused with
    [resource-exhausted], the error carries the limit and the tier, and the
    stored used counter, lifetime request count and monthly token count are
    what they were before the call; no usage-log entry is written. *)
Theorem exhausted_free_request_is_rejected_without_charge
  (env : Env) (w : World) (d userData : Doc) (req : Index.VisionRequest) (uid : string) :
  accepted req uid →
  userDoc w = Some d →
  d !! "subscriptionTier" = Some (VStr "free") →
  fst (exec env (Index.ensureMonthlyPhotoReset d) w) = inr userData →
  Index.remainingPhotoScans userData = Some 0 →
  ∃ e w',
    exec env (Index.callClaudeVision req) w = (inl (EHttps e), w') ∧
    code e = resource_exhausted ∧
    details e !! "limit" = Some (Index.photoScansLimitOf userData) ∧
    details e !! "tier" = Some (VStr "free") ∧
    stored w' "photoScansUsed" = stored w "photoScansUsed" ∧
    stored w' "lifetimeAPIRequests" = stored w "lifetimeAPIRequests" ∧
    stored w' "monthlyTokens" = stored w "monthlyTokens" ∧
    usageLogs w' = usageLogs w.
Proof.
  intros Hacc Hw Ht Hnorm Hrem.
  assert (Hnp : d !! "subscriptionTier" ≠ Some (VStr "pro")) by (rewrite Ht; done).
  destruct (exec_ensurePhoto_nonpro env w d Hw Hnp)
    as (d' & Hex & Hkey & Hlim & Hother & Hused & Hsame & _).
  rewrite Hex in Hnorm. injection Hnorm as <-.
  assert (Ht' : d' !! "subscriptionTier" = Some (VStr "free")) by (rewrite Hother; done).
  (* the normalised counter is a number, at least the limit *)
  unfold Index.remainingPhotoScans in Hrem. rewrite Ht' in Hrem.
  rewrite strict_eq_false in Hrem by done.
  change (VNum Index.FREE_PHOTO_LIMIT) with (VNum 3) in Hrem. rewrite Hlim in Hrem.
  fold (Index.photoScansUsedOf d') in Hrem.
  destruct (Index.photoScansUsedOf d') as [u | | |] eqn:Eu; try discriminate.
  simpl in Hrem. injection Hrem as Hrem.
  assert (Hu : 3 ≤ u) by lia.
  (* hence no rollover took place, and the stored counter is that number *)
  destruct (strict_ne (d !! "photoScansDayKey") (Some (VStr (monthKey env)))) eqn:Est.
  { injection Hused as ->. lia. }
  symmetry in Hused.
  assert (Hcur : d !! "photoScansDayKey" = Some (VStr (monthKey env))).
  { unfold strict_ne, strict_eq in Est. apply negb_false_iff, bool_decide_eq_true in Est. done. }
  assert (Htr : truthy (Some (VNum u)) = true).
  { simpl. apply negb_true_iff, Z.eqb_neq. lia. }
  destruct (js_or_truthy _ _ Hused Htr) as [Hdu Htru].
  specialize (Hsame Hcur Htru).
  (* the request *)
  rewrite (callClaudeVision_accepted req uid Hacc), exec_try_catch.
  unfold Index.visionBody. rewrite exec_bind, (exec_loadUserData _ _ d) by done.
  rewrite exec_bind, Hex, exec_bind.
  unfold Index.checkPhotoLimit, Index.photoScansLimitOf, Index.photoScansUsedOf.
  rewrite Ht', strict_eq_false by done. rewrite Hlim, Hsame, Hdu.
  unfold js_or at 1. rewrite Htr.
  assert (Hge : js_ge (VNum u) (VNum 3) = true).
  { unfold js_ge. simpl. apply bool_decide_eq_true. lia. }
  rewrite Hge, strict_eq_true by done. simpl.
  eexists _, _. split; [reflexivity|]. simpl.
  unfold stored. rewrite Hw. simpl.
  rewrite Hsame, !Hother by done. done.
Qed.
(** ** The request after the rollover *)

Lemma writes_update (env : Env) (p : Patch) (w : World) :
  writes env (perform (UserUpdate p)) w = [p].
Proof. simpl. destruct (userDoc w); reflexivity. Qed.

(** A stale period on a record that is not [pro]: exactly one write, and it
    carries the zeroed counter together with the new period key. *)
Lemma writes_ensurePhoto_stale (env : Env) (w : World) (d : Doc) :
  d !! "subscriptionTier" ≠ Some (VStr "pro") →
  d !! "photoScansDayKey" ≠ Some (VStr (monthKey env)) →
  ∃ P : Patch,
    writes env (Index.ensureMonthlyPhotoReset d) w = [P] ∧
    P !! "photoScansUsed" = Some (FSet (VNum 0)) ∧
    P !! "photoScansDayKey" = Some (FSet (VStr (monthKey env))).
Proof.
  intros Ht Hk. unfold Index.ensureMonthlyPhotoReset.
  rewrite writes_bind, exec_getMonthKey. cbv beta iota.
  assert (Hpro : strict_ne (Some (js_or (d !! "subscriptionTier") (VStr "free")))
                   (Some (VStr "pro")) = true).
  { apply strict_ne_true. intros [= E]. apply Ht, tier_or_free_pro, E. }
  rewrite Hpro, (strict_ne_true _ _ Hk). cbn [andb orb].
  rewrite writes_bind, writes_update. 
  destruct (strict_ne (Some (js_or (d !! "photoScansLimit") _)) _); (eexists; split; [destruct (exec _ _ _) as [[?|?] ?]; reflexivity |]); split; reflexivity.
Qed.

Lemma exec_recordUsage_logged (env : Env) (w : World) (d userData : Doc)
  (uid dev pt : string) (result : ApiResult) (m : string) :
  userDoc w = Some d →
  logFault env = None →
  exec env (Index.recordUsage uid dev pt userData result m) w =
  (inr (Index.visionAnswer pt userData result),
   mkWorld (Some (apply_patch (now env)
                    (Index.usageUpdate (input_tokens result + output_tokens result)) d))
           (usageLogs w ++
              [apply_patch (now env) (Index.usageLogEntry uid dev pt userData result m) ∅])
           (warnings w)).
Proof.
  intros Hw Hl. unfold Index.recordUsage.
  rewrite exec_bind, (exec_update _ _ _ _ Hw). cbv beta iota.
  rewrite exec_bind. cbn [exec perform handle]. rewrite Hl. reflexivity.
Qed.

Lemma exec_recordUsage_log_fault (env : Env) (w : World) (d userData : Doc)
  (uid dev pt : string) (result : ApiResult) (m msg : string) :
  userDoc w = Some d →
  logFault env = Some msg →
  exec env (Index.recordUsage uid dev pt userData result m) w =
  (inl (EError msg),
   mkWorld (Some (apply_patch (now env)
                    (Index.usageUpdate (input_tokens result + output_tokens result)) d))
           (usageLogs w) (warnings w)).
Proof.
  intros Hw Hl. unfold Index.recordUsage.
  rewrite exec_bind, (exec_update _ _ _ _ Hw). cbv beta iota.
  rewrite exec_bind. cbn [exec perform handle]. rewrite Hl. reflexivity.
Qed.
Lemma exec_callClaudeVision_existing (env : Env) (w w1 : World) (d userData : Doc)
  (req : Index.VisionRequest) (uid : string) :
  accepted req uid →
  userDoc w = Some d →
  exec env (Index.ensureMonthlyPhotoReset d) w = (inr userData, w1) →
  exec env (Index.callClaudeVision req) w =
  exec env (try_catch (afterReset uid req userData) wrapInternal) w1.
Proof.
  intros Hacc Hw Hex.
  rewrite (callClaudeVision_accepted req uid Hacc), !exec_try_catch.
  unfold Index.visionBody. rewrite exec_bind, (exec_loadUserData _ _ d) by done.
  rewrite exec_bind, Hex. reflexivity.
Qed.

(** Every way a request that passed the limit check can end. *)
Lemma exec_afterReset_passed (env : Env) (w1 : World) (d1 userData : Doc)
  (req : Index.VisionRequest) (uid : string) :
  userDoc w1 = Some d1 →
  passesLimit userData →
  exec env (try_catch (afterReset uid req userData) wrapInternal) w1 =
  if String.eqb (secret env) ""
  then (inl (https failed_precondition "API key not configured"), w1)
  else
    match loopOutcome env with
    | inl e => (inl e, w1)
    | inr (None, l) =>
        (inl (https internal
           ("Claude API error: " +:+ default "Unknown error"
              (l ≫= λ t, if String.eqb t "" then None else Some t))), w1)
    | inr (Some (result, m), _) =>
        let charged :=
          Some (apply_patch (now env)
                  (Index.usageUpdate (input_tokens result + output_tokens result)) d1) in
        match logFault env with
        | Some msg =>
            (inl (https internal msg), mkWorld charged (usageLogs w1) (warnings w1))
        | None =>
            (inr (Index.visionAnswer (str_or (Index.photoType req) "note") userData result),
             mkWorld charged
               (usageLogs w1 ++
                  [apply_patch (now env)
                     (Index.usageLogEntry uid (str_or (Index.deviceID req) "unknown")
                        (str_or (Index.photoType req) "note") userData result m) ∅])
               (warnings w1))
        end
    end.
Proof.
  intros Hw Hpass. unfold passesLimit in Hpass.
  rewrite exec_try_catch. unfold afterReset.
  rewrite exec_bind. unfold Index.checkPhotoLimit at 1. rewrite Hpass. cbn [exec].
  rewrite exec_bind.
  destruct (String.eqb (secret env) "") eqn:Hk.
  - apply String.eqb_eq in Hk. rewrite (exec_callProvider_no_key _ _ Hk). reflexivity.
  - apply String.eqb_neq in Hk.
    destruct (loopOutcome env) as [e | [[[result m]|] l]] eqn:Hl.
    + destruct (exec_callProvider_fails env w1 Hk) as [msg Hmsg]; [left; eauto|].
      rewrite Hmsg.
      destruct (tryModels_throws_internal env Index.modelFallbacks None
                  (mkWorld None [] []) e Hl) as [msg' ->].
      unfold Index.callProvider in Hmsg. rewrite exec_bind, exec_secret in Hmsg.
      cbv beta iota in Hmsg. apply String.eqb_neq in Hk. rewrite Hk in Hmsg.
      rewrite exec_bind, exec_tryModels, Hl in Hmsg. injection Hmsg as <-. reflexivity.
    + rewrite (exec_callProvider_answers env w1 result m Hk) by (eexists; eauto).
      cbn [fst snd].
      destruct (logFault env) as [msg|] eqn:Hf.
      * rewrite (exec_recordUsage_log_fault _ _ d1 _ _ _ _ _ _ msg Hw Hf). reflexivity.
      * rewrite (exec_recordUsage_logged _ _ d1 _ _ _ _ _ _ Hw Hf). reflexivity.
    + unfold Index.callProvider. rewrite exec_bind, exec_secret. cbv beta iota.
      apply String.eqb_neq in Hk. rewrite Hk.
      rewrite exec_bind, exec_tryModels, Hl. reflexivity.
Qed.
Lemma limitOf_free (userData : Doc) :
  userData !! "subscriptionTier" = Some (VStr "free") →
  js_or (userData !! "photoScansLimit") (VNum 3) = VNum 3 →
  Index.photoScansLimitOf userData = VNum 3.
Proof.
  intros Ht Hl. unfold Index.photoScansLimitOf.
  rewrite Ht, strict_eq_false by done. exact Hl.
Qed.

(** C4. A free record whose stored period key is not the current month,
    whatever its counter holds (in particular when it has reached the
    limit): the rollover is a single write that carries the zeroed counter
    and the current period key together, and the request that triggered it
    is then checked against the zeroed counter, so that, with provider and
    log responding, it is served, leaving the counter at 1. *)
Theorem stale_period_rolls_over_and_request_is_served
  (env : Env) (w : World) (d : Doc) (req : Index.VisionRequest) (uid : string)
  (result : ApiResult) (m : string) :
  accepted req uid →
  userDoc w = Some d →
  d !! "subscriptionTier" = Some (VStr "free") →
  d !! "photoScansDayKey" ≠ Some (VStr (monthKey env)) →
  secret env ≠ ""%string →
  providerAnswers env result m →
  logFault env = None →
  (∃ (P : Patch) (userData : Doc) (w1 : World),
     writes env (Index.ensureMonthlyPhotoReset d) w = [P] ∧
     P !! "photoScansUsed" = Some (FSet (VNum 0)) ∧
     P !! "photoScansDayKey" = Some (FSet (VStr (monthKey env))) ∧
     exec env (Index.ensureMonthlyPhotoReset d) w = (inr userData, w1) ∧
     stored w1 "photoScansUsed" = Some (VNum 0) ∧
     stored w1 "photoScansDayKey" = Some (VStr (monthKey env))) ∧
  ∃ (r : Index.VisionResult) (w' : World),
     exec env (Index.callClaudeVision req) w = (inr r, w') ∧
     Index.remainingScans r = Some 2 ∧
     stored w' "photoScansUsed" = Some (VNum 1) ∧
     stored w' "photoScansDayKey" = Some (VStr (monthKey env)).
Proof.
  intros Hacc Hw Ht Hstale Hkey Hprov Hlog.
  assert (Hnp : d !! "subscriptionTier" ≠ Some (VStr "pro")) by (rewrite Ht; done).
  destruct (exec_ensurePhoto_nonpro env w d Hw Hnp)
    as (d' & Hex & Hk' & Hlim & Hother & Hused & _ & Hzero).
  specialize (Hzero Hstale).
  destruct (writes_ensurePhoto_stale env w d Hnp Hstale) as (P & HP & HPu & HPk).
  assert (Ht' : d' !! "subscriptionTier" = Some (VStr "free")) by (rewrite Hother; done).
  assert (Hu0 : Index.photoScansUsedOf d' = VNum 0).
  { unfold Index.photoScansUsedOf. rewrite Hzero. reflexivity. }
  split.
  - exists P, d', (mkWorld (Some d') (usageLogs w) (warnings w)).
    unfold stored. simpl. auto 10.
  - rewrite (exec_callClaudeVision_existing env w _ d d' req uid Hacc Hw Hex).
    rewrite (exec_afterReset_passed env _ d' d' req uid); [|reflexivity|].
    2:{ unfold passesLimit. rewrite Hu0, (limitOf_free d' Ht' Hlim). reflexivity. }
    apply String.eqb_neq in Hkey. rewrite Hkey.
    destruct Hprov as [l Hl]. rewrite Hl, Hlog.
    eexists _, _. split; [reflexivity|].
    unfold stored. cbn [userDoc mbind option_bind Index.visionAnswer Index.remainingScans].
    rewrite Hu0, (limitOf_free d' Ht' Hlim), !lookup_apply_patch, Hzero, Hk'.
    repeat split.
Qed.
(** The photo rollover always returns, and what it returns is what is then
    stored. *)
(** ** Provider failure, log failure, and the [pro] tier *)

Lemma exec_ensurePhoto_total (env : Env) (w : World) (d : Doc) :
  userDoc w = Some d →
  ∃ userData,
    exec env (Index.ensureMonthlyPhotoReset d) w =
    (inr userData, mkWorld (Some userData) (usageLogs w) (warnings w)).
Proof.
  intros Hw.
  destruct (decide (d !! "subscriptionTier" = Some (VStr "pro"))) as [Hp | Hnp].
  - exists d. destruct (ensure_pro_is_identity env w d Hp) as (_ & _ & -> & _).
    destruct w; simpl in *; congruence.
  - destruct (exec_ensurePhoto_nonpro env w d Hw Hnp) as (d' & Hex & _). eauto.
Qed.

Lemma remaining_passes (userData : Doc) (r : Z) :
  Index.remainingPhotoScans userData = Some r → 1 ≤ r → passesLimit userData.
Proof.
  unfold Index.remainingPhotoScans, passesLimit, js_ge.
  fold (Index.photoScansUsedOf userData).
  change (if strict_eq (userData !! "subscriptionTier") (Some (VStr "pro"))
          then VNum 999999
          else js_or (userData !! "photoScansLimit") (VNum Index.FREE_PHOTO_LIMIT))
    with (Index.photoScansLimitOf userData).
  destruct (to_number (Index.photoScansLimitOf userData)) as [x|]; [|discriminate].
  destruct (to_number (Index.photoScansUsedOf userData)) as [y|]; [|discriminate].
  simpl. intros [= <-] Hr. rewrite bool_decide_eq_false_2 by lia. reflexivity.
Qed.

(** C2, as amended. A free record with a remaining allowance of at least 1,
    and a request that passes the limit check and whose provider call then
    fails: the request ends with an [internal] error and the stored record is
    the one the period normalisation left, with its used counter unchanged.
    The increment comes after the provider has answered; a failed call is
    not charged. *)
Theorem provider_failure_charges_nothing
  (env : Env) (w w1 : World) (d userData : Doc) (req : Index.VisionRequest)
  (uid : string) (r : Z) :
  accepted req uid →
  userDoc w = Some d →
  d !! "subscriptionTier" = Some (VStr "free") →
  exec env (Index.ensureMonthlyPhotoReset d) w = (inr userData, w1) →
  Index.remainingPhotoScans userData = Some r →
  1 ≤ r →
  secret env ≠ ""%string →
  providerFails env →
  (∃ msg, exec env (Index.callClaudeVision req) w = (inl (https internal msg), w1)) ∧
  userDoc w1 = Some userData ∧
  stored w1 "photoScansUsed" = userData !! "photoScansUsed" ∧
  (normalisedFree env d → w1 = w).
Proof.
  intros Hacc Hw Ht Hex Hrem Hr Hkey Hfail.
  destruct (exec_ensurePhoto_total env w d Hw) as (ud & Hex').
  rewrite Hex in Hex'. injection Hex' as <- ->.
  split; [|split; [reflexivity | split; [reflexivity|]]].
  - rewrite (exec_callClaudeVision_existing env w _ d userData req uid Hacc Hw Hex).
    rewrite (exec_afterReset_passed env _ userData userData req uid);
      [| reflexivity | eapply remaining_passes; eauto].
    apply String.eqb_neq in Hkey. rewrite Hkey.
    destruct Hfail as [[e He] | [l Hl]].
    + rewrite He.
      destruct (tryModels_throws_internal env Index.modelFallbacks None
                  (mkWorld None [] []) e He) as [msg ->].
      exists msg. done.
    + rewrite Hl. eexists. done.
  - intros Hn. rewrite (ensurePhoto_normalised env w d Hn) in Hex.
    injection Hex as _ <-. reflexivity.
Qed.

(** C8, as amended. For a request against a record that carries a tier
    and whose photo counter and limit are numbers, that passes the limit
    check and whose provider call succeeds, the usage-log write decides the
    outcome: when it is rejected the request fails with an [internal] error
    carrying the log fault's message, although the usage counters have
    already been incremented (the stored photo counter is one more than
    before); the caller receives the result only when the write succeeds.
    The tier is asked for because the log entry records it: an entry with
    an undefined field is refused by the client library before the write is
    attempted. *)
Theorem log_fault_fails_the_served_request
  (env : Env) (w w1 : World) (d userData : Doc) (req : Index.VisionRequest)
  (uid : string) (result : ApiResult) (m msg : string) :
  accepted req uid →
  userDoc w = Some d →
  exec env (Index.ensureMonthlyPhotoReset d) w = (inr userData, w1) →
  is_Some (userData !! "subscriptionTier") →
  photoCounts userData →
  passesLimit userData →
  secret env ≠ ""%string →
  providerAnswers env result m →
  logFault env = Some msg →
  let charged :=
    apply_patch (now env)
      (Index.usageUpdate (input_tokens result + output_tokens result)) userData in
  exec env (Index.callClaudeVision req) w =
    (inl (https internal msg), mkWorld (Some charged) (usageLogs w) (warnings w)) ∧
  charged !! "photoScansUsed" =
    Some (VNum (match userData !! "photoScansUsed" with
                | Some (VNum n) => n + 1
                | _ => 1
                end)).
Proof.
  intros Hacc Hw Hex _ _ Hpass Hkey [l Hl] Hlog charged.
  destruct (exec_ensurePhoto_total env w d Hw) as (ud & Hex').
  rewrite Hex in Hex'. injection Hex' as <- ->.
  rewrite (exec_callClaudeVision_existing env w _ d userData req uid Hacc Hw Hex).
  rewrite (exec_afterReset_passed env _ userData userData req uid); [| reflexivity | done].
  apply String.eqb_neq in Hkey. rewrite Hkey, Hl, Hlog.
  split; [reflexivity|].
  unfold charged. rewrite lookup_apply_patch. reflexivity.
Qed.

(** C5. A [pro] record, whatever its counter and its stored limit (so also
    with used at or above the limit): the limit check lets every accepted
    request through, no outcome is a [resource-exhausted] rejection, and
    with provider and log responding the request is served. *)
Theorem pro_is_never_quota_rejected
  (env : Env) (w : World) (d : Doc) (req : Index.VisionRequest) (uid : string) :
  accepted req uid →
  userDoc w = Some d →
  d !! "subscriptionTier" = Some (VStr "pro") →
  passesLimit d ∧
  (∀ e w', exec env (Index.callClaudeVision req) w = (inl (EHttps e), w') →
           code e ≠ resource_exhausted) ∧
  (∀ result m,
     secret env ≠ ""%string → providerAnswers env result m → logFault env = None →
     ∃ w', exec env (Index.callClaudeVision req) w =
             (inr (Index.visionAnswer (str_or (Index.photoType req) "note") d result), w')).
Proof.
  intros Hacc Hw Ht.
  assert (Hpass : passesLimit d).
  { unfold passesLimit. rewrite Ht, (strict_eq_false (Some (VStr "pro"))) by done.
    apply andb_false_r. }
  destruct (ensure_pro_is_identity env w d Ht) as (_ & _ & Hex & _).
  rewrite (exec_callClaudeVision_existing env w _ d d req uid Hacc Hw Hex).
  rewrite (exec_afterReset_passed env _ d d req uid Hw Hpass).
  split; [exact Hpass|]. split.
  - intros e w'. destruct (String.eqb (secret env) ""); [intros [= <- _]; done|].
    destruct (loopOutcome env) as [e0 | [[[result m]|] l]] eqn:Hl.
    + destruct (tryModels_throws_internal env Index.modelFallbacks None
                  (mkWorld None [] []) e0 Hl) as [msg ->].
      intros [= <- _]. done.
    + destruct (logFault env); [intros [= <- _]; done | discriminate].
    + intros [= <- _]. done.
  - intros result m Hkey [l Hl] Hlog.
    apply String.eqb_neq in Hkey. rewrite Hkey, Hl, Hlog. eauto.
Qed.
(** ** The device guard *)

Lemma exec_try_catch_bind {A B : Type} (env : Env) (p : Prog A) (f : A → Prog B)
  (h : Exn → Prog B) (w : World) :
  exec env (try_catch (bind p f) h) w =
  match exec env p w with
  | (inl e, w') => exec env (h e) w'
  | (inr a, w') => exec env (try_catch (f a) h) w'
  end.
Proof.
  rewrite exec_try_catch, exec_bind.
  destruct (exec env p w) as [[e | a] w']; rewrite ?exec_try_catch; reflexivity.
Qed.

Lemma device_patch_applied (t : Z) (dev : string) (d : Doc) :
  apply_patch t {[ "deviceID" := FSet (VStr dev) ]} d = <[ "deviceID" := VStr dev ]> d.
Proof.
  apply map_eq. intros k. rewrite lookup_apply_patch.
  destruct (decide (k = "deviceID"%string)) as [-> | Hk]; simplify_map_eq; done.
Qed.

(** The device check, on a mismatch and on a match. *)
Lemma exec_deviceGuard_mismatch (env : Env) (w : World) (d userData : Doc)
  (bound dev : string) :
  userDoc w = Some d →
  userData !! "deviceID" = Some (VStr bound) → bound ≠ ""%string → bound ≠ dev →
  exec env (deviceGuard userData dev) w =
  (inr (), mkWorld (Some (<[ "deviceID" := VStr dev ]> d)) (usageLogs w)
                   (warnings w ++ [deviceMismatchWarning])).
Proof.
  intros Hw Hd Hne Hdiff. unfold deviceGuard. rewrite Hd.
  rewrite strict_ne_true by congruence.
  cbn [truthy]. apply String.eqb_neq in Hne. rewrite Hne. cbn [negb andb].
  rewrite exec_bind. cbn [exec perform handle userDoc usageLogs warnings].
  rewrite Hw, device_patch_applied. reflexivity.
Qed.

Lemma exec_deviceGuard_match (env : Env) (w : World) (userData : Doc) (dev : string) :
  userData !! "deviceID" = Some (VStr dev) →
  exec env (deviceGuard userData dev) w = (inr (), w).
Proof.
  intros Hd. unfold deviceGuard. rewrite Hd, strict_ne_same, andb_false_r. reflexivity.
Qed.

(** A record with no device, or an empty one, is left alone. *)
Lemma exec_deviceGuard_unset (env : Env) (w : World) (userData : Doc) (dev : string) :
  truthy (userData !! "deviceID") = false →
  exec env (deviceGuard userData dev) w = (inr (), w).
Proof. intros Hd. unfold deviceGuard. rewrite Hd. reflexivity. Qed.

Lemma callLifetimeVision_accepted (req : Part002.VisionRequest) (uid img pt dev : string) :
  acceptedLifetimeVision req uid img pt dev →
  Part002.callClaudeVision req = try_catch (Part002.visionBody uid img pt dev) wrapInternal.
Proof.
  intros (Ha & Hi & Hi' & Hty & Hp & Hp' & Hd & Hd' & Hall & Hs).
  unfold Part002.callClaudeVision. rewrite Ha, Hi, Hp, Hd.
  apply String.eqb_neq in Hi', Hty, Hp', Hd'. rewrite Hi', Hty, Hp', Hd'.
  cbn [orb]. cbv zeta in Hall. rewrite (bool_decide_eq_true_2 _ Hall). cbn [negb].
  rewrite Hs. reflexivity.
Qed.

Lemma exec_loadLifetimeVision (env : Env) (w : World) (d : Doc) (dev : string) :
  userDoc w = Some d → exec env (Part002.loadUserData dev) w = (inr d, w).
Proof.
  intros Hd. unfold Part002.loadUserData. rewrite exec_bind. simpl. rewrite Hd. reflexivity.
Qed.

Lemma exec_afterGuard_proxy (env : Env) (uid dev : string) (ht : bool) (userData d1 : Doc)
  (lg : list Doc) :
  ∃ out d1' lg',
    (∀ ws, exec env (try_catch (Part004.afterGuard uid dev ht userData) wrapInternal)
             (mkWorld (Some d1) lg ws) = (out, mkWorld (Some d1') lg' ws)) ∧
    d1' !! "deviceID" = d1 !! "deviceID".
Proof.
  unfold Part004.afterGuard.
  destruct (_ && _); [eexists _, _, _; split; [intros ws; reflexivity | reflexivity] |].
  destruct (String.eqb (secret env) "") eqn:Hk;
    [eexists _, _, _; split;
       [intros ws; rewrite exec_try_catch, exec_bind, exec_secret; cbv beta iota;
        rewrite Hk; reflexivity | reflexivity] |].
  destruct (upstream env Part004.proxyModel) as [err | response] eqn:Hup;
    [eexists _, _, _; split;
       [intros ws; rewrite exec_try_catch, exec_bind, exec_secret; cbv beta iota;
        rewrite Hk, exec_bind; cbn [exec perform handle]; rewrite Hup; reflexivity
       | reflexivity] |].
  destruct (negb (ok response)) eqn:Hok;
    [eexists _, _, _; split;
       [intros ws; rewrite exec_try_catch, exec_bind, exec_secret; cbv beta iota;
        rewrite Hk, exec_bind; cbn [exec perform handle]; rewrite Hup; cbn [exec];
        rewrite Hok; reflexivity
       | reflexivity] |].
  destruct (json response) as [result|] eqn:Hj;
    [| eexists _, _, _; split;
       [intros ws; rewrite exec_try_catch, exec_bind, exec_secret; cbv beta iota;
        rewrite Hk, exec_bind; cbn [exec perform handle]; rewrite Hup; cbn [exec];
        rewrite Hok, Hj; reflexivity
       | reflexivity] ].
  destruct (logFault env) as [msg|] eqn:Hlog.
  all: eexists _, _, _; split;
       [intros ws; rewrite exec_try_catch, exec_bind, exec_secret; cbv beta iota;
        rewrite Hk, exec_bind; cbn [exec perform handle]; rewrite Hup; cbn [exec];
        rewrite Hok, Hj, exec_bind; cbn [exec perform handle userDoc];
        rewrite exec_bind; cbn [exec perform handle]; rewrite Hlog;
        cbn [exec userDoc usageLogs warnings]; reflexivity
       | rewrite lookup_apply_patch; reflexivity ].
Qed.


Lemma exec_loadProxy (env : Env) (w : World) (d : Doc) (dev : string) :
  userDoc w = Some d → exec env (Part004.loadUserData dev) w = (inr d, w).
Proof.
  intros Hd. unfold Part004.loadUserData. rewrite exec_bind. simpl. rewrite Hd. reflexivity.
Qed.





(** ** Subscription verification *)

(** An expiry between the first millisecond of the year 1 and the last of
    the year 9999 is a valid date that a timestamp can hold. *)
Lemma storable_expiry (expires : Z) :
  -62135596800000 ≤ expires ≤ 253402300799999 →
  Index.newDate (Some expires) = Some expires ∧ Index.storable expires = true.
Proof.
  intros [Hlo Hhi]. split.
  - unfold Index.newDate. cbn [mbind option_bind].
    rewrite bool_decide_eq_true_2; [reflexivity | lia].
  - unfold Index.storable. apply bool_decide_eq_true_2. split.
    + apply Z.div_le_lower_bound; lia.
    + apply Z.lt_succ_r. apply Z.div_lt_upper_bound; lia.
Qed.

(** C7, as the code has it. For a verified receipt that names a product and
    whose expiry lies within the years 1 to 9999 (the dates a Firestore
    timestamp holds), [verifySubscription] decides the tier from the
    comparison of the receipt's expiry with the clock alone: [pro] when the
    expiry is later than now, [free] otherwise, whatever tier, expiry and
    product the record held. The four subscription fields are overwritten,
    every other field is kept, and the answer reports the same tier and
    active flag. *)
Theorem verification_overwrites_the_tier
  (lib : Library) (env : Env) (w : World) (d : Doc) (req : Index.VerifyRequest)
  (uid jws : string) (payload : ReceiptPayload) (expires : Z) (product : string) :
  Index.vAuth req = Some uid →
  Index.jwsToken req = Some jws →
  jws ≠ ""%string →
  verifier env jws = inr payload →
  expiresDate payload = Some expires →
  productId payload = Some product →
  -62135596800000 ≤ expires ≤ 253402300799999 →
  userDoc w = Some d →
  let active := bool_decide (now env < expires) in
  let tier := (if active then "pro" else "free")%string in
  ∃ d',
    exec env (Index.verifySubscription lib req) w =
      (inr {| Index.success := true;
              Index.isActive := active;
              Index.expiresAt := expires;
              Index.resTier := tier |},
       mkWorld (Some d') (usageLogs w) (warnings w)) ∧
    d' !! "subscriptionTier" = Some (VStr tier) ∧
    d' !! "subscriptionExpiresAt" = Some (VTime expires) ∧
    d' !! "subscriptionProductId" = Some (VStr product) ∧
    d' !! "subscriptionVerifiedAt" = Some (VTime (now env)) ∧
    (∀ k : string,
       k ≠ "subscriptionTier"%string → k ≠ "subscriptionExpiresAt"%string →
       k ≠ "subscriptionProductId"%string → k ≠ "subscriptionVerifiedAt"%string →
       d' !! k = d !! k).
Proof.
  intros Ha Hj Hne Hv He Hp Hrange Hw active tier.
  destruct (storable_expiry expires Hrange) as [Hdate Hst].
  unfold Index.verifySubscription. rewrite Ha, Hj. cbn [str_or].
  apply String.eqb_neq in Hne. rewrite !Hne.
  rewrite exec_try_catch, exec_bind. cbn [exec perform handle]. rewrite Hv.
  cbn [exec]. rewrite exec_bind. cbn [exec perform handle].
  rewrite He, Hdate, Hst, Hp. cbn [negb].
  rewrite exec_bind, (exec_update _ _ _ _ Hw). cbn [exec].
  fold active. eexists. split; [reflexivity|].
  rewrite !lookup_apply_patch.
  repeat split; try reflexivity.
  intros k H1 H2 H3 H4. rewrite lookup_apply_patch. simplify_map_eq. done.
Qed.

(** C7, counterexamples. A verified receipt does not always reach the
    record. The expiry of the first receipt is the first millisecond of the
    year 10000: a valid date, later than now, but not one a timestamp holds.
    The expiry of the second, 10^20, is no date at all, and the third
    receipt has none. Each time the call ends with [internal], carrying the
    client library's complaint, before anything is written: the free record
    stays free although the first two receipts expire later than now, and
    the pro record stays pro although the third is not active. *)
Lemma unstorable_expiry_leaves_the_tier :
  (now (answering_env 253402300800000) < 253402300800000 ∧
   exec (answering_env 253402300800000)
        (Index.verifySubscription sample_library verify_request)
        (world_of (free_record "2025-06" 1)) =
     (inl (https internal (timestampError sample_library (Some 253402300800000))),
      world_of (free_record "2025-06" 1))) ∧
  (now (answering_env (10 ^ 20)) < 10 ^ 20 ∧
   exec (answering_env (10 ^ 20))
        (Index.verifySubscription sample_library verify_request)
        (world_of (free_record "2025-06" 1)) =
     (inl (https internal (timestampError sample_library None)),
      world_of (free_record "2025-06" 1))) ∧
  exec undated_receipt_env
       (Index.verifySubscription sample_library verify_request)
       (world_of pro_stale_doc) =
    (inl (https internal (timestampError sample_library None)),
     world_of pro_stale_doc).
Proof.
  repeat split; reflexivity.
Qed.

(** ** Requests one after the other *)

Section Responding.
(** One period, one environment: the key is configured, the provider
    answers and the usage log accepts writes. *)
Variable env : Env.
Variable result : ApiResult.
Variable modelUsed : string.
Hypothesis key_configured : secret env ≠ ""%string.
Hypothesis provider_answers : providerAnswers env result modelUsed.
Hypothesis log_accepts : logFault env = None.

(** One request against a normalised free record whose counter reads [u]:
    refused without a write once [u] has reached the limit, served and
    charged one unit below it. *)
Lemma normalised_request (w : World) (d : Doc) (req : Index.VisionRequest)
  (uid : string) (u : Z) :
  accepted req uid →
  userDoc w = Some d →
  normalisedFree env d →
  Index.photoScansUsedOf d = VNum u →
  if bool_decide (3 ≤ u)
  then ∃ e, exec env (Index.callClaudeVision req) w = (inl (EHttps e), w) ∧
            code e = resource_exhausted
  else ∃ r d' w',
         exec env (Index.callClaudeVision req) w = (inr r, w') ∧
         userDoc w' = Some d' ∧ normalisedFree env d' ∧
         Index.photoScansUsedOf d' = VNum (u + 1).
Proof.
  intros Hacc Hw Hn Hu.
  destruct provider_answers as [l Hl].
  pose proof Hn as (Ht & Hk & Hlim).
  rewrite (exec_callClaudeVision_existing env w w d d req uid Hacc Hw
             (ensurePhoto_normalised env w d Hn)).
  case_bool_decide as Hge.
  - rewrite exec_try_catch. unfold afterReset. rewrite exec_bind.
    unfold Index.checkPhotoLimit. rewrite Hu, (limitOf_free d Ht Hlim).
    unfold js_ge. cbn [to_number]. rewrite bool_decide_eq_true_2 by done.
    rewrite strict_eq_true by done. cbn [andb exec wrapInternal].
    eexists. split; reflexivity.
  - rewrite (exec_afterReset_passed env w d d req uid Hw).
    2:{ unfold passesLimit. rewrite Hu, (limitOf_free d Ht Hlim).
        unfold js_ge. cbn [to_number]. rewrite bool_decide_eq_false_2 by done.
        reflexivity. }
    pose proof key_configured as Hkey.
    apply String.eqb_neq in Hkey. rewrite Hkey, Hl, log_accepts.
    eexists _, _, _. split; [reflexivity|]. split; [reflexivity|].
    split.
    + unfold normalisedFree. rewrite !lookup_apply_patch.
      replace (Index.usageUpdate _ !! "subscriptionTier") with (@None FieldOp)
        by reflexivity.
      replace (Index.usageUpdate _ !! "photoScansDayKey") with (@None FieldOp)
        by reflexivity.
      replace (Index.usageUpdate _ !! "photoScansLimit") with (@None FieldOp)
        by reflexivity.
      done.
    + unfold Index.photoScansUsedOf in *. rewrite lookup_apply_patch.
      replace (Index.usageUpdate _ !! "photoScansUsed") with (Some (FIncrement 1))
        by reflexivity.
      cbn [apply_op].
      unfold js_or in Hu.
      destruct (d !! "photoScansUsed") as [[n | s | b | t] |] eqn:E;
        cbn [truthy] in Hu.
      * destruct (n =? 0) eqn:En; cbn [negb] in Hu; injection Hu as <-.
        -- apply Z.eqb_eq in En as ->. reflexivity.
        -- unfold js_or. cbn [truthy].
           destruct (n + 1 =? 0) eqn:E1; cbn [negb]; [|done].
           apply Z.eqb_eq in E1. rewrite E1. reflexivity.
      * destruct (negb _); [discriminate|]. injection Hu as <-. reflexivity.
      * destruct b; [discriminate|]. injection Hu as <-. reflexivity.
      * discriminate.
      * injection Hu as <-. reflexivity.
Qed.

(** By induction on the requests: the served ones are the first
    [3 - u], the others are refused. *)
Lemma sequential_normalised (reqs : list Index.VisionRequest) :
  Forall (λ req, ∃ uid, accepted req uid) reqs →
  ∀ (w : World) (d : Doc) (u : Z),
    userDoc w = Some d →
    normalisedFree env d →
    Index.photoScansUsedOf d = VNum u →
    let outs := fst (run_sequentially env Index.callClaudeVision reqs w) in
    length (List.filter isServed outs) = (length reqs `min` Z.to_nat (3 - u))%nat ∧
    length (List.filter isQuotaRejected outs) =
      (length reqs - (length reqs `min` Z.to_nat (3 - u)))%nat.
Proof.
  intros Hall.
  induction Hall as [| req rest [uid Hacc] Hrest IH]; intros w d u Hw Hn Hu.
  - simpl. done.
  - cbn [run_sequentially].
    pose proof (normalised_request w d req uid u Hacc Hw Hn Hu) as Hstep.
    case_bool_decide as Hge.
    + destruct Hstep as (e & Hex & Hcode). rewrite Hex.
      specialize (IH w d u Hw Hn Hu). cbv zeta in IH.
      destruct (run_sequentially env Index.callClaudeVision rest w) as [rs w2].
      cbn [fst] in *. cbn [List.filter isServed isQuotaRejected].
      rewrite Hcode, bool_decide_eq_true_2 by done. cbn [length].
      destruct IH as [IH1 IH2]. rewrite IH1, IH2. lia.
    + destruct Hstep as (r & d' & w' & Hex & Hw' & Hn' & Hu'). rewrite Hex.
      specialize (IH w' d' (u + 1) Hw' Hn' Hu'). cbv zeta in IH.
      destruct (run_sequentially env Index.callClaudeVision rest w') as [rs w2].
      cbn [fst] in *. cbn [List.filter isServed isQuotaRejected length].
      destruct IH as [IH1 IH2]. rewrite IH1, IH2. lia.
Qed.

End Responding.

(** ** Exactly the allowance *)

(** C1, as amended. Requests against a free record that are handled one
    after the other, in one period and with provider and log responding,
    consume exactly the remaining allowance: of [N > R] requests, [R] are
    served and [N - R] are refused with [resource-exhausted]; with a stored
    counter that is not negative, no more than the limit are served. *)
Theorem sequential_requests_consume_exactly_the_allowance
  (env : Env) (w : World) (d userData : Doc) (reqs : list Index.VisionRequest)
  (result : ApiResult) (m : string) (R : Z) :
  Forall (λ req, ∃ uid, accepted req uid) reqs →
  userDoc w = Some d →
  d !! "subscriptionTier" = Some (VStr "free") →
  fst (exec env (Index.ensureMonthlyPhotoReset d) w) = inr userData →
  Index.remainingPhotoScans userData = Some R →
  secret env ≠ ""%string → providerAnswers env result m → logFault env = None →
  R < Z.of_nat (length reqs) →
  let outs := fst (run_sequentially env Index.callClaudeVision reqs w) in
  length (List.filter isServed outs) = Z.to_nat R ∧
  length (List.filter isQuotaRejected outs) = (length reqs - Z.to_nat R)%nat ∧
  (∀ u, Index.photoScansUsedOf userData = VNum u → 0 ≤ u →
        (length (List.filter isServed outs) ≤ 3)%nat).
Proof.
  intros Hall Hw Ht Hnorm Hrem Hkey Hprov Hlog HN.
  assert (Hnp : d !! "subscriptionTier" ≠ Some (VStr "pro")) by (rewrite Ht; done).
  destruct (exec_ensurePhoto_nonpro env w d Hw Hnp)
    as (d' & Hex & Hk' & Hlim & Hother & _).
  rewrite Hex in Hnorm. injection Hnorm as <-.
  assert (Ht' : d' !! "subscriptionTier" = Some (VStr "free")) by (rewrite Hother; done).
  assert (Hn' : normalisedFree env d') by done.
  (* the remaining allowance reads the counter as a number *)
  unfold Index.remainingPhotoScans in Hrem. rewrite Ht' in Hrem.
  rewrite strict_eq_false in Hrem by done.
  change (VNum Index.FREE_PHOTO_LIMIT) with (VNum 3) in Hrem. rewrite Hlim in Hrem.
  fold (Index.photoScansUsedOf d') in Hrem.
  destruct (Index.photoScansUsedOf d') as [u | | |] eqn:Eu; try discriminate.
  cbn in Hrem. injection Hrem as <-.
  (* the first request normalises; from there on the record is normalised *)
  set (w1 := mkWorld (Some d') (usageLogs w) (warnings w)).
  assert (Hsame : run_sequentially env Index.callClaudeVision reqs w =
                  run_sequentially env Index.callClaudeVision reqs w1).
  { destruct Hall as [| req rest [uid Hacc] Hrest]; [simpl in HN; lia|].
    cbn [run_sequentially].
    rewrite (exec_callClaudeVision_existing env w w1 d d' req uid Hacc Hw Hex).
    rewrite (exec_callClaudeVision_existing env w1 w1 d' d' req uid Hacc eq_refl
               (ensurePhoto_normalised env w1 d' Hn')).
    reflexivity. }
  rewrite Hsame.
  destruct (sequential_normalised env result m Hkey Hprov Hlog reqs Hall w1 d' u
              eq_refl Hn' Eu) as [H1 H2].
  cbv zeta. rewrite H1, H2.
  repeat split; try lia.
  intros u' [= <-] Hu. lia.
Qed.
(** ** The properties on the sample inputs *)

Lemma photo_request_accepted : accepted photo_request "user-1".
Proof.
  repeat split; try reflexivity; try discriminate.
  apply (bool_decide_unpack _). vm_compute. exact I.
Qed.

Lemma lifetime_photo_request_accepted :
  acceptedLifetimeVision lifetime_photo_request "user-1" "aGVsbG8=" "receipt" "device-B".
Proof.
  repeat split; try reflexivity; try discriminate.
  apply (bool_decide_unpack _). vm_compute. exact I.
Qed.

Lemma answering_env_answers (expires : Z) :
  providerAnswers (answering_env expires) sample_result "claude-sonnet-4-5-20250929".
Proof. exists None. reflexivity. Qed.

Lemma log_fault_env_answers :
  providerAnswers log_fault_env sample_result "claude-sonnet-4-5-20250929".
Proof. exists None. reflexivity. Qed.

Lemma failing_env_fails : providerFails failing_env.
Proof. left. eexists. reflexivity. Qed.

Lemma exhausted_free_request_is_rejected_without_charge_witness :
  ∃ e w',
    exec (answering_env 0) (Index.callClaudeVision photo_request)
         (world_of (free_record "2025-06" 3)) = (inl (EHttps e), w') ∧
    code e = resource_exhausted ∧
    details e !! "limit" = Some (Index.photoScansLimitOf (free_record "2025-06" 3)) ∧
    details e !! "tier" = Some (VStr "free") ∧
    stored w' "photoScansUsed" = stored (world_of (free_record "2025-06" 3)) "photoScansUsed" ∧
    stored w' "lifetimeAPIRequests" =
      stored (world_of (free_record "2025-06" 3)) "lifetimeAPIRequests" ∧
    stored w' "monthlyTokens" = stored (world_of (free_record "2025-06" 3)) "monthlyTokens" ∧
    usageLogs w' = usageLogs (world_of (free_record "2025-06" 3)).
Proof.
  apply (exhausted_free_request_is_rejected_without_charge (answering_env 0)
           (world_of (free_record "2025-06" 3)) (free_record "2025-06" 3)
           (free_record "2025-06" 3) photo_request "user-1").
  - exact photo_request_accepted.
  - reflexivity.
  - reflexivity.
  - reflexivity.
  - reflexivity.
Defined.

Lemma stale_period_rolls_over_and_request_is_served_witness :
  (∃ (P : Patch) (userData : Doc) (w1 : World),
     writes (answering_env 0) (Index.ensureMonthlyPhotoReset (free_record "2025-05" 3))
            (world_of (free_record "2025-05" 3)) = [P] ∧
     P !! "photoScansUsed" = Some (FSet (VNum 0)) ∧
     P !! "photoScansDayKey" = Some (FSet (VStr (monthKey (answering_env 0)))) ∧
     exec (answering_env 0) (Index.ensureMonthlyPhotoReset (free_record "2025-05" 3))
          (world_of (free_record "2025-05" 3)) = (inr userData, w1) ∧
     stored w1 "photoScansUsed" = Some (VNum 0) ∧
     stored w1 "photoScansDayKey" = Some (VStr (monthKey (answering_env 0)))) ∧
  ∃ (r : Index.VisionResult) (w' : World),
     exec (answering_env 0) (Index.callClaudeVision photo_request)
          (world_of (free_record "2025-05" 3)) = (inr r, w') ∧
     Index.remainingScans r = Some 2 ∧
     stored w' "photoScansUsed" = Some (VNum 1) ∧
     stored w' "photoScansDayKey" = Some (VStr (monthKey (answering_env 0))).
Proof.
  apply (stale_period_rolls_over_and_request_is_served (answering_env 0)
           (world_of (free_record "2025-05" 3)) (free_record "2025-05" 3)
           photo_request "user-1" sample_result "claude-sonnet-4-5-20250929").
  - exact photo_request_accepted.
  - reflexivity.
  - reflexivity.
  - vm_compute. discriminate.
  - vm_compute. discriminate.
  - exact (answering_env_answers 0).
  - reflexivity.
Defined.

Lemma provider_failure_charges_nothing_witness :
  (∃ msg,
     exec failing_env (Index.callClaudeVision photo_request)
          (world_of (free_record "2025-06" 0)) =
       (inl (https internal msg), world_of (free_record "2025-06" 0))) ∧
  userDoc (world_of (free_record "2025-06" 0)) = Some (free_record "2025-06" 0) ∧
  stored (world_of (free_record "2025-06" 0)) "photoScansUsed" =
    free_record "2025-06" 0 !! "photoScansUsed" ∧
  world_of (free_record "2025-06" 0) = world_of (free_record "2025-06" 0).
Proof.
  destruct (provider_failure_charges_nothing failing_env
              (world_of (free_record "2025-06" 0)) (world_of (free_record "2025-06" 0))
              (free_record "2025-06" 0) (free_record "2025-06" 0) photo_request "user-1" 3)
    as (Hfails & Hdoc & Hused & Hsame).
  - exact photo_request_accepted.
  - reflexivity.
  - reflexivity.
  - reflexivity.
  - reflexivity.
  - lia.
  - vm_compute. discriminate.
  - exact failing_env_fails.
  - split; [exact Hfails|]. split; [exact Hdoc|]. split; [exact Hused|].
    apply Hsame. repeat split; reflexivity.
Defined.

(** C2, as the specification has it, fails: the record has three scans left,
    the request passes the limit check, the provider answers every model with
    a 500, and the stored counter is 0 afterwards, not 1. *)
Lemma failed_provider_call_is_not_charged :
  accepted photo_request "user-1" ∧
  free_record "2025-06" 0 !! "subscriptionTier" = Some (VStr "free") ∧
  Index.remainingPhotoScans (free_record "2025-06" 0) = Some 3 ∧
  providerFails failing_env ∧
  exec failing_env (Index.callClaudeVision photo_request)
       (world_of (free_record "2025-06" 0)) =
    (inl (https internal "Claude API error: Internal Server Error"),
     world_of (free_record "2025-06" 0)) ∧
  stored (snd (exec failing_env (Index.callClaudeVision photo_request)
                 (world_of (free_record "2025-06" 0)))) "photoScansUsed"
    = Some (VNum 0).
Proof.
  split; [exact photo_request_accepted|].
  split; [reflexivity|].
  split; [reflexivity|].
  split; [exact failing_env_fails|].
  split; reflexivity.
Qed.
Lemma log_fault_fails_the_served_request_witness :
  let charged :=
    apply_patch (now log_fault_env)
      (Index.usageUpdate (input_tokens sample_result + output_tokens sample_result))
      (free_record "2025-06" 0) in
  exec log_fault_env (Index.callClaudeVision photo_request)
       (world_of (free_record "2025-06" 0)) =
    (inl (https internal "usage_logs unavailable"),
     mkWorld (Some charged) (usageLogs (world_of (free_record "2025-06" 0)))
             (warnings (world_of (free_record "2025-06" 0)))) ∧
  charged !! "photoScansUsed" =
    Some (VNum (match free_record "2025-06" 0 !! "photoScansUsed" with
                | Some (VNum n) => n + 1
                | _ => 1
                end)).
Proof.
  apply (log_fault_fails_the_served_request log_fault_env
           (world_of (free_record "2025-06" 0)) (world_of (free_record "2025-06" 0))
           (free_record "2025-06" 0) (free_record "2025-06" 0)
           photo_request "user-1" sample_result "claude-sonnet-4-5-20250929"
           "usage_logs unavailable").
  - exact photo_request_accepted.
  - reflexivity.
  - reflexivity.
  - eexists; reflexivity.
  - split; right; eexists; reflexivity.
  - reflexivity.
  - vm_compute. discriminate.
  - exact log_fault_env_answers.
  - reflexivity.
Defined.

(** C8, as the specification has it, fails: the provider call succeeds, the
    usage-log write is rejected, and the caller gets an [internal] error
    instead of the result, after the counter has gone from 0 to 1. *)
Lemma log_fault_masks_a_served_request :
  accepted photo_request "user-1" ∧
  providerAnswers log_fault_env sample_result "claude-sonnet-4-5-20250929" ∧
  passesLimit (free_record "2025-06" 0) ∧
  fst (exec log_fault_env (Index.callClaudeVision photo_request)
         (world_of (free_record "2025-06" 0))) =
    inl (https internal "usage_logs unavailable") ∧
  stored (snd (exec log_fault_env (Index.callClaudeVision photo_request)
                 (world_of (free_record "2025-06" 0)))) "photoScansUsed"
    = Some (VNum 1).
Proof.
  split; [exact photo_request_accepted|].
  split; [exact log_fault_env_answers|].
  repeat split; reflexivity.
Qed.

Lemma pro_is_never_quota_rejected_witness :
  passesLimit pro_record ∧
  (∀ e w', exec (answering_env 0) (Index.callClaudeVision photo_request)
             (world_of pro_record) = (inl (EHttps e), w') →
           code e ≠ resource_exhausted) ∧
  ∃ w', exec (answering_env 0) (Index.callClaudeVision photo_request)
          (world_of pro_record) =
          (inr (Index.visionAnswer (str_or (Index.photoType photo_request) "note")
                  pro_record sample_result), w').
Proof.
  destruct (pro_is_never_quota_rejected (answering_env 0) (world_of pro_record)
              pro_record photo_request "user-1") as (Hpass & Hnever & Hserved).
  - exact photo_request_accepted.
  - reflexivity.
  - reflexivity.
  - split; [exact Hpass|]. split; [exact Hnever|].
    apply (Hserved sample_result "claude-sonnet-4-5-20250929"%string).
    + vm_compute. discriminate.
    + exact (answering_env_answers 0).
    + reflexivity.
Defined.

Lemma verification_overwrites_the_tier_witness :
  let active := bool_decide (now (answering_env 5000) < 5000) in
  let tier := (if active then "pro" else "free")%string in
  ∃ d',
    exec (answering_env 5000) (Index.verifySubscription sample_library verify_request)
         (world_of (free_record "2025-06" 3)) =
      (inr {| Index.success := true;
              Index.isActive := active;
              Index.expiresAt := 5000;
              Index.resTier := tier |},
       mkWorld (Some d') (usageLogs (world_of (free_record "2025-06" 3)))
               (warnings (world_of (free_record "2025-06" 3)))) ∧
    d' !! "subscriptionTier" = Some (VStr tier) ∧
    d' !! "subscriptionExpiresAt" = Some (VTime 5000) ∧
    d' !! "subscriptionProductId" = Some (VStr "notae.pro.monthly") ∧
    d' !! "subscriptionVerifiedAt" = Some (VTime (now (answering_env 5000))) ∧
    (∀ k : string,
       k ≠ "subscriptionTier"%string → k ≠ "subscriptionExpiresAt"%string →
       k ≠ "subscriptionProductId"%string → k ≠ "subscriptionVerifiedAt"%string →
       d' !! k = free_record "2025-06" 3 !! k).
Proof.
  apply (verification_overwrites_the_tier sample_library (answering_env 5000)
           (world_of (free_record "2025-06" 3)) (free_record "2025-06" 3)
           verify_request "user-1" "eyJhbGciOiJFUzI1NiJ9.e30.c2ln" (sample_payload 5000)
           5000 "notae.pro.monthly").
  - reflexivity.
  - reflexivity.
  - discriminate.
  - reflexivity.
  - reflexivity.
  - reflexivity.
  - lia.
  - reflexivity.
Defined.




Lemma sequential_requests_consume_exactly_the_allowance_witness :
  let outs :=
    fst (run_sequentially (answering_env 0) Index.callClaudeVision
           [photo_request; photo_request; photo_request]
           (world_of (free_record "2025-06" 1))) in
  length (List.filter isServed outs) = Z.to_nat 2 ∧
  length (List.filter isQuotaRejected outs) =
    (length [photo_request; photo_request; photo_request] - Z.to_nat 2)%nat ∧
  (length (List.filter isServed outs) ≤ 3)%nat.
Proof.
  destruct (sequential_requests_consume_exactly_the_allowance (answering_env 0)
              (world_of (free_record "2025-06" 1)) (free_record "2025-06" 1)
              (free_record "2025-06" 1) [photo_request; photo_request; photo_request]
              sample_result "claude-sonnet-4-5-20250929" 2) as (Hserved & Hrefused & Hcap).
  - repeat constructor; exists "user-1"%string; exact photo_request_accepted.
  - reflexivity.
  - reflexivity.
  - reflexivity.
  - reflexivity.
  - vm_compute. discriminate.
  - exact (answering_env_answers 0).
  - reflexivity.
  - simpl. lia.
  - split; [exact Hserved|]. split; [exact Hrefused|].
    apply (Hcap 1); [reflexivity | lia].
Defined.

(** C1, as the specification has it, fails: the record has one scan left,
    two requests are in flight and take their steps in turn; both read the
    counter at 2 before either increments it, both are served, and the
    counter ends at 4 with a limit of 3. *)
Lemma two_racing_requests_are_both_served :
  free_record "2025-06" 2 !! "subscriptionTier" = Some (VStr "free") ∧
  Index.remainingPhotoScans (free_record "2025-06" 2) = Some 1 ∧
  length racing_threads = 2%nat ∧
  map finishedServed
      (fst (run_schedule race_schedule racing_threads
              (world_of (free_record "2025-06" 2)))) = [true; true] ∧
  stored (snd (run_schedule race_schedule racing_threads
                 (world_of (free_record "2025-06" 2)))) "photoScansUsed"
    = Some (VNum 4) ∧
  stored (snd (run_schedule race_schedule racing_threads
                 (world_of (free_record "2025-06" 2)))) "photoScansLimit"
    = Some (VNum 3).
Proof.
  repeat split; reflexivity.
Qed.

(** ** Voice actions in [index.js] *)

(** The voice handler of [index.js] computes limit and counter but never
    compares them: a free record that is already over its limit is served
    again, and charged again. *)
Lemma voice_request_is_served_over_the_limit :
  voice_over_limit !! "subscriptionTier" = Some (VStr "free") ∧
  isServed (fst (exec (answering_env 0) (Index.callWhisperProxy voice_request)
                   (world_of voice_over_limit))) = true ∧
  stored (snd (exec (answering_env 0) (Index.callWhisperProxy voice_request)
                 (world_of voice_over_limit))) "voiceActionsUsed" = Some (VNum 10) ∧
  stored (snd (exec (answering_env 0) (Index.callWhisperProxy voice_request)
                 (world_of voice_over_limit))) "voiceActionsLimit" = Some (VNum 7).
Proof. repeat split; reflexivity. Qed.

Lemma exec_bind_no_quota {A B : Type} (env : Env) (p : Prog A) (f : A → Prog B) (w : World) :
  (∀ e w', exec env p w = (inl e, w') → quotaExn e = false) →
  (∀ a w1 e w', exec env (f a) w1 = (inl e, w') → quotaExn e = false) →
  ∀ e w', exec env (bind p f) w = (inl e, w') → quotaExn e = false.
Proof.
  intros Hp Hf e w'. rewrite exec_bind.
  destruct (exec env p w) as [[e1 | a] w1] eqn:E.
  - intros [= <- <-]. eapply Hp. reflexivity.
  - apply Hf.
Qed.

Lemma perform_no_quota {X : Type} (env : Env) (eff : Eff X) (w : World) (e : Exn) (w' : World) :
  exec env (perform eff) w = (inl e, w') → quotaExn e = false.
Proof.
  unfold perform. cbn [exec]. destruct (handle env eff w) as [[msg | x] w1]; cbn [exec].
  - intros [= <- _]. reflexivity.
  - discriminate.
Qed.

Ltac no_quota :=
  repeat first
    [ progress intros
    | match goal with
      | H : exec _ (Ret _) _ = (inl _, _) |- _ => discriminate H
      | H : exec _ (Throw _) _ = (inl ?e, _) |- quotaExn ?e = false =>
          cbn [exec] in H; injection H as <- _; reflexivity
      | H : exec _ (perform _) _ = (inl ?e, _) |- quotaExn ?e = false =>
          exact (perform_no_quota _ _ _ _ _ H)
      | H : exec _ (bind _ _) _ = (inl ?e, _) |- quotaExn ?e = false =>
          revert H; apply exec_bind_no_quota
      | H : exec _ (match ?x with _ => _ end) _ = (inl _, _) |- _ => destruct x
      | H : exec _ (if ?x then _ else _) _ = (inl _, _) |- _ => destruct x
      end ].

Lemma ensureVoice_no_quota (env : Env) (d : Doc) (w : World) (e : Exn) (w' : World) :
  exec env (Index.ensureMonthlyVoiceReset d) w = (inl e, w') → quotaExn e = false.
Proof. unfold Index.ensureMonthlyVoiceReset, Index.getMonthKey. no_quota. Qed.

Lemma loadVoice_no_quota (env : Env) (dev : string) (w : World) (e : Exn) (w' : World) :
  exec env (Index.loadVoiceData dev) w = (inl e, w') → quotaExn e = false.
Proof. unfold Index.loadVoiceData, Index.getMonthKey. no_quota. Qed.

Lemma serveVoice_no_quota (env : Env) (uid dev : string) (d : Doc) (w : World)
  (e : Exn) (w' : World) :
  exec env (Index.serveVoice uid dev d) w = (inl e, w') → quotaExn e = false.
Proof. unfold Index.serveVoice. no_quota. Qed.

(** No outcome of the voice handler is a quota rejection. *)
Lemma voice_request_is_never_quota_rejected (env : Env) (w : World)
  (req : Index.WhisperRequest) :
  isQuotaRejected (fst (exec env (Index.callWhisperProxy req) w)) = false.
Proof.
  unfold Index.callWhisperProxy.
  destruct (Index.wAuth req) as [uid|]; [|reflexivity].
  destruct (String.eqb _ ""); [reflexivity|].
  destruct (bool_decide _); [reflexivity|].
  rewrite exec_try_catch.
  destruct (exec env (Index.whisperBody uid req) w) as [[e | r] w'] eqn:E; [|reflexivity].
  assert (Hq : quotaExn e = false).
  { revert E. unfold Index.whisperBody.
    apply exec_bind_no_quota; [apply loadVoice_no_quota|]. intros ud w1 e1 w1'.
    apply exec_bind_no_quota; [apply ensureVoice_no_quota|]. intros ud' w2 e2 w2'.
    apply serveVoice_no_quota. }
  destruct e as [h | msg]; [exact Hq | reflexivity].
Qed.
(** * Further properties of the handlers *)

(** ** The provider calls a request makes *)

Lemma fetched_bind {A B : Type} (env : Env) (p : Prog A) (f : A → Prog B) (w : World) :
  fetched env (bind p f) w =
  fetched env p w ++
  match exec env p w with
  | (inl _, _) => []
  | (inr a, w') => fetched env (f a) w'
  end.
Proof.
  revert w. induction p as [a | e | X e k IH]; intros w; simpl.
  - reflexivity.
  - reflexivity.
  - destruct (handle env e w) as [r w']. rewrite IH, app_assoc. reflexivity.
Qed.

Lemma fetched_try_catch {A : Type} (env : Env) (p : Prog A) (h : Exn → Prog A) (w : World) :
  fetched env (try_catch p h) w =
  fetched env p w ++
  match exec env p w with
  | (inl e, w') => fetched env (h e) w'
  | (inr _, _) => []
  end.
Proof.
  revert w. induction p as [a | e | X e k IH]; intros w; simpl.
  - reflexivity.
  - reflexivity.
  - destruct (handle env e w) as [r w']. rewrite IH, app_assoc. reflexivity.
Qed.

(** One turn of the loop on a model that is passed over. *)
Lemma tryModel_passedOver (env : Env) (model : string) (l : option string) (w : World) :
  passedOver env model = true →
  ∃ t, exec env (Index.tryModel model l) w = (inr (Index.Continue (Some t)), w) ∧
       fetched env (Index.tryModel model l) w = [model] ∧
       (∀ response, upstream env model = inr response → ok response = false →
                    t = text response).
Proof.
  unfold passedOver, Index.tryModel. intros H.
  cbn [try_catch bind perform exec fetched handle fetch_of].
  destruct (upstream env model) as [msg | response] eqn:Eu; cbn in H |- *.
  - apply negb_true_iff in H. rewrite H. exists msg. repeat split. intros ? [=].
  - destruct (ok response) eqn:Eok; cbn in H |- *.
    + destruct (json response); [discriminate |]. cbn in H |- *.
      apply negb_true_iff in H. rewrite H.
      exists "invalid json response body"%string. repeat split.
      intros r [= <-]. congruence.
    + rewrite H. cbn. exists (text response). repeat split.
      intros r [= <-] _. reflexivity.
Qed.

Lemma tryModel_answers (env : Env) (model : string) (l : option string) (w : World)
  (result : ApiResult) :
  modelAnswers env model result →
  exec env (Index.tryModel model l) w = (inr (Index.Break result model), w) ∧
  fetched env (Index.tryModel model l) w = [model].
Proof.
  intros (response & Eu & Eok & Ej). unfold Index.tryModel.
  cbn [try_catch bind perform exec fetched handle fetch_of].
  rewrite Eu. cbn. rewrite Eok. cbn. rewrite Ej. cbn. split; reflexivity.
Qed.

Lemma tryModel_refuses (env : Env) (model : string) (l : option string) (w : World)
  (response : Response) :
  modelRefuses env model response →
  exec env (Index.tryModel model l) w =
    (inl (https internal ("Claude API error: " +:+ statusText response)), w) ∧
  fetched env (Index.tryModel model l) w = [model].
Proof.
  intros (Eu & Eok & Hs & Hn). unfold Index.tryModel.
  cbn [try_catch bind perform exec fetched handle fetch_of].
  rewrite Eu. cbn. rewrite Eok. cbn. rewrite Hn.
  destruct (status response =? 404) eqn:E; [apply Z.eqb_eq in E; contradiction |].
  cbn. split; reflexivity.
Qed.

(** The loop over a prefix of models that are all passed over. *)
Lemma tryModels_passedOver (env : Env) (pre rest : list string) (w : World) :
  Forall (λ model, passedOver env model = true) pre →
  ∀ l, ∃ l',
    exec env (Index.tryModels (pre ++ rest) l) w = exec env (Index.tryModels rest l') w ∧
    fetched env (Index.tryModels (pre ++ rest) l) w =
      pre ++ fetched env (Index.tryModels rest l') w ∧
    (pre = [] → l' = l) ∧
    (∀ response, (upstream env <$> last pre) = Some (inr response) → ok response = false →
                 l' = Some (text response)).
Proof.
  induction 1 as [| model pre Hm Hpre IH]; intros l.
  - exists l. repeat split; try reflexivity. intros ? [=].
  - destruct (tryModel_passedOver env model l w Hm) as (t & Ex & Ef & Ht).
    destruct (IH (Some t)) as (l' & Ex' & Ef' & Hnil & Hlast).
    exists l'. cbn [app Index.tryModels].
    rewrite exec_bind, fetched_bind, Ex, Ef. cbn [app]. rewrite Ex', Ef'.
    repeat split; [discriminate |].
    intros response Hl Hok. destruct pre as [| m' pre'].
    + cbn in Hl. injection Hl as Hl. rewrite (Hnil eq_refl). f_equal. apply Ht; assumption.
    + apply Hlast; [| assumption]. rewrite last_cons_cons in Hl. exact Hl.
Qed.

Lemma exec_callProvider_loop (env : Env) (w : World) :
  secret env ≠ ""%string →
  exec env Index.callProvider w =
  match exec env (Index.tryModels Index.modelFallbacks None) w with
  | (inl e, w') => (inl e, w')
  | (inr (None, l), w') =>
      (inl (https internal
         ("Claude API error: " +:+ default "Unknown error"
            (l ≫= λ t, if String.eqb t "" then None else Some t))), w')
  | (inr (Some answer, _), w') => (inr answer, w')
  end ∧
  fetched env Index.callProvider w = fetched env (Index.tryModels Index.modelFallbacks None) w.
Proof.
  intros Hs. unfold Index.callProvider. rewrite exec_bind, fetched_bind, exec_secret.
  cbn [fetched perform handle fetch_of app].
  destruct (String.eqb (secret env) "") eqn:E; [apply String.eqb_eq in E; contradiction |].
  rewrite exec_bind, fetched_bind.
  destruct (exec env (Index.tryModels Index.modelFallbacks None) w) as [[e | [[answer |] l]] w'];
    cbn; rewrite ?app_nil_r; split; reflexivity.
Qed.

(** X1. The fallback loop of [callClaudeVision] uses the first model of the
    list that is not passed over: when every model before [m] is passed over
    and the provider answers [m], the provider stage returns that answer
    with [m] as the model used, and the models after [m] are never called. *)
Theorem first_answering_model_is_used (env : Env) (w : World) (pre post : list string)
  (m : string) (result : ApiResult) :
  Index.modelFallbacks = pre ++ m :: post →
  secret env ≠ ""%string →
  Forall (λ model, passedOver env model = true) pre →
  modelAnswers env m result →
  exec env Index.callProvider w = (inr (result, m), w) ∧
  fetched env Index.callProvider w = pre ++ [m].
Proof.
  intros Hsplit Hs Hpre Hm.
  destruct (exec_callProvider_loop env w Hs) as [-> ->]. rewrite Hsplit.
  destruct (tryModels_passedOver env pre (m :: post) w Hpre None) as (l' & -> & -> & _).
  cbn [Index.tryModels]. rewrite exec_bind, fetched_bind.
  destruct (tryModel_answers env m l' w result Hm) as [-> ->].
  cbn. split; reflexivity.
Qed.

Lemma first_answering_model_is_used_witness :
  exec fallback_env Index.callProvider (world_of (free_record "2025-06" 0)) =
    (inr (sample_result, "claude-haiku-4-5-20251001"%string),
     world_of (free_record "2025-06" 0)) ∧
  fetched fallback_env Index.callProvider (world_of (free_record "2025-06" 0)) =
    ["claude-sonnet-4-5-20250929"; "claude-sonnet-4-20250514"]%string
    ++ ["claude-haiku-4-5-20251001"%string].
Proof.
  apply (first_answering_model_is_used fallback_env (world_of (free_record "2025-06" 0))
           ["claude-sonnet-4-5-20250929"; "claude-sonnet-4-20250514"]%string
           ["claude-3-5-haiku-20241022"; "claude-3-haiku-20240307"]%string
           "claude-haiku-4-5-20251001" sample_result).
  - reflexivity.
  - discriminate.
  - repeat constructor.
  - exists ok_response. repeat split.
Defined.

(** X2. A failure status that is not a missing model ends the fallback: when
    every model before [m] is passed over and the provider refuses [m] with a
    status other than 404 and a body that does not mention [not_found], the
    provider stage fails with [internal] and the status text, and the models
    after [m] are never called. *)
Theorem refused_model_ends_the_fallback (env : Env) (w : World) (pre post : list string)
  (m : string) (response : Response) :
  Index.modelFallbacks = pre ++ m :: post →
  secret env ≠ ""%string →
  Forall (λ model, passedOver env model = true) pre →
  modelRefuses env m response →
  exec env Index.callProvider w =
    (inl (https internal ("Claude API error: " +:+ statusText response)), w) ∧
  fetched env Index.callProvider w = pre ++ [m].
Proof.
  intros Hsplit Hs Hpre Hm.
  destruct (exec_callProvider_loop env w Hs) as [-> ->]. rewrite Hsplit.
  destruct (tryModels_passedOver env pre (m :: post) w Hpre None) as (l' & -> & -> & _).
  cbn [Index.tryModels]. rewrite exec_bind, fetched_bind.
  destruct (tryModel_refuses env m l' w response Hm) as [-> ->].
  cbn. split; reflexivity.
Qed.

Lemma refused_model_ends_the_fallback_witness :
  exec refusing_env Index.callProvider (world_of (free_record "2025-06" 0)) =
    (inl (https internal ("Claude API error: " +:+ statusText error_response)),
     world_of (free_record "2025-06" 0)) ∧
  fetched refusing_env Index.callProvider (world_of (free_record "2025-06" 0)) =
    ["claude-sonnet-4-5-20250929"%string] ++ ["claude-sonnet-4-20250514"%string].
Proof.
  apply (refused_model_ends_the_fallback refusing_env (world_of (free_record "2025-06" 0))
           ["claude-sonnet-4-5-20250929"%string]
           ["claude-haiku-4-5-20251001"; "claude-3-5-haiku-20241022";
            "claude-3-haiku-20240307"]%string
           "claude-sonnet-4-20250514" error_response).
  - reflexivity.
  - discriminate.
  - repeat constructor.
  - repeat split. discriminate.
Defined.

(** X3. When every model of the list is passed over, the provider stage has
    called each of them once, in the order of the list, and fails with
    [internal]; the message carries the body of the last model's failure, or
    [Unknown error] when that body is empty. *)
Theorem exhausted_fallback_reports_the_last_failure (env : Env) (w : World) :
  secret env ≠ ""%string →
  Forall (λ model, passedOver env model = true) Index.modelFallbacks →
  ∃ response,
    upstream env "claude-3-haiku-20240307" = inr response ∧
    ok response = false ∧
    exec env Index.callProvider w =
      (inl (https internal
         ("Claude API error: " +:+
            (if String.eqb (text response) "" then "Unknown error" else text response))), w) ∧
    fetched env Index.callProvider w = Index.modelFallbacks.
Proof.
  intros Hs Hall.
  assert (Hlast : passedOver env "claude-3-haiku-20240307" = true).
  { rewrite Forall_forall in Hall. apply Hall. unfold Index.modelFallbacks.
    set_solver. }
  unfold passedOver in Hlast.
  destruct (upstream env "claude-3-haiku-20240307") as [msg | response] eqn:Eu;
    [discriminate Hlast |].
  destruct (ok response) eqn:Eok.
  { destruct (json response); discriminate Hlast. }
  exists response. split; [reflexivity |]. split; [exact Eok |].
  destruct (exec_callProvider_loop env w Hs) as [-> ->].
  destruct (tryModels_passedOver env Index.modelFallbacks [] w Hall None)
    as (l' & Ex & Ef & _ & Hl).
  rewrite app_nil_r in Ex, Ef. rewrite Ex, Ef. cbn [Index.tryModels exec fetched].
  rewrite app_nil_r. split; [| reflexivity].
  rewrite (Hl response); [| cbn; rewrite Eu; reflexivity | exact Eok].
  cbn. destruct (String.eqb (text response) ""); reflexivity.
Qed.

Lemma exhausted_fallback_reports_the_last_failure_witness :
  ∃ response,
    upstream retired_env "claude-3-haiku-20240307" = inr response ∧
    ok response = false ∧
    exec retired_env Index.callProvider (world_of (free_record "2025-06" 0)) =
      (inl (https internal
         ("Claude API error: " +:+
            (if String.eqb (text response) "" then "Unknown error" else text response))),
       world_of (free_record "2025-06" 0)) ∧
    fetched retired_env Index.callProvider (world_of (free_record "2025-06" 0)) =
      Index.modelFallbacks.
Proof.
  apply (exhausted_fallback_reports_the_last_failure retired_env
           (world_of (free_record "2025-06" 0))).
  - discriminate.
  - repeat constructor.
Defined.

(** ** The rollover, for voice as for photo *)

Lemma voice_patch_applied (t : Z) (b : bool) (used : Value) (mk : string) (d : Doc) :
  apply_patch t
    (spread_if b {[ "voiceActionsLimit" := FSet (VNum Index.FREE_VOICE_LIMIT) ]}
     ∪ {[ "voiceActionsUsed" := FSet used; "voiceActionsDayKey" := FSet (VStr mk) ]}) d =
  (if b then <[ "voiceActionsLimit" := VNum Index.FREE_VOICE_LIMIT ]>
           (<[ "voiceActionsDayKey" := VStr mk ]> (<[ "voiceActionsUsed" := used ]> d))
   else <[ "voiceActionsDayKey" := VStr mk ]> (<[ "voiceActionsUsed" := used ]> d)).
Proof.
  apply map_eq. intros k. rewrite lookup_apply_patch.
  destruct (decide (k = "voiceActionsLimit"%string)) as [-> | Hl];
    [destruct b; simplify_map_eq; done |].
  destruct (decide (k = "voiceActionsDayKey"%string)) as [-> | Hk];
    [destruct b; simplify_map_eq; done |].
  destruct (decide (k = "voiceActionsUsed"%string)) as [-> | Hu];
    [destruct b; simplify_map_eq; done |].
  destruct b; simpl; rewrite ?lookup_union; simplify_map_eq; done.
Qed.

(** What the voice rollover does to a record that is not [pro]. *)
Lemma exec_ensureVoice_nonpro (env : Env) (w : World) (d : Doc) :
  userDoc w = Some d →
  d !! "subscriptionTier" ≠ Some (VStr "pro") →
  ∃ d',
    exec env (Index.ensureMonthlyVoiceReset d) w =
      (inr d', mkWorld (Some d') (usageLogs w) (warnings w)) ∧
    d' !! "voiceActionsDayKey" = Some (VStr (monthKey env)) ∧
    js_or (d' !! "voiceActionsLimit") (VNum 7) = VNum 7 ∧
    (∀ k : string, k ≠ "voiceActionsUsed"%string → k ≠ "voiceActionsDayKey"%string →
         k ≠ "voiceActionsLimit"%string → d' !! k = d !! k) ∧
    js_or (d' !! "voiceActionsUsed") (VNum 0) =
      (if strict_ne (d !! "voiceActionsDayKey") (Some (VStr (monthKey env)))
       then VNum 0 else js_or (d !! "voiceActionsUsed") (VNum 0)).
Proof.
  intros Hw Ht.
  unfold Index.ensureMonthlyVoiceReset.
  rewrite exec_bind, exec_getMonthKey. cbv beta iota.
  assert (Hpro : strict_ne (Some (js_or (d !! "subscriptionTier") (VStr "free")))
                   (Some (VStr "pro")) = true).
  { apply strict_ne_true. intros [= E]. apply Ht, tier_or_free_pro, E. }
  rewrite Hpro. cbn [andb].
  remember (strict_ne (Some (js_or (d !! "voiceActionsLimit") (VNum Index.FREE_VOICE_LIMIT)))
                 (Some (VNum Index.FREE_VOICE_LIMIT))) as fix_ eqn:Efix.
  remember (strict_ne (d !! "voiceActionsDayKey") (Some (VStr (monthKey env))))
    as stale eqn:Estale.
  assert (Hfix : fix_ = false → js_or (d !! "voiceActionsLimit") (VNum 7) = VNum 7).
  { rewrite Efix. unfold strict_ne, strict_eq. intros H. apply negb_false_iff in H.
    apply bool_decide_eq_true in H. injection H as H. exact H. }
  assert (Hstale : stale = false → d !! "voiceActionsDayKey" = Some (VStr (monthKey env))).
  { rewrite Estale. unfold strict_ne, strict_eq. intros H. apply negb_false_iff in H.
    apply bool_decide_eq_true in H. exact H. }
  clear Efix Estale.
  destruct (stale || fix_) eqn:Hor.
  - rewrite exec_bind, (exec_update _ _ _ _ Hw). cbv beta iota. cbn [exec usageLogs warnings].
    rewrite voice_patch_applied.
    destruct fix_ eqn:Ef; (eexists; split; [reflexivity|]).
    all: split; [simplify_map_eq; done|].
    all: split; [simplify_map_eq; auto|].
    all: split; [intros k H1 H2 H3; simplify_map_eq; done|].
    all: simplify_map_eq; destruct stale; [done | apply js_or_idem].
  - apply orb_false_iff in Hor as [Hs Hf]. rewrite Hs. simpl.
    assert (mkWorld (Some d) (usageLogs w) (warnings w) = w) as Hweq
      by (destruct w; simpl in *; congruence).
    exists d. rewrite Hweq.
    repeat split; auto.
Qed.

(** On a settled record a rollover does nothing. *)
Lemma ensurePhoto_settled (env : Env) (w : World) (d : Doc) :
  photoSettled env d →
  exec env (Index.ensureMonthlyPhotoReset d) w = (inr d, w) ∧
  writes env (Index.ensureMonthlyPhotoReset d) w = [].
Proof.
  intros [Hp | [Hk Hl]].
  - destruct (ensure_pro_is_identity env w d Hp) as (_ & _ & ? & ?). split; assumption.
  - unfold Index.ensureMonthlyPhotoReset.
    rewrite exec_bind, writes_bind, exec_getMonthKey. cbv beta iota.
    rewrite Hk, strict_ne_same, Hl, strict_ne_same, !andb_false_r.
    split; reflexivity.
Qed.

Lemma ensureVoice_settled (env : Env) (w : World) (d : Doc) :
  voiceSettled env d →
  exec env (Index.ensureMonthlyVoiceReset d) w = (inr d, w) ∧
  writes env (Index.ensureMonthlyVoiceReset d) w = [].
Proof.
  intros [Hp | [Hk Hl]].
  - destruct (ensure_pro_is_identity env w d Hp) as (? & ? & _). split; assumption.
  - unfold Index.ensureMonthlyVoiceReset.
    rewrite exec_bind, writes_bind, exec_getMonthKey. cbv beta iota.
    rewrite Hk, strict_ne_same, Hl, strict_ne_same, !andb_false_r.
    split; reflexivity.
Qed.

(** A rollover settles the record, stores what it returns, and leaves every
    field but its own three as it was. *)
Lemma exec_ensurePhoto_settles (env : Env) (w : World) (d : Doc) :
  userDoc w = Some d →
  ∃ d',
    exec env (Index.ensureMonthlyPhotoReset d) w =
      (inr d', mkWorld (Some d') (usageLogs w) (warnings w)) ∧
    photoSettled env d' ∧
    (∀ k : string, k ∉ photoFields → d' !! k = d !! k).
Proof.
  intros Hw.
  destruct (decide (d !! "subscriptionTier" = Some (VStr "pro"))) as [Hp | Hnp].
  - exists d. destruct (ensure_pro_is_identity env w d Hp) as (_ & _ & -> & _).
    split; [destruct w; simpl in *; congruence |]. split; [left; exact Hp | done].
  - destruct (exec_ensurePhoto_nonpro env w d Hw Hnp) as (d' & Hex & Hk & Hl & Hfr & _).
    exists d'. split; [exact Hex |]. split; [right; split; assumption |].
    intros k Hin. apply Hfr; intros ->; apply Hin; unfold photoFields; set_solver.
Qed.

Lemma exec_ensureVoice_settles (env : Env) (w : World) (d : Doc) :
  userDoc w = Some d →
  ∃ d',
    exec env (Index.ensureMonthlyVoiceReset d) w =
      (inr d', mkWorld (Some d') (usageLogs w) (warnings w)) ∧
    voiceSettled env d' ∧
    (∀ k : string, k ∉ voiceFields → d' !! k = d !! k).
Proof.
  intros Hw.
  destruct (decide (d !! "subscriptionTier" = Some (VStr "pro"))) as [Hp | Hnp].
  - exists d. destruct (ensure_pro_is_identity env w d Hp) as (-> & _).
    split; [destruct w; simpl in *; congruence |]. split; [left; exact Hp | done].
  - destruct (exec_ensureVoice_nonpro env w d Hw Hnp) as (d' & Hex & Hk & Hl & Hfr & _).
    exists d'. split; [exact Hex |]. split; [right; split; assumption |].
    intros k Hin. apply Hfr; intros ->; apply Hin; unfold voiceFields; set_solver.
Qed.

(** X4. Each rollover is idempotent and keeps to its own fields: run on an
    existing record it always returns, what it returns is what is stored, all
    fields other than its counter, period key and limit are as before, and a
    second run in the same period on the record it left writes nothing and
    returns that record unchanged. *)
Theorem rollover_is_idempotent (env : Env) (w : World) (d : Doc) :
  userDoc w = Some d →
  (∃ d',
     exec env (Index.ensureMonthlyPhotoReset d) w =
       (inr d', mkWorld (Some d') (usageLogs w) (warnings w)) ∧
     (∀ k : string, k ∉ photoFields → d' !! k = d !! k) ∧
     ∀ w', exec env (Index.ensureMonthlyPhotoReset d') w' = (inr d', w') ∧
           writes env (Index.ensureMonthlyPhotoReset d') w' = []) ∧
  (∃ d',
     exec env (Index.ensureMonthlyVoiceReset d) w =
       (inr d', mkWorld (Some d') (usageLogs w) (warnings w)) ∧
     (∀ k : string, k ∉ voiceFields → d' !! k = d !! k) ∧
     ∀ w', exec env (Index.ensureMonthlyVoiceReset d') w' = (inr d', w') ∧
           writes env (Index.ensureMonthlyVoiceReset d') w' = []).
Proof.
  intros Hw. split.
  - destruct (exec_ensurePhoto_settles env w d Hw) as (d' & Hex & Hs & Hfr).
    exists d'. split; [exact Hex |]. split; [exact Hfr |].
    intros w'. apply ensurePhoto_settled, Hs.
  - destruct (exec_ensureVoice_settles env w d Hw) as (d' & Hex & Hs & Hfr).
    exists d'. split; [exact Hex |]. split; [exact Hfr |].
    intros w'. apply ensureVoice_settled, Hs.
Qed.

(** ** The usage summary of [functions/index.js] *)

(** A field name that is not among the fields of a rollover. *)
Ltac other_field :=
  unfold photoFields, voiceFields; rewrite ?not_elem_of_cons;
  repeat split; try discriminate; apply not_elem_of_nil.

Lemma voiceSettled_frame (env : Env) (d d' : Doc) :
  (∀ k : string, k ∉ photoFields → d' !! k = d !! k) →
  voiceSettled env d → voiceSettled env d'.
Proof.
  intros Hfr. unfold voiceSettled.
  rewrite !Hfr by other_field. done.
Qed.

Lemma exec_summary_load (env : Env) (w : World) (d : Doc) (dev : string) :
  userDoc w = Some d →
  exec env (IndexSummary.loadUserData dev) w = (inr d, w) ∧
  writes env (IndexSummary.loadUserData dev) w = [].
Proof.
  intros Hw. unfold IndexSummary.loadUserData.
  cbn [bind perform exec writes handle write_of app]. rewrite Hw. split; reflexivity.
Qed.

(** The summary of an existing record: both rollovers run, and the numbers
    are read off the record they leave. *)
Lemma exec_getUserUsage_existing (env : Env) (w : World) (d : Doc)
  (req : IndexSummary.UsageRequest) (uid : string) :
  IndexSummary.auth req = Some uid →
  userDoc w = Some d →
  ∃ d',
    exec env (IndexSummary.getUserUsage req) w =
      (inr (IndexSummary.summary d'), mkWorld (Some d') (usageLogs w) (warnings w)) ∧
    voiceSettled env d' ∧ photoSettled env d' ∧
    (∀ k : string, k ∉ voiceFields → k ∉ photoFields → d' !! k = d !! k).
Proof.
  intros Ha Hw. unfold IndexSummary.getUserUsage. rewrite Ha.
  destruct (exec_summary_load env w d (str_or (IndexSummary.deviceID req) "unknown") Hw)
    as [Hload _].
  destruct (exec_ensureVoice_settles env w d Hw) as (d1 & Hex1 & Hs1 & Hfr1).
  destruct (exec_ensurePhoto_settles env (mkWorld (Some d1) (usageLogs w) (warnings w)) d1
              eq_refl) as (d2 & Hex2 & Hs2 & Hfr2).
  exists d2. rewrite exec_bind, Hload, exec_bind, Hex1, exec_bind, Hex2.
  split; [reflexivity |]. split; [eapply voiceSettled_frame; eassumption |].
  split; [assumption |]. intros k Hv Hp. rewrite Hfr2, Hfr1 by assumption. reflexivity.
Qed.

(** On a settled record the summary is a pure read. *)
Lemma getUserUsage_settled (env : Env) (w : World) (d : Doc)
  (req : IndexSummary.UsageRequest) :
  IndexSummary.auth req ≠ None →
  userDoc w = Some d →
  voiceSettled env d → photoSettled env d →
  exec env (IndexSummary.getUserUsage req) w = (inr (IndexSummary.summary d), w) ∧
  writes env (IndexSummary.getUserUsage req) w = [].
Proof.
  intros Ha Hw Hv Hp. unfold IndexSummary.getUserUsage.
  destruct (IndexSummary.auth req) as [uid |]; [| done].
  destruct (exec_summary_load env w d (str_or (IndexSummary.deviceID req) "unknown") Hw)
    as [Hload Hwl].
  destruct (ensureVoice_settled env w d Hv) as [Hev Hwv].
  destruct (ensurePhoto_settled env w d Hp) as [Hep Hwp].
  split.
  - rewrite exec_bind, Hload, exec_bind, Hev, exec_bind, Hep. reflexivity.
  - rewrite writes_bind, Hwl, Hload, writes_bind, Hwv, Hev, writes_bind, Hwp, Hep.
    reflexivity.
Qed.

(** X5. Asking for the usage twice gives the same answer: on an existing
    record [getUserUsage] always answers, and a second query in the same
    period, from any authenticated request, writes nothing, leaves the
    record as the first query left it and returns the same summary. *)
Theorem usage_query_is_idempotent (env : Env) (w : World) (d : Doc)
  (req : IndexSummary.UsageRequest) :
  IndexSummary.auth req ≠ None →
  userDoc w = Some d →
  ∃ s w1,
    exec env (IndexSummary.getUserUsage req) w = (inr s, w1) ∧
    ∀ req', IndexSummary.auth req' ≠ None →
      exec env (IndexSummary.getUserUsage req') w1 = (inr s, w1) ∧
      writes env (IndexSummary.getUserUsage req') w1 = [].
Proof.
  intros Ha Hw. destruct (IndexSummary.auth req) as [uid |] eqn:Eu; [| done].
  destruct (exec_getUserUsage_existing env w d req uid Eu Hw) as (d' & Hex & Hv & Hp & _).
  eexists _, _. split; [exact Hex |].
  intros req' Ha'. apply getUserUsage_settled; [assumption | reflexivity | assumption ..].
Qed.

(** X6. The first usage query of an unknown caller creates the record: it
    stores the eleven default fields with the request's device, the current
    period and the creation time, and reports an untouched allowance of 7
    voice actions and 3 photo scans. The summary is read from the handler's
    local copy of the defaults, which has no [deviceID]: the device is stored
    but not reported. *)
Theorem usage_query_creates_the_record (env : Env) (w : World)
  (req : IndexSummary.UsageRequest) (uid : string) :
  IndexSummary.auth req = Some uid →
  userDoc w = None →
  exec env (IndexSummary.getUserUsage req) w =
    (inr {| IndexSummary.voiceActionsUsed := VNum 0;
            IndexSummary.voiceActionsLimit := VNum 7;
            IndexSummary.remainingVoiceActions := Some 7;
            IndexSummary.photoScansUsed := VNum 0;
            IndexSummary.photoScansLimit := VNum 3;
            IndexSummary.remainingPhotoScans := Some 3;
            IndexSummary.subscriptionTier := VStr "free";
            IndexSummary.lifetimeAPIRequests := VNum 0;
            IndexSummary.monthlyTokens := VNum 0;
            IndexSummary.lastRequestAt := None;
            IndexSummary.resDeviceID := None |},
     mkWorld
       (Some {[ "deviceID" := VStr (str_or (IndexSummary.deviceID req) "unknown");
                "voiceActionsUsed" := VNum 0;
                "voiceActionsLimit" := VNum 7;
                "voiceActionsDayKey" := VStr (monthKey env);
                "photoScansUsed" := VNum 0;
                "photoScansLimit" := VNum 3;
                "photoScansDayKey" := VStr (monthKey env);
                "lifetimeAPIRequests" := VNum 0;
                "monthlyTokens" := VNum 0;
                "subscriptionTier" := VStr "free";
                "createdAt" := VTime (now env) ]})
       (usageLogs w) (warnings w)) ∧
  length (writes env (IndexSummary.getUserUsage req) w) = 1%nat.
Proof.
  intros Ha Hw. unfold IndexSummary.getUserUsage. rewrite Ha.
  destruct w as [ud lg ws]. cbn in Hw. subst ud.
  set (local := ({[ "voiceActionsUsed" := VNum 0;
                    "voiceActionsLimit" := VNum Index.FREE_VOICE_LIMIT;
                    "voiceActionsDayKey" := VStr (monthKey env);
                    "photoScansUsed" := VNum 0;
                    "photoScansLimit" := VNum Index.FREE_PHOTO_LIMIT;
                    "photoScansDayKey" := VStr (monthKey env);
                    "subscriptionTier" := VStr "free" ]} : Doc)).
  assert (Hv : voiceSettled env local) by (right; split; reflexivity).
  assert (Hp : photoSettled env local) by (right; split; reflexivity).
  split.
  - rewrite exec_bind. unfold IndexSummary.loadUserData.
    cbn [bind perform exec handle Index.getMonthKey userDoc usageLogs warnings].
    fold local.
    rewrite exec_bind, (proj1 (ensureVoice_settled env _ local Hv)).
    rewrite exec_bind, (proj1 (ensurePhoto_settled env _ local Hp)).
    reflexivity.
  - rewrite writes_bind. unfold IndexSummary.loadUserData.
    cbn [bind perform exec writes handle write_of app Index.getMonthKey
         userDoc usageLogs warnings].
    fold local.
    rewrite writes_bind, (proj2 (ensureVoice_settled env _ local Hv)).
    rewrite (proj1 (ensureVoice_settled env _ local Hv)).
    rewrite writes_bind, (proj2 (ensurePhoto_settled env _ local Hp)).
    rewrite (proj1 (ensurePhoto_settled env _ local Hp)).
    reflexivity.
Qed.

(** ** The summary and the gate *)

(** A free record with nothing remaining is refused at the limit check. *)
Lemma exec_afterReset_refused (env : Env) (w1 : World) (userData : Doc)
  (req : Index.VisionRequest) (uid : string) :
  userData !! "subscriptionTier" = Some (VStr "free") →
  js_max0_sub (to_number (Index.photoScansLimitOf userData))
              (to_number (Index.photoScansUsedOf userData)) = Some 0 →
  ∃ e, exec env (try_catch (afterReset uid req userData) wrapInternal) w1 =
         (inl (EHttps e), w1) ∧
       code e = resource_exhausted ∧
       details e !! "limit" = Some (Index.photoScansLimitOf userData) ∧
       details e !! "used" = Some (Index.photoScansUsedOf userData).
Proof.
  intros Ht Hrem. rewrite exec_try_catch. unfold afterReset.
  rewrite exec_bind. unfold Index.checkPhotoLimit.
  assert (Hge : js_ge (Index.photoScansUsedOf userData) (Index.photoScansLimitOf userData)
                = true).
  { unfold js_ge.
    destruct (to_number (Index.photoScansLimitOf userData)) as [x |]; [| discriminate].
    destruct (to_number (Index.photoScansUsedOf userData)) as [y |]; [| discriminate].
    cbn in Hrem. injection Hrem as Hrem. apply bool_decide_eq_true. lia. }
  rewrite Hge, Ht, strict_eq_true by reflexivity. cbn [andb exec wrapInternal].
  eexists. split; [reflexivity |]. cbn [code details prop].
  split; [reflexivity |]. split; simplify_map_eq; reflexivity.
Qed.

(** A request that passed the limit check is never refused for quota. *)
Lemma afterReset_passed_no_quota (env : Env) (w1 : World) (d1 userData : Doc)
  (req : Index.VisionRequest) (uid : string) :
  userDoc w1 = Some d1 →
  passesLimit userData →
  isQuotaRejected
    (fst (exec env (try_catch (afterReset uid req userData) wrapInternal) w1)) = false.
Proof.
  intros Hw Hpass. rewrite (exec_afterReset_passed env w1 d1 userData req uid Hw Hpass).
  destruct (String.eqb (secret env) ""); [reflexivity |].
  destruct (loopOutcome env) as [e | [[[result m] |] l]] eqn:Hl.
  - destruct (tryModels_throws_internal env Index.modelFallbacks None
                (mkWorld None [] []) e Hl) as [msg ->]. reflexivity.
  - destruct (logFault env); reflexivity.
  - reflexivity.
Qed.

(** The answer of a served request counts the scan it has just served. *)
Lemma visionAnswer_remaining (pt : string) (userData : Doc) (result : ApiResult) (r : Z) :
  js_max0_sub (to_number (Index.photoScansLimitOf userData))
              (to_number (Index.photoScansUsedOf userData)) = Some r →
  1 ≤ r →
  Index.remainingScans (Index.visionAnswer pt userData result) = Some (r - 1).
Proof.
  unfold Index.visionAnswer. cbn [Index.remainingScans].
  destruct (to_number (Index.photoScansLimitOf userData)) as [x |]; [| discriminate].
  destruct (to_number (Index.photoScansUsedOf userData)) as [y |]; [| discriminate].
  cbn. intros [= <-] Hr. f_equal. lia.
Qed.

(** X7. The summary predicts the gate. For an existing free record, let
    [getUserUsage] report [remainingPhotoScans]. If it reports 0, the next
    accepted photo request is refused with [resource-exhausted] and changes
    nothing. If it reports [r ≥ 1], the next request is not refused for
    quota, and when the provider answers and the log accepts, it is served
    and its answer reports [r - 1] remaining. *)
Theorem reported_allowance_is_what_the_gate_serves (env : Env) (w : World) (d : Doc)
  (ureq : IndexSummary.UsageRequest) (req : Index.VisionRequest) (uid : string) :
  IndexSummary.auth ureq ≠ None →
  accepted req uid →
  userDoc w = Some d →
  d !! "subscriptionTier" = Some (VStr "free") →
  ∃ s w1,
    exec env (IndexSummary.getUserUsage ureq) w = (inr s, w1) ∧
    (IndexSummary.remainingPhotoScans s = Some 0 →
     ∃ e, exec env (Index.callClaudeVision req) w1 = (inl (EHttps e), w1) ∧
          code e = resource_exhausted) ∧
    (∀ r, IndexSummary.remainingPhotoScans s = Some r → 1 ≤ r →
       isQuotaRejected (fst (exec env (Index.callClaudeVision req) w1)) = false ∧
       (∀ result m,
          secret env ≠ ""%string → providerAnswers env result m → logFault env = None →
          ∃ a w2, exec env (Index.callClaudeVision req) w1 = (inr a, w2) ∧
                  Index.remainingScans a = Some (r - 1))).
Proof.
  intros Ha Hacc Hw Ht. destruct (IndexSummary.auth ureq) as [u |] eqn:Eu; [| done].
  destruct (exec_getUserUsage_existing env w d ureq u Eu Hw) as (d' & Hex & _ & Hp & Hfr).
  set (w1 := mkWorld (Some d') (usageLogs w) (warnings w)) in *.
  assert (Ht' : d' !! "subscriptionTier" = Some (VStr "free")).
  { rewrite Hfr by other_field. exact Ht. }
  assert (Hcall : exec env (Index.callClaudeVision req) w1 =
                  exec env (try_catch (afterReset uid req d') wrapInternal) w1).
  { apply (exec_callClaudeVision_existing env w1 w1 d' d' req uid Hacc eq_refl).
    apply ensurePhoto_settled, Hp. }
  exists (IndexSummary.summary d'), w1. split; [exact Hex |]. rewrite Hcall. split.
  - intros Hrem.
    destruct (exec_afterReset_refused env w1 d' req uid Ht' Hrem) as (e & He & Hc & _).
    exists e. split; assumption.
  - intros r Hrem Hr.
    assert (Hpass : passesLimit d') by (apply (remaining_passes d' r); assumption).
    split; [apply (afterReset_passed_no_quota env w1 d'); [reflexivity | exact Hpass] |].
    intros result m Hs [l Hl] Hf.
    rewrite (exec_afterReset_passed env w1 d' d' req uid eq_refl Hpass).
    destruct (String.eqb (secret env) "") eqn:E; [apply String.eqb_eq in E; contradiction |].
    rewrite Hl, Hf. eexists _, _. split; [reflexivity |].
    apply visionAnswer_remaining; assumption.
Qed.

Lemma rollover_is_idempotent_witness :
  (∃ d',
     exec quiet_env (Index.ensureMonthlyPhotoReset (free_record "2025-05" 2))
          (world_of (free_record "2025-05" 2)) =
       (inr d', mkWorld (Some d') (usageLogs (world_of (free_record "2025-05" 2)))
                        (warnings (world_of (free_record "2025-05" 2)))) ∧
     (∀ k : string, k ∉ photoFields → d' !! k = free_record "2025-05" 2 !! k) ∧
     ∀ w', exec quiet_env (Index.ensureMonthlyPhotoReset d') w' = (inr d', w') ∧
           writes quiet_env (Index.ensureMonthlyPhotoReset d') w' = []) ∧
  (∃ d',
     exec quiet_env (Index.ensureMonthlyVoiceReset (free_record "2025-05" 2))
          (world_of (free_record "2025-05" 2)) =
       (inr d', mkWorld (Some d') (usageLogs (world_of (free_record "2025-05" 2)))
                        (warnings (world_of (free_record "2025-05" 2)))) ∧
     (∀ k : string, k ∉ voiceFields → d' !! k = free_record "2025-05" 2 !! k) ∧
     ∀ w', exec quiet_env (Index.ensureMonthlyVoiceReset d') w' = (inr d', w') ∧
           writes quiet_env (Index.ensureMonthlyVoiceReset d') w' = []).
Proof.
  apply (rollover_is_idempotent quiet_env (world_of (free_record "2025-05" 2))
           (free_record "2025-05" 2)).
  reflexivity.
Defined.

Lemma usage_query_is_idempotent_witness :
  ∃ s w1,
    exec quiet_env (IndexSummary.getUserUsage usage_request)
         (world_of (free_record "2025-05" 2)) = (inr s, w1) ∧
    ∀ req', IndexSummary.auth req' ≠ None →
      exec quiet_env (IndexSummary.getUserUsage req') w1 = (inr s, w1) ∧
      writes quiet_env (IndexSummary.getUserUsage req') w1 = [].
Proof.
  apply (usage_query_is_idempotent quiet_env (world_of (free_record "2025-05" 2))
           (free_record "2025-05" 2) usage_request).
  - discriminate.
  - reflexivity.
Defined.

Lemma usage_query_creates_the_record_witness :
  exec quiet_env (IndexSummary.getUserUsage usage_request) no_record =
    (inr {| IndexSummary.voiceActionsUsed := VNum 0;
            IndexSummary.voiceActionsLimit := VNum 7;
            IndexSummary.remainingVoiceActions := Some 7;
            IndexSummary.photoScansUsed := VNum 0;
            IndexSummary.photoScansLimit := VNum 3;
            IndexSummary.remainingPhotoScans := Some 3;
            IndexSummary.subscriptionTier := VStr "free";
            IndexSummary.lifetimeAPIRequests := VNum 0;
            IndexSummary.monthlyTokens := VNum 0;
            IndexSummary.lastRequestAt := None;
            IndexSummary.resDeviceID := None |},
     mkWorld
       (Some {[ "deviceID" := VStr (str_or (IndexSummary.deviceID usage_request) "unknown");
                "voiceActionsUsed" := VNum 0;
                "voiceActionsLimit" := VNum 7;
                "voiceActionsDayKey" := VStr (monthKey quiet_env);
                "photoScansUsed" := VNum 0;
                "photoScansLimit" := VNum 3;
                "photoScansDayKey" := VStr (monthKey quiet_env);
                "lifetimeAPIRequests" := VNum 0;
                "monthlyTokens" := VNum 0;
                "subscriptionTier" := VStr "free";
                "createdAt" := VTime (now quiet_env) ]})
       (usageLogs no_record) (warnings no_record)) ∧
  length (writes quiet_env (IndexSummary.getUserUsage usage_request) no_record) = 1%nat.
Proof.
  apply (usage_query_creates_the_record quiet_env no_record usage_request "user-1").
  - reflexivity.
  - reflexivity.
Defined.

Lemma reported_allowance_is_what_the_gate_serves_witness :
  (∃ s w1 e,
     exec (answering_env 0) (IndexSummary.getUserUsage usage_request)
          (world_of (free_record "2025-06" 3)) = (inr s, w1) ∧
     IndexSummary.remainingPhotoScans s = Some 0 ∧
     exec (answering_env 0) (Index.callClaudeVision photo_request) w1 = (inl (EHttps e), w1) ∧
     code e = resource_exhausted) ∧
  (∃ s w1 a w2,
     exec (answering_env 0) (IndexSummary.getUserUsage usage_request)
          (world_of (free_record "2025-05" 3)) = (inr s, w1) ∧
     IndexSummary.remainingPhotoScans s = Some 3 ∧
     isQuotaRejected
       (fst (exec (answering_env 0) (Index.callClaudeVision photo_request) w1)) = false ∧
     exec (answering_env 0) (Index.callClaudeVision photo_request) w1 = (inr a, w2) ∧
     Index.remainingScans a = Some (3 - 1)).
Proof.
  split.
  - destruct (reported_allowance_is_what_the_gate_serves (answering_env 0)
                (world_of (free_record "2025-06" 3)) (free_record "2025-06" 3)
                usage_request photo_request "user-1")
      as (s & w1 & Hex & Hzero & _);
      [discriminate | exact photo_request_accepted | reflexivity | reflexivity |].
    assert (Hrem : IndexSummary.remainingPhotoScans s = Some 0).
    { assert (Hc : ∃ s' w', exec (answering_env 0) (IndexSummary.getUserUsage usage_request)
                              (world_of (free_record "2025-06" 3)) = (inr s', w') ∧
                            IndexSummary.remainingPhotoScans s' = Some 0)
        by (eexists _, _; split; reflexivity).
      destruct Hc as (s' & w' & Hc & Hr). rewrite Hc in Hex. injection Hex as <- _.
      exact Hr. }
    destruct (Hzero Hrem) as (e & He & Hcode).
    exists s, w1, e. repeat split; assumption.
  - destruct (reported_allowance_is_what_the_gate_serves (answering_env 0)
                (world_of (free_record "2025-05" 3)) (free_record "2025-05" 3)
                usage_request photo_request "user-1")
      as (s & w1 & Hex & _ & Hmore);
      [discriminate | exact photo_request_accepted | reflexivity | reflexivity |].
    assert (Hrem : IndexSummary.remainingPhotoScans s = Some 3).
    { assert (Hc : ∃ s' w', exec (answering_env 0) (IndexSummary.getUserUsage usage_request)
                              (world_of (free_record "2025-05" 3)) = (inr s', w') ∧
                            IndexSummary.remainingPhotoScans s' = Some 3)
        by (eexists _, _; split; reflexivity).
      destruct Hc as (s' & w' & Hc & Hr). rewrite Hc in Hex. injection Hex as <- _.
      exact Hr. }
    destruct (Hmore 3 Hrem ltac:(lia)) as [Hq Hserve].
    destruct (Hserve sample_result "claude-sonnet-4-5-20250929"%string
                ltac:(discriminate) (answering_env_answers 0) eq_refl)
      as (a & w2 & Ha & Hleft).
    exists s, w1, a, w2. repeat split; assumption.
Defined.

(** ** The first photo request of a caller *)

(** The record a first photo request stores before it goes on. *)
Lemma exec_callClaudeVision_new (env : Env) (w : World) (req : Index.VisionRequest)
  (uid : string) :
  accepted req uid →
  userDoc w = None →
  exec env (Index.callClaudeVision req) w =
  exec env
    (try_catch (afterReset uid req (Index.defaultUserData (monthKey env) (monthKey env)))
       wrapInternal)
    (mkWorld
       (Some {[ "deviceID" := VStr (str_or (Index.deviceID req) "unknown");
                "photoScansUsed" := VNum 0;
                "photoScansLimit" := VNum 3;
                "photoScansDayKey" := VStr (monthKey env);
                "voiceActionsUsed" := VNum 0;
                "voiceActionsLimit" := VNum 7;
                "voiceActionsDayKey" := VStr (monthKey env);
                "subscriptionTier" := VStr "free";
                "createdAt" := VTime (now env) ]})
       (usageLogs w) (warnings w)).
Proof.
  intros Hacc Hw. destruct w as [ud lg ws]. cbn in Hw. subst ud.
  rewrite (callClaudeVision_accepted req uid Hacc), !exec_try_catch.
  unfold Index.visionBody. rewrite exec_bind. unfold Index.loadUserData.
  cbn [bind perform exec handle Index.getMonthKey userDoc usageLogs warnings].
  rewrite exec_bind.
  assert (Hp : photoSettled env (Index.defaultUserData (monthKey env) (monthKey env)))
    by (right; split; reflexivity).
  rewrite (proj1 (ensurePhoto_settled env _ _ Hp)). reflexivity.
Qed.

(** X8. The first photo request of a caller without a record creates the
    record and is served from it: with the provider answering and the log
    accepting, the stored record holds the defaults of both allowances, the
    request's device, the current period, one used photo scan, one lifetime
    request and the tokens of this answer; the answer reports 2 scans
    remaining and one usage-log entry is added. *)
Theorem first_photo_request_creates_the_record (env : Env) (w : World)
  (req : Index.VisionRequest) (uid : string) (result : ApiResult) (m : string) :
  accepted req uid →
  userDoc w = None →
  secret env ≠ ""%string →
  providerAnswers env result m →
  logFault env = None →
  ∃ a entry,
    exec env (Index.callClaudeVision req) w =
      (inr a,
       mkWorld
         (Some {[ "deviceID" := VStr (str_or (Index.deviceID req) "unknown");
                  "photoScansUsed" := VNum 1;
                  "photoScansLimit" := VNum 3;
                  "photoScansDayKey" := VStr (monthKey env);
                  "voiceActionsUsed" := VNum 0;
                  "voiceActionsLimit" := VNum 7;
                  "voiceActionsDayKey" := VStr (monthKey env);
                  "subscriptionTier" := VStr "free";
                  "createdAt" := VTime (now env);
                  "lifetimeAPIRequests" := VNum 1;
                  "monthlyTokens" := VNum (input_tokens result + output_tokens result);
                  "lastRequestAt" := VTime (now env) ]})
         (usageLogs w ++ [entry]) (warnings w)) ∧
    Index.markdown a = textContent result ∧
    Index.remainingScans a = Some 2 ∧
    entry !! "userId" = Some (VStr uid) ∧
    entry !! "model" = Some (VStr m) ∧
    entry !! "subscriptionTier" = Some (VStr "free").
Proof.
  intros Hacc Hw Hs [l Hl] Hf.
  rewrite (exec_callClaudeVision_new env w req uid Hacc Hw).
  erewrite exec_afterReset_passed; [| reflexivity | reflexivity].
  destruct (String.eqb (secret env) "") eqn:E; [apply String.eqb_eq in E; contradiction |].
  rewrite Hl, Hf. cbn [usageLogs warnings].
  eexists _, _. split; [reflexivity |].
  repeat split; reflexivity.
Qed.

Lemma first_photo_request_creates_the_record_witness :
  ∃ a entry,
    exec (answering_env 0) (Index.callClaudeVision photo_request) no_record =
      (inr a,
       mkWorld
         (Some {[ "deviceID" := VStr (str_or (Index.deviceID photo_request) "unknown");
                  "photoScansUsed" := VNum 1;
                  "photoScansLimit" := VNum 3;
                  "photoScansDayKey" := VStr (monthKey (answering_env 0));
                  "voiceActionsUsed" := VNum 0;
                  "voiceActionsLimit" := VNum 7;
                  "voiceActionsDayKey" := VStr (monthKey (answering_env 0));
                  "subscriptionTier" := VStr "free";
                  "createdAt" := VTime (now (answering_env 0));
                  "lifetimeAPIRequests" := VNum 1;
                  "monthlyTokens" :=
                    VNum (input_tokens sample_result + output_tokens sample_result);
                  "lastRequestAt" := VTime (now (answering_env 0)) ]})
         (usageLogs no_record ++ [entry]) (warnings no_record)) ∧
    Index.markdown a = textContent sample_result ∧
    Index.remainingScans a = Some 2 ∧
    entry !! "userId" = Some (VStr "user-1") ∧
    entry !! "model" = Some (VStr "claude-sonnet-4-5-20250929") ∧
    entry !! "subscriptionTier" = Some (VStr "free").
Proof.
  apply (first_photo_request_creates_the_record (answering_env 0) no_record photo_request
           "user-1" sample_result "claude-sonnet-4-5-20250929").
  - exact photo_request_accepted.
  - reflexivity.
  - discriminate.
  - exact (answering_env_answers 0).
  - reflexivity.
Defined.

(** ** Requests refused on their arguments *)



(** ** A verification that does not succeed *)

(** Every way [verifySubscription] can fail leaves the world as it was. *)
Lemma verifySubscription_failure (lib : Library) (env : Env) (w w' : World)
  (req : Index.VerifyRequest) (e : Exn) :
  exec env (Index.verifySubscription lib req) w = (inl e, w') →
  w' = w ∧
  ∃ h, e = EHttps h ∧
       (code h = unauthenticated ∨ code h = invalid_argument ∨ code h = internal).
Proof.
  unfold Index.verifySubscription.
  destruct (Index.vAuth req) as [uid |].
  2: { cbn. intros [= <- <-]. split; [reflexivity |]. eexists. split; [reflexivity |]. auto. }
  destruct (String.eqb (str_or (Index.jwsToken req) "") "").
  { cbn. intros [= <- <-]. split; [reflexivity |]. eexists. split; [reflexivity |]. auto. }
  cbn [try_catch bind perform exec handle].
  destruct (verifier env (str_or (Index.jwsToken req) "")) as [msg | payload].
  { cbn. intros [= <- <-]. split; [reflexivity |]. eexists. split; [reflexivity |]. auto. }
  cbn [try_catch bind perform exec handle].
  destruct (Index.newDate (expiresDate payload)) as [t |].
  2: { cbn. intros [= <- <-]. split; [reflexivity |]. eexists. split; [reflexivity |]. auto. }
  destruct (Index.storable t); cbn [negb].
  2: { cbn. intros [= <- <-]. split; [reflexivity |]. eexists. split; [reflexivity |]. auto. }
  destruct (productId payload) as [product |].
  2: { cbn. intros [= <- <-]. split; [reflexivity |]. eexists. split; [reflexivity |]. auto. }
  cbn [try_catch bind perform exec handle].
  destruct (userDoc w) as [d |].
  { cbn. intros [=]. }
  cbn. intros [= <- <-]. split; [reflexivity |]. eexists. split; [reflexivity |]. auto.
Qed.

Lemma verification_without_record_fails (lib : Library) (env : Env) (w : World)
  (req : Index.VerifyRequest) :
  userDoc w = None →
  ∃ e, exec env (Index.verifySubscription lib req) w = (inl e, w).
Proof.
  intros Hw. unfold Index.verifySubscription.
  destruct (Index.vAuth req) as [uid |]; [| eexists; reflexivity].
  destruct (String.eqb (str_or (Index.jwsToken req) "") ""); [eexists; reflexivity |].
  cbn [try_catch bind perform exec handle].
  destruct (verifier env (str_or (Index.jwsToken req) "")) as [msg | payload];
    [eexists; reflexivity |].
  cbn [try_catch bind perform exec handle].
  destruct (Index.newDate (expiresDate payload)) as [t |]; [| eexists; reflexivity].
  destruct (Index.storable t); cbn [negb]; [| eexists; reflexivity].
  destruct (productId payload) as [product |]; [| eexists; reflexivity].
  cbn [try_catch bind perform exec handle]. rewrite Hw. eexists; reflexivity.
Qed.

(** X10. [verifySubscription] changes nothing unless it succeeds, and it
    never creates a record. Whenever the call ends with an error, the world
    is exactly as it was and the error is [unauthenticated],
    [invalid-argument] or [internal]; and for a caller without a record the
    call always ends with such an error, whatever the token and the
    verifier say. *)
Theorem failed_verification_changes_nothing (lib : Library) (env : Env) (w : World)
  (req : Index.VerifyRequest) :
  (∀ e w', exec env (Index.verifySubscription lib req) w = (inl e, w') →
     w' = w ∧
     ∃ h, e = EHttps h ∧
          (code h = unauthenticated ∨ code h = invalid_argument ∨ code h = internal)) ∧
  (userDoc w = None →
     ∃ h, exec env (Index.verifySubscription lib req) w = (inl (EHttps h), w) ∧
          (code h = unauthenticated ∨ code h = invalid_argument ∨ code h = internal)).
Proof.
  split.
  - intros e w'. apply verifySubscription_failure.
  - intros Hw. destruct (verification_without_record_fails lib env w req Hw) as [e He].
    destruct (verifySubscription_failure lib env w w req e He) as (_ & h & -> & Hc).
    exists h. split; assumption.
Qed.

Lemma failed_verification_changes_nothing_witness :
  ∃ h, exec (answering_env 5000) (Index.verifySubscription sample_library verify_request)
            no_record =
         (inl (EHttps h), no_record) ∧
       (code h = unauthenticated ∨ code h = invalid_argument ∨ code h = internal).
Proof.
  apply (failed_verification_changes_nothing sample_library (answering_env 5000) no_record
           verify_request).
  reflexivity.
Defined.

(** ** A served voice request *)

Lemma exec_loadVoiceData (env : Env) (w : World) (d : Doc) (dev : string) :
  userDoc w = Some d → exec env (Index.loadVoiceData dev) w = (inr d, w).
Proof.
  intros Hw. unfold Index.loadVoiceData. rewrite exec_bind. cbn. rewrite Hw. reflexivity.
Qed.

(** X11. [callWhisperProxy] counts a served transcription once and keeps to
    its own fields. For any existing record that carries a tier (the log
    entry records it), whatever its counter and limit:
    when the provider answers and the log accepts, the request is served,
    the stored voice counter is the one the rollover left plus one, the
    lifetime request count is incremented by one, [lastRequestAt] is the
    server time, and every other field outside the voice rollover's three —
    the photo counters, the token count, the tier, the device — is as it
    was; one usage-log entry for [whisper] is added. *)
Theorem served_voice_request_is_counted_once (env : Env) (w w1 : World) (d d1 : Doc)
  (req : Index.WhisperRequest) (uid : string) (response : Response) :
  Index.wAuth req = Some uid →
  str_or (Index.audioData req) "" ≠ ""%string →
  Index.audioBytes req ≤ 25 * 1024 * 1024 →
  userDoc w = Some d →
  is_Some (d !! "subscriptionTier") →
  exec env (Index.ensureMonthlyVoiceReset d) w = (inr d1, w1) →
  secret env ≠ ""%string →
  upstream env Index.whisperModel = inr response →
  ok response = true →
  logFault env = None →
  ∃ a d' entry,
    exec env (Index.callWhisperProxy req) w =
      (inr a, mkWorld (Some d') (usageLogs w ++ [entry]) (warnings w)) ∧
    Index.transcript a = text response ∧
    d' !! "voiceActionsUsed" =
      Some (VNum (match d1 !! "voiceActionsUsed" with
                  | Some (VNum n) => n + 1
                  | _ => 1
                  end)) ∧
    d' !! "lifetimeAPIRequests" =
      Some (VNum (match d !! "lifetimeAPIRequests" with
                  | Some (VNum n) => n + 1
                  | _ => 1
                  end)) ∧
    d' !! "lastRequestAt" = Some (VTime (now env)) ∧
    (∀ k : string, k ∉ voiceFields → k ≠ "lifetimeAPIRequests"%string →
       k ≠ "lastRequestAt"%string → d' !! k = d !! k) ∧
    entry !! "service" = Some (VStr "whisper") ∧
    entry !! "userId" = Some (VStr uid).
Proof.
  intros Ha Hdata Hsize Hw _ Hex Hs Hu Hok Hf.
  destruct (exec_ensureVoice_settles env w d Hw) as (d1' & Hex' & _ & Hfr).
  rewrite Hex in Hex'. injection Hex' as <- ->.
  unfold Index.callWhisperProxy. rewrite Ha.
  destruct (String.eqb (str_or (Index.audioData req) "") "") eqn:E;
    [apply String.eqb_eq in E; contradiction |].
  rewrite bool_decide_eq_false_2 by lia.
  rewrite exec_try_catch. unfold Index.whisperBody.
  rewrite exec_bind, (exec_loadVoiceData env w d _ Hw), exec_bind, Hex.
  unfold Index.serveVoice. rewrite exec_bind, exec_secret. cbv beta iota.
  destruct (String.eqb (secret env) "") eqn:Ek; [apply String.eqb_eq in Ek; contradiction |].
  rewrite exec_bind. cbn [perform exec handle]. rewrite Hu. cbn [exec]. rewrite Hok.
  cbn [negb exec].
  rewrite exec_bind.
  rewrite (exec_update env _ (mkWorld (Some d1) (usageLogs w) (warnings w)) d1 eq_refl).
  cbv beta iota.
  rewrite exec_bind. cbn [perform exec handle usageLogs warnings userDoc]. rewrite Hf.
  cbn [exec]. eexists _, _, _. split; [reflexivity |].
  split; [reflexivity |].
  split; [rewrite lookup_apply_patch; reflexivity |].
  split; [rewrite lookup_apply_patch, <- (Hfr "lifetimeAPIRequests"%string) by other_field;
          reflexivity |].
  split; [rewrite lookup_apply_patch; reflexivity |].
  split.
  { intros k Hk H1 H2. rewrite lookup_apply_patch, <- (Hfr k Hk).
    assert (Hv : k ≠ "voiceActionsUsed"%string).
    { intros ->. apply Hk. unfold voiceFields. set_solver. }
    rewrite !lookup_insert_ne by congruence.
    rewrite lookup_singleton_ne by congruence. reflexivity. }
  split; rewrite lookup_apply_patch.
  - destruct (d1 !! "subscriptionTier"); reflexivity.
  - destruct (d1 !! "subscriptionTier"); reflexivity.
Qed.

Lemma served_voice_request_is_counted_once_witness :
  ∃ a d' entry,
    exec (answering_env 0) (Index.callWhisperProxy voice_request) (world_of voice_over_limit) =
      (inr a, mkWorld (Some d') (usageLogs (world_of voice_over_limit) ++ [entry])
                      (warnings (world_of voice_over_limit))) ∧
    Index.transcript a = text ok_response ∧
    d' !! "voiceActionsUsed" =
      Some (VNum (match voice_over_limit !! "voiceActionsUsed" with
                  | Some (VNum n) => n + 1
                  | _ => 1
                  end)) ∧
    d' !! "lifetimeAPIRequests" =
      Some (VNum (match voice_over_limit !! "lifetimeAPIRequests" with
                  | Some (VNum n) => n + 1
                  | _ => 1
                  end)) ∧
    d' !! "lastRequestAt" = Some (VTime (now (answering_env 0))) ∧
    (∀ k : string, k ∉ voiceFields → k ≠ "lifetimeAPIRequests"%string →
       k ≠ "lastRequestAt"%string → d' !! k = voice_over_limit !! k) ∧
    entry !! "service" = Some (VStr "whisper") ∧
    entry !! "userId" = Some (VStr "user-1").
Proof.
  apply (served_voice_request_is_counted_once (answering_env 0) (world_of voice_over_limit)
           (world_of voice_over_limit) voice_over_limit voice_over_limit voice_request
           "user-1" ok_response).
  - reflexivity.
  - discriminate.
  - cbn. lia.
  - reflexivity.
  - eexists; reflexivity.
  - reflexivity.
  - discriminate.
  - reflexivity.
  - reflexivity.
  - reflexivity.
Defined.

(** ** What no interleaving can do *)

Section Respects.

Context (allowed : ∀ X, Eff X → Prop) (possible : ∀ X, Eff X → string + X → Prop).

Lemma respects_bind {A B : Type} (p : Prog A) (f : A → Prog B) :
  respects allowed possible p →
  (∀ a, respects allowed possible (f a)) →
  respects allowed possible (bind p f).
Proof.
  intros Hp Hf. induction p as [a | e | X e k IH]; cbn.
  - apply Hf.
  - exact I.
  - destruct Hp as [He Hk]. split; [exact He |]. intros r Hr. apply IH, Hk, Hr.
Qed.

Lemma respects_try_catch {A : Type} (p : Prog A) (h : Exn → Prog A) :
  respects allowed possible p →
  (∀ e, respects allowed possible (h e)) →
  respects allowed possible (try_catch p h).
Proof.
  intros Hp Hh. induction p as [a | e | X e k IH]; cbn.
  - exact I.
  - apply Hh.
  - destruct Hp as [He Hk]. split; [exact He |]. intros r Hr. apply IH, Hk, Hr.
Qed.

Lemma respects_perform {X : Type} (e : Eff X) :
  allowed X e → respects allowed possible (perform e).
Proof. intros He. split; [exact He |]. intros [msg | x] _; exact I. Qed.

(** An invariant of the world that allowed interactions preserve, and under
    which every answer is a possible one. *)
Context (inv : World → Prop).
Hypothesis handle_allowed :
  ∀ (env : Env) (X : Type) (e : Eff X) (w : World),
    allowed X e → inv w →
    inv (snd (handle env e w)) ∧ possible X e (fst (handle env e w)).

Lemma step_thread_respects {A : Type} (t : Thread A) (w : World) :
  respects allowed possible (thProg t) → inv w →
  respects allowed possible (thProg (fst (step_thread t w))) ∧
  inv (snd (step_thread t w)).
Proof.
  intros Ht Hw. unfold step_thread. destruct (thProg t) as [a | e | X e k] eqn:Ep.
  - cbn. rewrite Ep. split; [exact I | exact Hw].
  - cbn. rewrite Ep. split; [exact I | exact Hw].
  - destruct Ht as [He Hk].
    destruct (handle_allowed (thEnv t) X e w He Hw) as [Hi Hr].
    destruct (handle (thEnv t) e w) as [r w']. cbn in *. split; [apply Hk, Hr | exact Hi].
Qed.

Lemma run_schedule_respects {A : Type} (sched : list nat) :
  ∀ (ts : list (Thread A)) (w : World),
    Forall (λ t, respects allowed possible (thProg t)) ts → inv w →
    Forall (λ t, respects allowed possible (thProg t)) (fst (run_schedule sched ts w)) ∧
    inv (snd (run_schedule sched ts w)).
Proof.
  induction sched as [| i rest IH]; intros ts w Hts Hw; cbn.
  - split; assumption.
  - destruct (ts !! i) as [t |] eqn:Ei; [| apply IH; assumption].
    assert (Ht : respects allowed possible (thProg t)).
    { rewrite Forall_forall in Hts. apply Hts. eapply list_elem_of_lookup_2, Ei. }
    destruct (step_thread_respects t w Ht Hw) as [Ht' Hw'].
    destruct (step_thread t w) as [t' w']. cbn in *.
    apply IH; [| exact Hw'].
    apply Forall_insert; assumption.
Qed.

End Respects.

(** Interactions that spare the other fields keep them, and find the record
    in place. *)
Lemma handle_sparing (fields : list string) (d0 : Doc) (env : Env) (X : Type)
  (e : Eff X) (w : World) :
  sparing fields X e → keeps fields d0 w →
  keeps fields d0 (snd (handle env e w)) ∧ recordExists X e (fst (handle env e w)).
Proof.
  intros He (d & Hw & Hd).
  destruct e; cbn in *; try (split; [exists d; split; assumption | exact I]).
  - split; [exists d; split; assumption |]. exists d. rewrite Hw. reflexivity.
  - contradiction.
  - rewrite Hw. cbn. split; [| exact I].
    eexists. split; [reflexivity |]. intros k Hk.
    rewrite lookup_apply_patch, (He k Hk). cbn. apply Hd, Hk.
  - destruct (logFault env); cbn; (split; [exists d; split; assumption | exact I]).
Qed.

(** The payloads of the usage callables name usage fields only. *)
Ltac usage_payload :=
  let k := fresh "k" in
  let Hk := fresh "Hk" in
  intros k Hk; unfold usageFields, photoFields, voiceFields in Hk;
  rewrite ?not_elem_of_app, ?not_elem_of_cons in Hk;
  repeat match goal with
         | H : _ ∧ _ |- _ => destruct H
         end;
  rewrite ?lookup_union_None; repeat split;
  rewrite ?lookup_insert_ne by auto using not_eq_sym;
  first [ apply lookup_empty | apply lookup_singleton_ne; auto using not_eq_sym ].

Ltac spares :=
  repeat match goal with
         | |- respects _ _ (Ret _) => exact I
         | |- respects _ _ (Throw _) => exact I
         | |- respects _ _ (bind _ _) => apply respects_bind
         | |- respects _ _ (try_catch _ _) => apply respects_try_catch
         | |- respects _ _ (perform _) => apply respects_perform
         | |- respects _ _ (match ?x with _ => _ end) => destruct x
         | |- respects _ _ _ => progress cbv beta zeta
         | |- ∀ _, _ => intro
         | |- sparing _ _ SecretValue => exact I
         | |- sparing _ _ GetMonthKey => exact I
         | |- sparing _ _ (Fetch _) => exact I
         | |- sparing _ _ (LogAdd _) => exact I
         end.

Lemma ensurePhoto_spares (d : Doc) :
  respects (sparing usageFields) recordExists (Index.ensureMonthlyPhotoReset d).
Proof.
  unfold Index.ensureMonthlyPhotoReset, Index.getMonthKey. spares.
  cbn [sparing]. destruct (_ && _); cbn [spread_if]; usage_payload.
Qed.

Lemma ensureVoice_spares (d : Doc) :
  respects (sparing usageFields) recordExists (Index.ensureMonthlyVoiceReset d).
Proof.
  unfold Index.ensureMonthlyVoiceReset, Index.getMonthKey. spares.
  cbn [sparing]. destruct (_ && _); cbn [spread_if]; usage_payload.
Qed.

Lemma tryModels_spares (models : list string) (l : option string) :
  respects (sparing usageFields) recordExists (Index.tryModels models l).
Proof.
  revert l. induction models as [| model rest IH]; intros l; cbn [Index.tryModels].
  - exact I.
  - apply respects_bind; [unfold Index.tryModel; spares |].
    intros [result modelUsed | l']; [exact I | apply IH].
Qed.

Lemma callProvider_spares :
  respects (sparing usageFields) recordExists Index.callProvider.
Proof.
  unfold Index.callProvider. apply respects_bind; [spares |]. intros apiKey.
  destruct (String.eqb apiKey ""); [exact I |].
  apply respects_bind; [apply tryModels_spares |]. intros [[answer |] l]; exact I.
Qed.

Lemma callClaudeVision_spares (request : Index.VisionRequest) :
  respects (sparing usageFields) recordExists (Index.callClaudeVision request).
Proof.
  unfold Index.callClaudeVision.
  destruct (Index.auth request) as [uid |]; [| exact I].
  destruct (String.eqb _ ""); [exact I |].
  destruct (negb _); [exact I |].
  destruct (Index.tooLarge _); [exact I |].
  apply respects_try_catch; [| intros [h | msg]; exact I].
  unfold Index.visionBody. apply respects_bind.
  { unfold Index.loadUserData. cbn. split; [exact I |].
    intros r [d ->]. cbn. exact I. }
  intros userData. apply respects_bind; [apply ensurePhoto_spares |].
  intros userData'. apply respects_bind.
  { unfold Index.checkPhotoLimit. destruct (_ && _); exact I. }
  intros _. apply respects_bind; [apply callProvider_spares |].
  intros answer. unfold Index.recordUsage. spares.
  unfold Index.usageUpdate. cbn [sparing]. usage_payload.
Qed.

Lemma callWhisperProxy_spares (request : Index.WhisperRequest) :
  respects (sparing usageFields) recordExists (Index.callWhisperProxy request).
Proof.
  unfold Index.callWhisperProxy.
  destruct (Index.wAuth request) as [uid |]; [| exact I].
  destruct (String.eqb _ ""); [exact I |].
  destruct (bool_decide _); [exact I |].
  apply respects_try_catch; [| intros [h | msg]; exact I].
  unfold Index.whisperBody. apply respects_bind.
  { unfold Index.loadVoiceData. cbn. split; [exact I |].
    intros r [d ->]. cbn. exact I. }
  intros userData. apply respects_bind; [apply ensureVoice_spares |].
  intros userData'. unfold Index.serveVoice. spares.
  cbn [sparing]. usage_payload.
Qed.

Lemma getUserUsage_spares (request : IndexSummary.UsageRequest) :
  respects (sparing usageFields) recordExists (IndexSummary.getUserUsage request).
Proof.
  unfold IndexSummary.getUserUsage.
  destruct (IndexSummary.auth request) as [uid |]; [| exact I].
  apply respects_bind.
  { unfold IndexSummary.loadUserData. cbn. split; [exact I |].
    intros r [d ->]. cbn. exact I. }
  intros userData. apply respects_bind; [apply ensureVoice_spares |].
  intros userData'. apply respects_bind; [apply ensurePhoto_spares |].
  intros; exact I.
Qed.

Lemma serve_spares (c : Call) :
  respects (sparing usageFields) recordExists (serve c).
Proof.
  destruct c as [request | request | request]; cbn [serve];
    (apply respects_bind; [| intros; exact I]).
  - apply callClaudeVision_spares.
  - apply callWhisperProxy_spares.
  - apply getUserUsage_spares.
Qed.

(** X12. No interleaving of usage requests touches the entitlement. Take
    any number of photo, voice and usage-summary requests against an
    existing record, each in its own environment, and let them take their
    steps in any order, for as long as one likes: the record is still there,
    and every field other than the nine usage fields — the three photo
    fields, the three voice fields, the lifetime request count, the token
    count and the time of the last request — is what it was at the start. In
    particular the tier and the bound device are not changed. *)
Theorem no_interleaving_touches_the_entitlement (sched : list nat)
  (pool : list (Env * Call)) (w : World) (d0 : Doc) :
  userDoc w = Some d0 →
  ∃ d,
    userDoc (snd (run_schedule sched
                    (map (λ ec, mkThread (fst ec) (serve (snd ec))) pool) w)) = Some d ∧
    (∀ k : string, k ∉ usageFields → d !! k = d0 !! k) ∧
    d !! "subscriptionTier" = d0 !! "subscriptionTier" ∧
    d !! "deviceID" = d0 !! "deviceID".
Proof.
  intros Hw.
  destruct (run_schedule_respects (sparing usageFields) recordExists (keeps usageFields d0)
              (handle_sparing usageFields d0) sched
              (map (λ ec, mkThread (fst ec) (serve (snd ec))) pool) w)
    as [_ (d & Hd & Hk)].
  - apply Forall_forall. intros t Ht. apply list_elem_of_fmap in Ht as (ec & -> & _).
    apply serve_spares.
  - exists d0. split; [exact Hw | reflexivity].
  - exists d. split; [exact Hd |]. split; [exact Hk |].
    split; apply Hk; unfold usageFields, photoFields, voiceFields;
      rewrite ?not_elem_of_app, ?not_elem_of_cons; repeat split; try discriminate;
      apply not_elem_of_nil.
Qed.

Lemma no_interleaving_touches_the_entitlement_witness :
  ∃ d,
    userDoc (snd (run_schedule mixed_schedule
                    (map (λ ec, mkThread (fst ec) (serve (snd ec))) mixed_pool)
                    (world_of (free_record "2025-05" 2)))) = Some d ∧
    (∀ k : string, k ∉ usageFields → d !! k = free_record "2025-05" 2 !! k) ∧
    d !! "subscriptionTier" = free_record "2025-05" 2 !! "subscriptionTier" ∧
    d !! "deviceID" = free_record "2025-05" 2 !! "deviceID".
Proof.
  apply (no_interleaving_touches_the_entitlement mixed_schedule mixed_pool
           (world_of (free_record "2025-05" 2)) (free_record "2025-05" 2)).
  reflexivity.
Defined.

(** ** The chat limit of the lifetime-limit generation *)

(** The device check on an existing record either fails on a stored device
    that is not a string, before anything is done, or passes on and changes
    at most the stored device. *)
Lemma exec_deviceGuard_outcome (env : Env) (w : World) (d userData : Doc) (dev : string) :
  userDoc w = Some d →
  exec env (deviceGuard userData dev) w =
    (inl (EError "userData.deviceID.substring is not a function"), w) ∨
  ∃ d' ws',
    exec env (deviceGuard userData dev) w = (inr (), mkWorld (Some d') (usageLogs w) ws') ∧
    (∀ k : string, k ≠ "deviceID"%string → d' !! k = d !! k) ∧
    (d' !! "deviceID" = d !! "deviceID" ∨ d' !! "deviceID" = Some (VStr dev)).
Proof.
  intros Hw. unfold deviceGuard. destruct (_ && _).
  - destruct (userData !! "deviceID") as [[n | stored | b | t] |];
      try (left; reflexivity).
    right. cbn [bind perform exec handle userDoc usageLogs warnings]. rewrite Hw.
    cbn [exec]. eexists _, _. split; [reflexivity |]. rewrite device_patch_applied. split.
    + intros k Hk. rewrite lookup_insert_ne by auto. reflexivity.
    + right. simplify_map_eq. reflexivity.
  - right. exists d, (warnings w). split; [| split; [reflexivity | left; reflexivity]].
    cbn. destruct w; cbn in *; congruence.
Qed.

(** When the stored device is a string, the device check passes on. *)
Lemma exec_deviceGuard_existing (env : Env) (w : World) (d userData : Doc) (dev : string) :
  userDoc w = Some d →
  deviceIsText userData →
  ∃ d' ws',
    exec env (deviceGuard userData dev) w = (inr (), mkWorld (Some d') (usageLogs w) ws') ∧
    (∀ k : string, k ≠ "deviceID"%string → d' !! k = d !! k) ∧
    (d' !! "deviceID" = d !! "deviceID" ∨ d' !! "deviceID" = Some (VStr dev)).
Proof.
  intros Hw Htext.
  destruct (exec_deviceGuard_outcome env w d userData dev Hw) as [Hthrow | Hpass];
    [| exact Hpass].
  exfalso. revert Hthrow. unfold deviceGuard.
  destruct (userData !! "deviceID") as [v |] eqn:E; [| discriminate].
  destruct (Htext v E) as [stored ->].
  destruct (_ && _); cbn [bind perform exec handle]; [rewrite Hw |]; discriminate.
Qed.






(** ** Quota refusals of the photo gate *)

(** A request that is not refused on its arguments is an accepted one. *)
Lemma callClaudeVision_decided (request : Index.VisionRequest) :
  (∃ uid, accepted request uid) ∨
  (∃ h, Index.callClaudeVision request = Throw (EHttps h) ∧
        (code h = unauthenticated ∨ code h = invalid_argument)).
Proof.
  unfold accepted, Index.callClaudeVision.
  destruct (Index.auth request) as [uid |];
    [| right; eexists; split; [reflexivity | left; reflexivity]].
  destruct (String.eqb (str_or (Index.imageBase64 request) "") "") eqn:Eimg;
    [right; eexists; split; [reflexivity | right; reflexivity] |].
  destruct (bool_decide (str_or (Index.imageType request) "image/jpeg" ∈ Index.validTypes))
    eqn:Ety; cbn [negb];
    [| right; eexists; split; [reflexivity | right; reflexivity]].
  destruct (Index.tooLarge (str_or (Index.imageBase64 request) "")) eqn:Ebig;
    [right; eexists; split; [reflexivity | right; reflexivity] |].
  left. exists uid. split; [reflexivity |].
  split; [apply String.eqb_neq, Eimg |].
  split; [apply bool_decide_eq_true in Ety; exact Ety | reflexivity].
Qed.

(** The limit check either lets the record through or refuses it with the
    tier, limit and counter it has read. *)
Lemma checkPhotoLimit_decides (userData : Doc) :
  passesLimit userData ∨
  ∃ h u l,
    Index.checkPhotoLimit userData = Throw (EHttps h) ∧
    code h = resource_exhausted ∧
    userData !! "subscriptionTier" = Some (VStr "free") ∧
    Index.photoScansUsedOf userData = VNum u ∧
    Index.photoScansLimitOf userData = VNum l ∧
    l ≤ u ∧
    details h !! "tier" = Some (VStr "free") ∧
    details h !! "used" = Some (VNum u) ∧
    details h !! "limit" = Some (VNum l).
Proof.
  unfold passesLimit, Index.checkPhotoLimit.
  destruct (js_ge (Index.photoScansUsedOf userData) (Index.photoScansLimitOf userData))
    eqn:Hge; [| left; reflexivity].
  destruct (strict_eq (userData !! "subscriptionTier") (Some (VStr "free"))) eqn:Ht;
    [| left; reflexivity].
  right. apply bool_decide_eq_true in Ht. unfold js_ge in Hge.
  destruct (Index.photoScansUsedOf userData) as [u | | |]; try discriminate.
  destruct (Index.photoScansLimitOf userData) as [l | | |]; try discriminate.
  cbn in Hge. apply bool_decide_eq_true in Hge.
  eexists _, u, l. split; [reflexivity |]. cbn [code details andb].
  rewrite Ht. cbn [prop].
  repeat split; try assumption; simplify_map_eq; reflexivity.
Qed.

(** X14. A quota refusal of the photo gate is always justified. Take a
    caller whose stored record, if there is one, holds numbers as its photo
    counter and photo limit. Whenever [callClaudeVision] ends with
    [resource-exhausted], the caller's stored record is a [free] one whose
    photo counter, as the period rollover left it, has reached its limit;
    the error names that tier, limit and counter; and neither the counter
    nor the usage log has been changed by the refused request after the
    rollover. *)
Theorem quota_refusal_is_justified (env : Env) (w w' : World)
  (req : Index.VisionRequest) (h : HttpsError) :
  (∀ d, userDoc w = Some d → photoCounts d) →
  exec env (Index.callClaudeVision req) w = (inl (EHttps h), w') →
  code h = resource_exhausted →
  ∃ d d' u l,
    userDoc w = Some d ∧
    exec env (Index.ensureMonthlyPhotoReset d) w = (inr d', w') ∧
    userDoc w' = Some d' ∧
    d' !! "subscriptionTier" = Some (VStr "free") ∧
    Index.photoScansUsedOf d' = VNum u ∧
    Index.photoScansLimitOf d' = VNum l ∧
    l ≤ u ∧
    details h !! "tier" = Some (VStr "free") ∧
    details h !! "used" = Some (VNum u) ∧
    details h !! "limit" = Some (VNum l).
Proof.
  intros _ Hex Hcode.
  destruct (callClaudeVision_decided req) as [[uid Hacc] | (h0 & Hthrow & Hc)].
  2: { rewrite Hthrow in Hex. cbn in Hex. injection Hex as <- _.
       destruct Hc as [Hc | Hc]; rewrite Hc in Hcode; discriminate. }
  destruct (userDoc w) as [d |] eqn:Hw.
  - destruct (exec_ensurePhoto_total env w d Hw) as (d' & Hens).
    rewrite (exec_callClaudeVision_existing env w _ d d' req uid Hacc Hw Hens) in Hex.
    destruct (checkPhotoLimit_decides d')
      as [Hpass | (h1 & u & l & Hthrow & _ & Ht & Hu & Hl & Hle & D1 & D2 & D3)].
    + pose proof (afterReset_passed_no_quota env
                    (mkWorld (Some d') (usageLogs w) (warnings w)) d' d' req uid
                    eq_refl Hpass) as Hq.
      rewrite Hex in Hq. cbn in Hq. rewrite Hcode in Hq.
      rewrite bool_decide_eq_true_2 in Hq by reflexivity. discriminate.
    + rewrite exec_try_catch in Hex. unfold afterReset in Hex.
      rewrite exec_bind, Hthrow in Hex. cbn in Hex. injection Hex as <- <-.
      exists d, d', u, l. repeat split; assumption.
  - exfalso. rewrite (exec_callClaudeVision_new env w req uid Hacc Hw) in Hex.
    assert (Hq : isQuotaRejected (inl (EHttps h) : Exn + Index.VisionResult) = false).
    { change (inl (EHttps h) : Exn + Index.VisionResult)
        with (fst (inl (EHttps h) : Exn + Index.VisionResult, w')).
      rewrite <- Hex. eapply afterReset_passed_no_quota; reflexivity. }
    cbn in Hq. rewrite Hcode in Hq.
    rewrite bool_decide_eq_true_2 in Hq by reflexivity. discriminate.
Qed.

Lemma quota_refusal_is_justified_witness :
  ∃ h d d' u l,
    code h = resource_exhausted ∧
    userDoc (world_of (free_record "2025-06" 5)) = Some d ∧
    exec (answering_env 0) (Index.ensureMonthlyPhotoReset d)
         (world_of (free_record "2025-06" 5)) = (inr d', world_of (free_record "2025-06" 5)) ∧
    userDoc (world_of (free_record "2025-06" 5)) = Some d' ∧
    d' !! "subscriptionTier" = Some (VStr "free") ∧
    Index.photoScansUsedOf d' = VNum u ∧
    Index.photoScansLimitOf d' = VNum l ∧
    l ≤ u ∧
    details h !! "tier" = Some (VStr "free") ∧
    details h !! "used" = Some (VNum u) ∧
    details h !! "limit" = Some (VNum l).
Proof.
  assert (Hrun : ∃ h, exec (answering_env 0) (Index.callClaudeVision photo_request)
                        (world_of (free_record "2025-06" 5)) =
                      (inl (EHttps h), world_of (free_record "2025-06" 5)) ∧
                      code h = resource_exhausted)
    by (eexists; split; reflexivity).
  destruct Hrun as (h & Hex & Hcode).
  assert (Hnum : ∀ d, userDoc (world_of (free_record "2025-06" 5)) = Some d →
                      photoCounts d)
    by (intros d [= <-]; split; right; eexists; reflexivity).
  destruct (quota_refusal_is_justified (answering_env 0) (world_of (free_record "2025-06" 5))
              (world_of (free_record "2025-06" 5)) photo_request h Hnum Hex Hcode)
    as (d & d' & u & l & H).
  exists h, d, d', u, l. split; [exact Hcode | exact H].
Defined.

(** ** The photo gate of the lifetime-limit generation *)

Lemma callLifetimeVision_decided (request : Part002.VisionRequest) :
  (∃ uid img pt dev, acceptedLifetimeVision request uid img pt dev) ∨
  (∃ h, Part002.callClaudeVision request = Throw (EHttps h) ∧
        (code h = unauthenticated ∨ code h = invalid_argument)).
Proof.
  unfold Part002.callClaudeVision.
  destruct (Part002.auth request) as [uid |] eqn:Ha;
    [| right; eexists; split; [reflexivity | left; reflexivity]].
  destruct (String.eqb (str_or (Part002.imageBase64 request) "") "") eqn:E1;
    [right; eexists; split; [reflexivity | right; reflexivity] |].
  destruct (String.eqb (str_or (Part002.imageType request) "") "") eqn:E2;
    [right; eexists; split; [reflexivity | right; reflexivity] |].
  destruct (String.eqb (str_or (Part002.photoType request) "") "") eqn:E3;
    [right; eexists; split; [reflexivity | right; reflexivity] |].
  destruct (String.eqb (str_or (Part002.deviceID request) "") "") eqn:E4;
    [right; eexists; split; [reflexivity | right; reflexivity] |].
  cbn [orb].
  match goal with
  | |- context [bool_decide ?P] => destruct (bool_decide P) eqn:Ety
  end; cbn [negb];
    [| right; eexists; split; [reflexivity | right; reflexivity]].
  destruct (Index.tooLarge (str_or (Part002.imageBase64 request) "")) eqn:Ebig;
    [right; eexists; split; [reflexivity | right; reflexivity] |].
  left. eexists uid, _, _, _. unfold acceptedLifetimeVision. rewrite Ha.
  apply String.eqb_neq in E1, E2, E3, E4. apply bool_decide_eq_true in Ety.
  repeat split; try reflexivity; assumption.
Qed.

(** Every way the lifetime-limit request can end once the device check is
    behind it: either nothing is written and the request is not served, or
    the limit check has let it through and the usage increments are
    written. *)
Lemma afterGuard_vision_outcome (env : Env) (uid pt dev : string) (tier lim used : Value)
  (d1 : Doc) (lg : list Doc) (ws : list string) :
  ∃ out d1' lg',
    exec env (try_catch (Part002.afterGuard uid pt dev tier lim used) wrapInternal)
         (mkWorld (Some d1) lg ws) = (out, mkWorld (Some d1') lg' ws) ∧
    ((d1' = d1 ∧ lg' = lg ∧ isServed out = false) ∨
     (∃ tot, d1' = apply_patch (now env) (Part002.usageUpdate tot) d1 ∧
             js_ge used lim && strict_eq (Some tier) (Some (VStr "free")) = false)).
Proof.
  unfold Part002.afterGuard.
  destruct (js_ge used lim && strict_eq (Some tier) (Some (VStr "free"))) eqn:Hcheck;
    [eexists _, _, _; split; [reflexivity | left; repeat split] |].
  rewrite exec_try_catch, exec_bind, exec_secret. cbv beta iota.
  destruct (String.eqb (secret env) "") eqn:Hk;
    [eexists _, _, _; split; [reflexivity | left; repeat split] |].
  rewrite exec_bind. cbn [exec perform handle].
  destruct (upstream env Part002.visionModel) as [err | response] eqn:Hup;
    [eexists _, _, _; split; [reflexivity | left; repeat split] |].
  cbn [exec].
  destruct (negb (ok response)) eqn:Hok;
    [eexists _, _, _; split; [reflexivity | left; repeat split] |].
  destruct (json response) as [result |] eqn:Hj;
    [| eexists _, _, _; split; [reflexivity | left; repeat split] ].
  match goal with
  | |- context [String.eqb ?t ""] => destruct (String.eqb t "") eqn:Htxt
  end;
    [eexists _, _, _; split; [reflexivity | left; repeat split] |].
  rewrite exec_bind. cbn [exec perform handle userDoc].
  rewrite exec_bind. cbn [exec perform handle].
  destruct (logFault env) as [msg |] eqn:Hlog; cbn [exec userDoc usageLogs warnings];
    (eexists _, _, _; split; [reflexivity | right; eexists; split; reflexivity]).
Qed.

(** One request against a free record of the lifetime-limit generation:
    either it is not served and the counter stays, or the counter was below
    the limit and is now one higher. *)
Lemma lifetime_vision_step (env : Env) (w : World) (d : Doc)
  (req : Part002.VisionRequest) (L u : Z) :
  userDoc w = Some d →
  lifetimePhotoState L u d →
  ∃ out d' lg' ws',
    exec env (Part002.callClaudeVision req) w = (out, mkWorld (Some d') lg' ws') ∧
    ((lifetimePhotoState L u d' ∧ isServed out = false) ∨
     (lifetimePhotoState L (u + 1) d' ∧ u < L)).
Proof.
  intros Hw (Ht & Hl & Hu).
  destruct (callLifetimeVision_decided req)
    as [(uid & img & pt & dev & Hacc) | (h & Hthrow & _)].
  2: { rewrite Hthrow. cbn. exists (inl (EHttps h)), d, (usageLogs w), (warnings w).
       split; [destruct w; cbn in *; congruence |]. left. repeat split; assumption. }
  rewrite (callLifetimeVision_accepted req uid img pt dev Hacc).
  unfold Part002.visionBody.
  rewrite exec_try_catch_bind, (exec_loadLifetimeVision env w d dev Hw).
  rewrite exec_try_catch_bind.
  destruct (exec_deviceGuard_outcome env w d d dev Hw)
    as [-> | (dg & ws' & -> & Hfr & Hdg)].
  { cbn [wrapInternal exec]. eexists _, d, (usageLogs w), (warnings w).
    split; [destruct w; cbn in *; subst; reflexivity |].
    left. repeat split; assumption. }
  rewrite Ht, Hu. cbn [js_or truthy].
  change (if negb (String.eqb "free" "") then VStr "free" else VStr "free")
    with (VStr "free").
  rewrite strict_eq_false by discriminate.
  rewrite Hl.
  assert (Hused : (if negb (u =? 0) then VNum u else VNum 0) = VNum u).
  { destruct (u =? 0) eqn:E; [apply Z.eqb_eq in E; subst |]; reflexivity. }
  rewrite Hused.
  destruct (afterGuard_vision_outcome env uid pt dev (VStr "free") (VNum L) (VNum u)
              dg (usageLogs w) ws') as (out & d' & lg' & -> & Hcase).
  exists out, d', lg', ws'. split; [reflexivity |].
  assert (Hg : lifetimePhotoState L u dg).
  { unfold lifetimePhotoState. rewrite !Hfr by discriminate. repeat split; assumption. }
  destruct Hcase as [(-> & _ & Hns) | (tot & -> & Hcheck)].
  - left. split; assumption.
  - right. destruct Hg as (Ht' & Hl' & Hu'). split.
    + unfold lifetimePhotoState. rewrite !lookup_apply_patch, Ht', Hu'.
      unfold Part002.usageUpdate. split; [reflexivity |]. split; [| reflexivity].
      rewrite lookup_insert_ne by discriminate. rewrite lookup_insert_ne by discriminate.
      rewrite lookup_insert_ne by discriminate. rewrite lookup_singleton_ne by discriminate.
      exact Hl'.
    + rewrite strict_eq_true, andb_true_r in Hcheck by reflexivity.
      unfold js_ge in Hcheck. cbn in Hcheck. apply bool_decide_eq_false in Hcheck. lia.
Qed.

(** X15. The lifetime photo allowance is never replenished. Starting from a
    free record with [u] scans counted against a limit of [L], take any
    photo requests one after the other, each in whatever environment it
    arrives in — any month, any clock, the provider and the log answering or
    failing: at most [L - u] of them are served, and the stored counter
    never goes down. *)
Theorem lifetime_allowance_is_never_replenished
  (reqs : list (Env * Part002.VisionRequest)) :
  ∀ (w : World) (d : Doc) (L u : Z),
    userDoc w = Some d →
    lifetimePhotoState L u d →
    (length (List.filter isServed (fst (run_in_turn Part002.callClaudeVision reqs w)))
     ≤ Z.to_nat (L - u))%nat ∧
    ∃ d' u',
      userDoc (snd (run_in_turn Part002.callClaudeVision reqs w)) = Some d' ∧
      lifetimePhotoState L u' d' ∧ u ≤ u'.
Proof.
  induction reqs as [| [env req] reqs IH]; intros w d L u Hw Hst.
  - cbn. split; [lia |]. exists d, u. split; [exact Hw |]. split; [exact Hst | lia].
  - cbn [run_in_turn].
    destruct (lifetime_vision_step env w d req L u Hw Hst)
      as (out & d1 & lg1 & ws1 & -> & Hcase).
    destruct Hcase as [[Hst1 Hns] | [Hst1 Hlt]].
    + destruct (IH (mkWorld (Some d1) lg1 ws1) d1 L u eq_refl Hst1)
        as (Hcount & d' & u' & Hd' & Hst' & Hle).
      destruct (run_in_turn Part002.callClaudeVision reqs (mkWorld (Some d1) lg1 ws1))
        as [outs w2]. cbn [fst snd List.filter] in *. rewrite Hns.
      split; [exact Hcount |]. exists d', u'. split; [exact Hd' |]. split; assumption.
    + destruct (IH (mkWorld (Some d1) lg1 ws1) d1 L (u + 1) eq_refl Hst1)
        as (Hcount & d' & u' & Hd' & Hst' & Hle).
      destruct (run_in_turn Part002.callClaudeVision reqs (mkWorld (Some d1) lg1 ws1))
        as [outs w2]. cbn [fst snd List.filter] in *.
      split; [destruct (isServed out); cbn [length]; lia |].
      exists d', u'. split; [exact Hd' |]. split; [exact Hst' | lia].
Qed.

Lemma lifetime_allowance_is_never_replenished_witness :
  let reqs := [ (answering_env 0, lifetime_photo_request);
                (failing_env, lifetime_photo_request);
                (next_month_env, lifetime_photo_request);
                (next_month_env, lifetime_photo_request) ] in
  (length (List.filter isServed
             (fst (run_in_turn Part002.callClaudeVision reqs (world_of lifetime_record))))
   ≤ Z.to_nat (3 - 2))%nat ∧
  ∃ d' u',
    userDoc (snd (run_in_turn Part002.callClaudeVision reqs (world_of lifetime_record)))
      = Some d' ∧
    lifetimePhotoState 3 u' d' ∧ 2 ≤ u'.
Proof.
  apply (lifetime_allowance_is_never_replenished
           [ (answering_env 0, lifetime_photo_request);
             (failing_env, lifetime_photo_request);
             (next_month_env, lifetime_photo_request);
             (next_month_env, lifetime_photo_request) ]
           (world_of lifetime_record) lifetime_record 3 2).
  - reflexivity.
  - repeat split.
Defined.

(** X16. In the lifetime-limit generation the device is rebound before the
    limit is checked: a request from a new device against a free record
    whose photo allowance is spent is refused with [resource-exhausted], and
    yet the stored device is now the new one and the warning is written;
    no other field of the record and no usage log is changed. *)
Theorem refused_scan_still_rebinds_the_device (env : Env) (w : World) (d : Doc)
  (req : Part002.VisionRequest) (uid img pt dev bound : string) (L u : Z) :
  acceptedLifetimeVision req uid img pt dev →
  userDoc w = Some d →
  d !! "deviceID" = Some (VStr bound) → bound ≠ ""%string → bound ≠ dev →
  lifetimePhotoState L u d →
  L ≤ u →
  ∃ h,
    exec env (Part002.callClaudeVision req) w =
      (inl (EHttps h),
       mkWorld (Some (<[ "deviceID" := VStr dev ]> d)) (usageLogs w)
               (warnings w ++ [deviceMismatchWarning])) ∧
    code h = resource_exhausted ∧
    details h !! "limit" = Some (VNum L) ∧
    details h !! "tier" = Some (VStr "free").
Proof.
  intros Hacc Hw Hd Hne Hdiff (Ht & Hl & Hu) Hle.
  rewrite (callLifetimeVision_accepted req uid img pt dev Hacc).
  unfold Part002.visionBody.
  rewrite exec_try_catch_bind, (exec_loadLifetimeVision env w d dev Hw).
  rewrite exec_try_catch_bind.
  rewrite (exec_deviceGuard_mismatch env w d d bound dev Hw Hd Hne Hdiff).
  rewrite Ht, Hu. cbn [js_or truthy].
  change (if negb (String.eqb "free" "") then VStr "free" else VStr "free")
    with (VStr "free").
  rewrite strict_eq_false by discriminate. rewrite Hl.
  assert (Hused : (if negb (u =? 0) then VNum u else VNum 0) = VNum u).
  { destruct (u =? 0) eqn:E; [apply Z.eqb_eq in E; subst |]; reflexivity. }
  rewrite Hused. unfold Part002.afterGuard.
  assert (Hge : js_ge (VNum u) (VNum L) = true).
  { unfold js_ge. cbn. apply bool_decide_eq_true. lia. }
  rewrite Hge, strict_eq_true by reflexivity. cbn [andb try_catch exec wrapInternal].
  eexists. split; [reflexivity |]. cbn [code details].
  split; [reflexivity |]. split; simplify_map_eq; reflexivity.
Qed.

Lemma refused_scan_still_rebinds_the_device_witness :
  ∃ h,
    exec (answering_env 0) (Part002.callClaudeVision lifetime_photo_request)
         (world_of spent_record) =
      (inl (EHttps h),
       mkWorld (Some (<[ "deviceID" := VStr "device-B" ]> spent_record))
               (usageLogs (world_of spent_record))
               (warnings (world_of spent_record)
                  ++ [deviceMismatchWarning])) ∧
    code h = resource_exhausted ∧
    details h !! "limit" = Some (VNum 3) ∧
    details h !! "tier" = Some (VStr "free").
Proof.
  apply (refused_scan_still_rebinds_the_device (answering_env 0) (world_of spent_record)
           spent_record lifetime_photo_request "user-1" "aGVsbG8=" "receipt" "device-B"
           "device-A" 3 3).
  - exact lifetime_photo_request_accepted.
  - reflexivity.
  - reflexivity.
  - discriminate.
  - discriminate.
  - repeat split.
  - lia.
Defined.

(** X17. An answer without text is not charged. Take an existing record
    whose photo counter and limit are numbers, whose stored device, if any,
    is a string, and which the photo limit lets through. When the provider
    answers the lifetime-limit [callClaudeVision] with a body that has no
    text block, or whose first text block is blank — empty, or made of the
    white space and line terminators that [trim] strips, the no-break space
    and the byte order mark among them — the request ends with [internal]
    and [Claude Vision returned empty response]; the photo counter and the
    statistics are not incremented and no usage-log entry is written; only
    the device check before it may have rebound the device. *)
Theorem empty_answer_is_not_charged (env : Env) (w : World) (d : Doc)
  (req : Part002.VisionRequest) (uid img pt dev : string)
  (response : Response) (result : ApiResult) :
  acceptedLifetimeVision req uid img pt dev →
  userDoc w = Some d →
  deviceIsText d →
  photoCounts d →
  lifetimePhotoAllows d →
  secret env ≠ ""%string →
  upstream env Part002.visionModel = inr response →
  ok response = true →
  json response = Some result →
  extractedText result = ""%string →
  ∃ d' ws',
    exec env (Part002.callClaudeVision req) w =
      (inl (https internal "Claude Vision returned empty response"),
       mkWorld (Some d') (usageLogs w) ws') ∧
    (∀ k : string, k ≠ "deviceID"%string → d' !! k = d !! k).
Proof.
  intros Hacc Hw Htext _ Hallow Hkey Hup Hok Hj Htxt.
  rewrite (callLifetimeVision_accepted req uid img pt dev Hacc).
  unfold Part002.visionBody.
  rewrite exec_try_catch_bind, (exec_loadLifetimeVision env w d dev Hw).
  rewrite exec_try_catch_bind.
  destruct (exec_deviceGuard_existing env w d d dev Hw Htext)
    as (dg & ws' & -> & Hfr & Hdg).
  unfold lifetimePhotoAllows in Hallow. cbv zeta in Hallow.
  unfold Part002.afterGuard. rewrite Hallow.
  apply String.eqb_neq in Hkey.
  rewrite exec_try_catch, exec_bind, exec_secret; cbv beta iota.
  rewrite Hkey, exec_bind; cbn [exec perform handle]; rewrite Hup; cbn [exec].
  rewrite Hok, Hj. cbn [negb]. fold (extractedText result). rewrite Htxt.
  cbn [String.eqb exec wrapInternal].
  exists dg, ws'. split; [reflexivity | exact Hfr].
Qed.

Lemma empty_answer_is_not_charged_witness :
  ∃ d' ws',
    exec blank_env (Part002.callClaudeVision lifetime_photo_request)
         (world_of lifetime_record) =
      (inl (https internal "Claude Vision returned empty response"),
       mkWorld (Some d') (usageLogs (world_of lifetime_record)) ws') ∧
    (∀ k : string, k ≠ "deviceID"%string → d' !! k = lifetime_record !! k).
Proof.
  apply (empty_answer_is_not_charged blank_env (world_of lifetime_record) lifetime_record
           lifetime_photo_request "user-1" "aGVsbG8=" "receipt" "device-B"
           (mkResponse true 200 "OK" "" (Some blank_result)) blank_result).
  - exact lifetime_photo_request_accepted.
  - reflexivity.
  - intros v [= <-]. eexists; reflexivity.
  - split; right; eexists; reflexivity.
  - reflexivity.
  - discriminate.
  - reflexivity.
  - reflexivity.
  - reflexivity.
  - reflexivity.
Defined.

(** ** The voice gate of the lifetime-limit generation *)

Lemma fetched_try_catch_bind {A B : Type} (env : Env) (p : Prog A) (f : A → Prog B)
  (h : Exn → Prog B) (w : World) :
  fetched env (try_catch (bind p f) h) w =
  fetched env p w ++
  match exec env p w with
  | (inl e, w') => fetched env (h e) w'
  | (inr a, w') => fetched env (try_catch (f a) h) w'
  end.
Proof.
  revert w. induction p as [a | e | X e k IH]; intros w; simpl.
  - reflexivity.
  - reflexivity.
  - destruct (handle env e w) as [r w']. rewrite IH, app_assoc. reflexivity.
Qed.

Section LifetimeVoiceGate.

Variable stringify : string → string.

Lemma callLifetimeVoice_accepted (req : LifetimeVoice.WhisperRequest) (uid : string) :
  acceptedLifetimeVoice req uid →
  LifetimeVoice.callWhisperProxy stringify req =
  try_catch (LifetimeVoice.whisperBody stringify uid req) wrapInternal.
Proof.
  intros (Ha & Hd & Hs). unfold LifetimeVoice.callWhisperProxy. rewrite Ha.
  apply String.eqb_neq in Hd. rewrite Hd.
  rewrite bool_decide_eq_false_2 by lia. reflexivity.
Qed.

Lemma exec_loadLifetimeVoice (env : Env) (w : World) (d : Doc) (dev : string) :
  userDoc w = Some d → exec env (LifetimeVoice.loadUserData dev) w = (inr d, w).
Proof.
  intros Hd. unfold LifetimeVoice.loadUserData. rewrite exec_bind. simpl. rewrite Hd.
  reflexivity.
Qed.

(** Every way the voice request can end once the device check is behind it. *)
Lemma voice_afterGuard_outcome (env : Env) (uid dev lang : string) (bytes : Z)
  (userData d1 : Doc) (lg : list Doc) (ws : list string) :
  ∃ out d1' lg',
    exec env (try_catch (LifetimeVoice.afterGuard stringify uid dev lang bytes userData)
                wrapInternal)
         (mkWorld (Some d1) lg ws) = (out, mkWorld (Some d1') lg' ws) ∧
    fetched env (try_catch (LifetimeVoice.afterGuard stringify uid dev lang bytes userData)
                   wrapInternal)
            (mkWorld (Some d1) lg ws) =
      (if voiceGateRefuses userData || String.eqb (secret env) ""
       then [] else [LifetimeVoice.whisperModel]) ∧
    if voiceGateRefuses userData
    then d1' = d1 ∧ lg' = lg ∧ isQuotaRejected out = true
    else isQuotaRejected out = false ∧
         ((d1' = d1 ∧ lg' = lg ∧ isServed out = false) ∨
          d1' = apply_patch (now env) LifetimeVoice.usageUpdate d1).
Proof.
  unfold LifetimeVoice.afterGuard. fold (voiceGateRefuses userData).
  destruct (voiceGateRefuses userData) eqn:Hcheck;
    [eexists _, _, _; split; [reflexivity |]; split; [reflexivity |]; repeat split |].
  cbn [orb].
  rewrite exec_try_catch, fetched_try_catch, exec_bind, fetched_bind, exec_secret.
  cbn [fetched perform handle fetch_of app]. cbv beta iota.
  destruct (String.eqb (secret env) "") eqn:Hk;
    [eexists _, _, _; split; [reflexivity |]; split; [reflexivity |];
     split; [reflexivity | left; repeat split] |].
  rewrite exec_bind, fetched_bind. cbn [exec fetched perform handle fetch_of app].
  destruct (upstream env LifetimeVoice.whisperModel) as [err | response] eqn:Hup;
    [eexists _, _, _; split; [reflexivity |]; split; [reflexivity |];
     split; [reflexivity | left; repeat split] |].
  cbn [exec fetched].
  destruct (negb (ok response)) eqn:Hok;
    [eexists _, _, _; split; [reflexivity |]; split; [reflexivity |];
     split; [reflexivity | left; repeat split] |].
  rewrite exec_bind, fetched_bind. cbn [exec fetched perform handle userDoc fetch_of app].
  rewrite exec_bind, fetched_bind. cbn [exec fetched perform handle fetch_of app].
  destruct (logFault env) as [msg |] eqn:Hlog; cbn [exec fetched userDoc usageLogs warnings];
    (eexists _, _, _; split; [reflexivity |]; split; [reflexivity |];
     split; [reflexivity | right; reflexivity]).
Qed.

Lemma fetched_deviceGuard (env : Env) (w : World) (userData : Doc) (dev : string) :
  fetched env (deviceGuard userData dev) w = [].
Proof.
  unfold deviceGuard. destruct (_ && _); [| reflexivity].
  destruct (userData !! "deviceID") as [[n | stored | b | t] |]; try reflexivity.
  cbn [bind perform fetched handle fetch_of app].
  destruct (userDoc _); reflexivity.
Qed.

(** The whole request against an existing record. *)
Lemma lifetime_voice_request_outcome (env : Env) (w : World) (d : Doc)
  (req : LifetimeVoice.WhisperRequest) (uid : string) :
  acceptedLifetimeVoice req uid →
  userDoc w = Some d →
  deviceIsText d →
  ∃ out dg d' lg' ws',
    exec env (LifetimeVoice.callWhisperProxy stringify req) w =
      (out, mkWorld (Some d') lg' ws') ∧
    fetched env (LifetimeVoice.callWhisperProxy stringify req) w =
      (if voiceGateRefuses d || String.eqb (secret env) ""
       then [] else [LifetimeVoice.whisperModel]) ∧
    (∀ k : string, k ≠ "deviceID"%string → dg !! k = d !! k) ∧
    if voiceGateRefuses d
    then d' = dg ∧ lg' = usageLogs w ∧ isQuotaRejected out = true
    else isQuotaRejected out = false ∧
         ((d' = dg ∧ lg' = usageLogs w ∧ isServed out = false) ∨
          d' = apply_patch (now env) LifetimeVoice.usageUpdate dg).
Proof.
  intros Hacc Hw Htext. rewrite (callLifetimeVoice_accepted req uid Hacc).
  unfold LifetimeVoice.whisperBody.
  set (dev := str_or (LifetimeVoice.deviceID req) "unknown").
  assert (Hfl : fetched env (LifetimeVoice.loadUserData dev) w = []).
  { unfold LifetimeVoice.loadUserData. cbn [bind perform fetched handle fetch_of app].
    rewrite Hw. reflexivity. }
  rewrite exec_try_catch_bind, fetched_try_catch_bind, Hfl.
  rewrite (exec_loadLifetimeVoice env w d dev Hw). cbn [app].
  rewrite exec_try_catch_bind, fetched_try_catch_bind, fetched_deviceGuard. cbn [app].
  destruct (exec_deviceGuard_existing env w d d dev Hw Htext)
    as (dg & ws' & -> & Hfr & Hdg).
  destruct (voice_afterGuard_outcome env uid dev
              (str_or (LifetimeVoice.language req) "auto") (LifetimeVoice.audioBytes req)
              d dg (usageLogs w) ws') as (out & d' & lg' & Hex & Hfe & Hcase).
  exists out, dg, d', lg', ws'. split; [exact Hex |]. split; [exact Hfe |].
  split; [exact Hfr | exact Hcase].
Qed.

End LifetimeVoiceGate.

(** X18. The lifetime-limit [callWhisperProxy] refuses a spent allowance
    before it calls the provider. For an existing free record whose voice
    counter [u] has reached its limit [L], an accepted request ends with
    [resource-exhausted] and the message
    [VOICE_ACTIONS_LIMIT_REACHED:L:free]; the provider is not called, no
    usage log is written and no field of the record other than the bound
    device is changed. The stored device, if any, is taken to be a string. *)
Theorem spent_voice_allowance_is_refused (stringify : string → string)
  (env : Env) (w : World) (d : Doc) (req : LifetimeVoice.WhisperRequest)
  (uid : string) (L u : Z) :
  acceptedLifetimeVoice req uid →
  userDoc w = Some d →
  deviceIsText d →
  d !! "subscriptionTier" = Some (VStr "free") →
  LifetimeVoice.voiceActionsUsedOf d = VNum u →
  LifetimeVoice.voiceActionsLimitOf d = VNum L →
  L ≤ u →
  ∃ h d' ws',
    exec env (LifetimeVoice.callWhisperProxy stringify req) w =
      (inl (EHttps h), mkWorld (Some d') (usageLogs w) ws') ∧
    code h = resource_exhausted ∧
    message h = ("VOICE_ACTIONS_LIMIT_REACHED:" +:+ pretty L +:+ ":free")%string ∧
    details h !! "limit" = Some (VNum L) ∧
    (∀ k : string, k ≠ "deviceID"%string → d' !! k = d !! k) ∧
    fetched env (LifetimeVoice.callWhisperProxy stringify req) w = [].
Proof.
  intros Hacc Hw Htext Ht Hu Hl Hle.
  assert (Hgate : voiceGateRefuses d = true).
  { unfold voiceGateRefuses. rewrite Hu, Hl, Ht, strict_eq_true by reflexivity.
    unfold js_ge. cbn. rewrite bool_decide_eq_true_2 by lia. reflexivity. }
  assert (Hfe : fetched env (LifetimeVoice.callWhisperProxy stringify req) w = []).
  { destruct (lifetime_voice_request_outcome stringify env w d req uid Hacc Hw Htext)
      as (out & dg & d' & lg' & ws' & _ & Hfe & _).
    rewrite Hgate in Hfe. exact Hfe. }
  rewrite (callLifetimeVoice_accepted stringify req uid Hacc) in Hfe |- *.
  unfold LifetimeVoice.whisperBody.
  rewrite exec_try_catch_bind, (exec_loadLifetimeVoice env w d _ Hw).
  rewrite exec_try_catch_bind.
  destruct (exec_deviceGuard_existing env w d d
              (str_or (LifetimeVoice.deviceID req) "unknown") Hw Htext)
    as (dg & ws2 & -> & Hfr & Hdg).
  unfold LifetimeVoice.afterGuard.
  fold (voiceGateRefuses d). rewrite Hgate, Hl, Ht.
  cbn [try_catch exec wrapInternal js_to_string].
  eexists _, dg, ws2.
  split; [reflexivity |]. cbn [code message details prop].
  split; [reflexivity |]. split; [reflexivity |].
  split; [simplify_map_eq; reflexivity |]. split; [exact Hfr | exact Hfe].
Qed.

Lemma spent_voice_allowance_is_refused_witness :
  ∃ h d' ws',
    exec (answering_env 0) (LifetimeVoice.callWhisperProxy id lifetime_voice_request)
         (world_of spent_record) =
      (inl (EHttps h), mkWorld (Some d') (usageLogs (world_of spent_record)) ws') ∧
    code h = resource_exhausted ∧
    message h = ("VOICE_ACTIONS_LIMIT_REACHED:" +:+ pretty 3 +:+ ":free")%string ∧
    details h !! "limit" = Some (VNum 3) ∧
    (∀ k : string, k ≠ "deviceID"%string → d' !! k = spent_record !! k) ∧
    fetched (answering_env 0) (LifetimeVoice.callWhisperProxy id lifetime_voice_request)
            (world_of spent_record) = [].
Proof.
  apply (spent_voice_allowance_is_refused id (answering_env 0) (world_of spent_record)
           spent_record lifetime_voice_request "user-1" 3 3).
  - repeat split; [discriminate | cbn; lia].
  - reflexivity.
  - intros v [= <-]. eexists; reflexivity.
  - reflexivity.
  - reflexivity.
  - reflexivity.
  - lia.
Defined.

(** ** The summary of the lifetime-limit generation *)





(** ** The rebinding of the device *)

Lemma proxy_request_from_bound_device (env : Env) (w : World) (d : Doc)
  (req : Part004.ProxyRequest) :
  Part004.auth req ≠ None →
  userDoc w = Some d →
  d !! "deviceID" = Some (VStr (str_or (Part004.deviceID req) "unknown")) →
  ∃ out d' lg',
    exec env (Part004.callClaudeProxy req) w = (out, mkWorld (Some d') lg' (warnings w)) ∧
    d' !! "deviceID" = Some (VStr (str_or (Part004.deviceID req) "unknown")).
Proof.
  intros Ha Hw Hd. unfold Part004.callClaudeProxy.
  destruct (Part004.auth req) as [uid |]; [| done].
  unfold Part004.proxyBody.
  rewrite exec_try_catch_bind, (exec_loadProxy env w d _ Hw), exec_try_catch_bind.
  rewrite exec_deviceGuard_match by exact Hd.
  destruct (exec_afterGuard_proxy env uid (str_or (Part004.deviceID req) "unknown")
              (Part004.hasTools req) d d (usageLogs w)) as (out & d' & lg' & Hrun & Hdev).
  exists out, d', lg'. rewrite <- (Hrun (warnings w)).
  split; [destruct w; cbn in *; congruence | rewrite Hdev; exact Hd].
Qed.

Lemma proxy_request_from_new_device (env : Env) (w : World) (d : Doc)
  (req : Part004.ProxyRequest) (bound : string) :
  Part004.auth req ≠ None →
  userDoc w = Some d →
  d !! "deviceID" = Some (VStr bound) → bound ≠ ""%string →
  bound ≠ str_or (Part004.deviceID req) "unknown" →
  ∃ out d' lg',
    exec env (Part004.callClaudeProxy req) w =
      (out, mkWorld (Some d') lg'
              (warnings w ++ [deviceMismatchWarning])) ∧
    d' !! "deviceID" = Some (VStr (str_or (Part004.deviceID req) "unknown")).
Proof.
  intros Ha Hw Hd Hne Hdiff. unfold Part004.callClaudeProxy.
  destruct (Part004.auth req) as [uid |]; [| done].
  unfold Part004.proxyBody.
  rewrite exec_try_catch_bind, (exec_loadProxy env w d _ Hw), exec_try_catch_bind.
  rewrite (exec_deviceGuard_mismatch env w d d bound _ Hw Hd Hne Hdiff).
  destruct (exec_afterGuard_proxy env uid (str_or (Part004.deviceID req) "unknown")
              (Part004.hasTools req) d
              (<[ "deviceID" := VStr (str_or (Part004.deviceID req) "unknown") ]> d)
              (usageLogs w)) as (out & d' & lg' & Hrun & Hdev).
  exists out, d', lg'. rewrite Hrun. split; [reflexivity |].
  rewrite Hdev. simplify_map_eq. reflexivity.
Qed.

Lemma proxy_requests_from_bound_device (dev : string)
  (reqs : list (Env * Part004.ProxyRequest)) :
  Forall (λ er, Part004.auth (snd er) ≠ None ∧
                str_or (Part004.deviceID (snd er)) "unknown" = dev) reqs →
  ∀ (w : World) (d : Doc),
    userDoc w = Some d →
    d !! "deviceID" = Some (VStr dev) →
    warnings (snd (run_in_turn Part004.callClaudeProxy reqs w)) = warnings w ∧
    stored (snd (run_in_turn Part004.callClaudeProxy reqs w)) "deviceID" = Some (VStr dev).
Proof.
  induction 1 as [| [env req] reqs [Ha Hdev] Hrest IH]; intros w d Hw Hd.
  - cbn. split; [reflexivity |]. unfold stored. rewrite Hw. exact Hd.
  - cbn [run_in_turn]. cbn [fst snd] in Ha, Hdev.
    destruct (proxy_request_from_bound_device env w d req Ha Hw)
      as (out & d' & lg' & Hex & Hd'); [rewrite Hdev; exact Hd |].
    rewrite Hex, Hdev in *.
    destruct (IH (mkWorld (Some d') lg' (warnings w)) d' eq_refl Hd') as [Hws Hst].
    destruct (run_in_turn Part004.callClaudeProxy reqs (mkWorld (Some d') lg' (warnings w)))
      as [outs w2]. cbn [fst snd] in *. split; assumption.
Qed.

(** X20. A change of device is warned about once. When a caller whose
    record is bound to one device sends chat requests from another device,
    one after the other, in whatever environments, the first request writes
    the one warning and rebinds the record; every later request from that
    device finds the record bound to it and writes no warning, whether the
    requests are served or not. *)
Theorem device_change_is_warned_once (env : Env) (req : Part004.ProxyRequest)
  (reqs : list (Env * Part004.ProxyRequest)) (w : World) (d : Doc) (bound dev : string) :
  Forall (λ er, Part004.auth (snd er) ≠ None ∧
                str_or (Part004.deviceID (snd er)) "unknown" = dev) ((env, req) :: reqs) →
  userDoc w = Some d →
  d !! "deviceID" = Some (VStr bound) →
  bound ≠ ""%string →
  bound ≠ dev →
  warnings (snd (run_in_turn Part004.callClaudeProxy ((env, req) :: reqs) w)) =
    warnings w ++ [deviceMismatchWarning] ∧
  stored (snd (run_in_turn Part004.callClaudeProxy ((env, req) :: reqs) w)) "deviceID" =
    Some (VStr dev).
Proof.
  intros Hall Hw Hd Hne Hdiff. apply Forall_cons in Hall as [[Ha Hdev] Hrest].
  cbn [fst snd] in Ha, Hdev. cbn [run_in_turn].
  destruct (proxy_request_from_new_device env w d req bound Ha Hw Hd Hne)
    as (out & d' & lg' & Hex & Hd'); [rewrite Hdev; exact Hdiff |].
  rewrite Hex. rewrite Hdev in Hd'.
  destruct (proxy_requests_from_bound_device dev reqs Hrest
              (mkWorld (Some d') lg'
                 (warnings w ++ [deviceMismatchWarning]))
              d' eq_refl Hd') as [Hws Hst].
  destruct (run_in_turn Part004.callClaudeProxy reqs _) as [outs w2].
  cbn [fst snd] in *. split; assumption.
Qed.

Lemma device_change_is_warned_once_witness :
  warnings (snd (run_in_turn Part004.callClaudeProxy
                   [ (answering_env 0, chat_request); (failing_env, chat_request);
                     (next_month_env, chat_request) ]
                   (world_of lifetime_record))) =
    warnings (world_of lifetime_record)
      ++ [deviceMismatchWarning] ∧
  stored (snd (run_in_turn Part004.callClaudeProxy
                 [ (answering_env 0, chat_request); (failing_env, chat_request);
                   (next_month_env, chat_request) ]
                 (world_of lifetime_record))) "deviceID" = Some (VStr "device-B").
Proof.
  apply (device_change_is_warned_once (answering_env 0) chat_request
           [ (failing_env, chat_request); (next_month_env, chat_request) ]
           (world_of lifetime_record) lifetime_record "device-A" "device-B").
  - repeat constructor; discriminate.
  - reflexivity.
  - reflexivity.
  - discriminate.
  - discriminate.
Defined.

(** ** The summary of a [pro] record *)



(** ** The usage log *)

(** One photo request adds one log entry when it is served, none otherwise. *)
Lemma photo_request_logs (env : Env) (req : Index.VisionRequest) (w : World) :
  (isServed (fst (exec env (Index.callClaudeVision req) w)) = true ∧
   ∃ entry, usageLogs (snd (exec env (Index.callClaudeVision req) w)) =
            usageLogs w ++ [entry]) ∨
  (isServed (fst (exec env (Index.callClaudeVision req) w)) = false ∧
   usageLogs (snd (exec env (Index.callClaudeVision req) w)) = usageLogs w).
Proof.
  destruct (callClaudeVision_decided req) as [[uid Hacc] | (h & -> & _)];
    [| right; split; reflexivity].
  assert (Hafter : ∀ (userData d1 : Doc) (w1 : World),
            userDoc w1 = Some d1 → usageLogs w1 = usageLogs w →
            exec env (Index.callClaudeVision req) w =
              exec env (try_catch (afterReset uid req userData) wrapInternal) w1 →
            (isServed (fst (exec env (Index.callClaudeVision req) w)) = true ∧
             ∃ entry, usageLogs (snd (exec env (Index.callClaudeVision req) w)) =
                      usageLogs w ++ [entry]) ∨
            (isServed (fst (exec env (Index.callClaudeVision req) w)) = false ∧
             usageLogs (snd (exec env (Index.callClaudeVision req) w)) = usageLogs w)).
  { intros userData d1 w1 Hw1 Hlg ->.
    destruct (checkPhotoLimit_decides userData) as [Hpass | (h & u & l & Hthrow & _)].
    - rewrite (exec_afterReset_passed env w1 d1 userData req uid Hw1 Hpass).
      destruct (String.eqb (secret env) ""); [right; split; [reflexivity | exact Hlg] |].
      destruct (loopOutcome env) as [e | [[[result m] |] l]];
        [right; split; [reflexivity | exact Hlg] | | right; split; [reflexivity | exact Hlg]].
      destruct (logFault env); [right; split; [reflexivity | exact Hlg] |].
      left. split; [reflexivity |]. cbn [snd usageLogs]. rewrite Hlg. eexists. reflexivity.
    - rewrite exec_try_catch. unfold afterReset. rewrite exec_bind, Hthrow.
      right. split; [reflexivity | exact Hlg]. }
  destruct (userDoc w) as [d |] eqn:Hw.
  - destruct (exec_ensurePhoto_total env w d Hw) as (userData & Hens).
    apply (Hafter userData userData
             (mkWorld (Some userData) (usageLogs w) (warnings w)) eq_refl eq_refl).
    apply (exec_callClaudeVision_existing env w _ d userData req uid Hacc Hw Hens).
  - pose proof (exec_callClaudeVision_new env w req uid Hacc Hw) as Hnew.
    match type of Hnew with
    | _ = exec _ (try_catch (afterReset _ _ ?ud) _) (mkWorld (Some ?d1) ?lg ?ws) =>
        apply (Hafter ud d1 (mkWorld (Some d1) lg ws) eq_refl eq_refl Hnew)
    end.
Qed.

(** X22. The usage log has one entry per served photo request. Take any
    photo requests one after the other, against any world — with or without
    a record — each in whatever environment it arrives in: the usage log
    grows by exactly as many entries as requests were served. A request that
    is refused, or fails at the provider, or whose log write fails, leaves
    no entry and is not served. *)
Theorem usage_log_counts_the_served_requests (reqs : list (Env * Index.VisionRequest)) :
  ∀ w : World,
    length (usageLogs (snd (run_in_turn Index.callClaudeVision reqs w))) =
    (length (usageLogs w) +
     length (List.filter isServed (fst (run_in_turn Index.callClaudeVision reqs w))))%nat.
Proof.
  induction reqs as [| [env req] reqs IH]; intros w.
  - cbn. lia.
  - cbn [run_in_turn].
    pose proof (photo_request_logs env req w) as Hone.
    destruct (exec env (Index.callClaudeVision req) w) as [out w1].
    specialize (IH w1).
    destruct (run_in_turn Index.callClaudeVision reqs w1) as [outs w2].
    cbn [fst snd List.filter] in *. rewrite IH.
    destruct Hone as [[-> [entry ->]] | [-> ->]].
    + rewrite length_app. cbn. lia.
    + lia.
Qed.

Lemma usage_log_counts_the_served_requests_witness :
  length (usageLogs (snd (run_in_turn Index.callClaudeVision
                            [ (answering_env 0, photo_request);
                              (failing_env, photo_request);
                              (log_fault_env, photo_request);
                              (next_month_env, photo_request) ]
                            no_record))) =
  (length (usageLogs no_record) +
   length (List.filter isServed
             (fst (run_in_turn Index.callClaudeVision
                     [ (answering_env 0, photo_request);
                       (failing_env, photo_request);
                       (log_fault_env, photo_request);
                       (next_month_env, photo_request) ]
                     no_record))))%nat.
Proof.
  apply (usage_log_counts_the_served_requests
           [ (answering_env 0, photo_request); (failing_env, photo_request);
             (log_fault_env, photo_request); (next_month_env, photo_request) ]
           no_record).
Defined.
